(** * FlickPractice: a shallow embedding of the flick-input typing trainer

    The development follows the TypeScript sources of the repository:
    - [engine/generator.ts]      the practice-text generator,
    - [engine/flickKeyboard.ts]  the gesture resolver and the character index,
    - [screens/game.ts]          the input handler of a session and its scoring,
    - [storage/localStorage.ts]  the score history,
    - [main.ts]                  the built-in default configuration.

    JavaScript values are modelled as follows.  A [string] is its list of
    UTF-16 code units; a [number] is an IEEE-754 binary64 float (Rocq's
    primitive floats) except where the code only ever uses it as an array
    index or a counter, where it is a [nat]; [null] and [undefined] are
    [None]; a plain object used as a table is the list of its own
    properties in enumeration order; a [Map] is a [gmap]. *)

From Stdlib Require Import ZArith NArith List Floats Uint63 Lia.
From stdpp Require Import base option list gmap.

Set Warnings "-inexact-float".

(** ** JavaScript values *)

Abbreviation jsstring := (list N).

Module JS.

(** Truthiness of a [string | null | undefined]: only a non-empty string
    passes an [if (x)] test. *)
Definition truthy (x : option jsstring) : bool :=
  match x with
  | Some (_ :: _) => true
  | _ => false
  end.

(** [a || b] on a possibly missing string. *)
Definition or_else (a : option jsstring) (b : jsstring) : jsstring :=
  match a with
  | Some (c :: s) => c :: s
  | _ => b
  end.

(** [s[i]]: the one-unit string at index [i], or [undefined]. *)
Definition charAt (s : jsstring) (i : nat) : option jsstring :=
  (fun u => [u]) <$> s !! i.

(** A plain object read as a table: its own properties in the order
    [Object.keys] enumerates them.  The keys of an object are distinct;
    what it inherits from [Object.prototype] is not part of the table. *)
Definition object (V : Type) : Type := list (jsstring * V).

Definition keys {V} (o : object V) : list jsstring := o.*1.
Definition values {V} (o : object V) : list V := o.*2.

(** [o[k]], own properties only: what [o] inherits from
    [Object.prototype] is left out.  This is the [o[k]] of the code for
    every [k] that names no property of [Object.prototype]; those names
    are several characters long, so a string of one character is never
    one of them. *)
Fixpoint get {V} (o : object V) (k : jsstring) : option V :=
  match o with
  | [] => None
  | (k', v) :: o' => if decide (k' = k) then Some v else get o' k
  end.

(** [xs.includes(x)] *)
Definition includes (xs : list jsstring) (x : jsstring) : bool :=
  bool_decide (x ∈ xs).

(** [xs.slice(-k)] for [k >= 1]: the last [k] elements, all of them when
    there are fewer. *)
Definition slice_last {A} (k : nat) (xs : list A) : list A :=
  drop (length xs - k) xs.

(** The number of a length or of a count (exact below 2^53). *)
Definition number_of_nat (n : nat) : float :=
  PrimFloat.of_uint63 (Uint63.of_Z (Z.of_nat n)).

(** The property name an [undefined] index turns into. *)
Definition undefined_key : jsstring :=
  [117; 110; 100; 101; 102; 105; 110; 101; 100]%N.

End JS.

(** ** types.ts *)

Inductive InputMode := Hiragana | Alphabet.
Inductive GameMode := Daily | Practice.
Inductive FlickDirection := Center | Up | Down | Left | Right.

#[global] Instance FlickDirection_eq_dec : EqDecision FlickDirection.
Proof. solve_decision. Defined.

Record FlickStroke := {
  input : jsstring;
  expected : option jsstring;   (* [undefined] once the cursor is past the text *)
  correct : bool;
  timestamp : float;
  flickDirection : FlickDirection
}.

(** A key of the layout: [center] is mandatory, the four others optional. *)
Module FlickKey.
Record t := mk {
  center : jsstring;
  up : option jsstring;
  down : option jsstring;
  left : option jsstring;
  right : option jsstring
}.

(** The raw content of a direction slot. *)
Definition slot (k : t) (d : FlickDirection) : option jsstring :=
  match d with
  | Center => Some (center k)
  | Up => up k
  | Down => down k
  | Left => left k
  | Right => right k
  end.
End FlickKey.

Module Config.
Record GameSettings := {
  duration : float;
  countdownSeconds : float
}.

Record GeneratorSettings := {
  hiraganaWeights : JS.object float;
  alphabetWeights : JS.object float
}.

Record FlickLayout := {
  hiragana : list FlickKey.t;
  alphabet : list FlickKey.t
}.

Record UiSettings := {
  shakeIntensity : float;
  shakeDuration : float;
  slideTransitionMs : float;
  visibleCharsBefore : nat;
  visibleCharsAfter : nat;
  flickThreshold : float
}.

Record Ranking := {
  rank_S : float;
  rank_A : float;
  rank_B : float;
  rank_C : float;
  rank_D : float
}.

(** [Config], with the two diacritic tables that [main.ts] supplies and
    that the keyboard and the game screen read. *)
Record t := {
  game : GameSettings;
  generator : GeneratorSettings;
  flickLayout : FlickLayout;
  dakutenMap : JS.object jsstring;
  handakutenMap : JS.object jsstring;
  ui : UiSettings;
  ranking : Ranking
}.
End Config.

Record CharStat := {
  stat_correct : nat;
  stat_miss : nat
}.

Record GameResult := {
  res_gameMode : GameMode;
  res_inputMode : InputMode;
  res_seed : float;
  res_cpm : float;
  res_accuracy : float;
  res_correctCount : nat;
  res_missCount : nat;
  res_charStats : gmap jsstring CharStat;
  res_strokes : list FlickStroke
}.

Record GameRecord := {
  rec_id : jsstring;
  rec_gameMode : GameMode;
  rec_inputMode : InputMode;
  rec_seed : float;
  rec_date : jsstring;
  rec_cpm : float;
  rec_accuracy : float;
  rec_correctCount : nat;
  rec_missCount : nat;
  rec_charStats : gmap jsstring CharStat;
  rec_strokes : list FlickStroke
}.

(** ** Characters *)

Module Kana.
(** The characters of the built-in tables, by UTF-16 code unit. *)
Definition k_a : jsstring := [0x3042%N]. (* あ *)
Definition k_i : jsstring := [0x3044%N]. (* い *)
Definition k_u : jsstring := [0x3046%N]. (* う *)
Definition k_e : jsstring := [0x3048%N]. (* え *)
Definition k_o : jsstring := [0x304A%N]. (* お *)
Definition k_ka : jsstring := [0x304B%N]. (* か *)
Definition k_ki : jsstring := [0x304D%N]. (* き *)
Definition k_ku : jsstring := [0x304F%N]. (* く *)
Definition k_ke : jsstring := [0x3051%N]. (* け *)
Definition k_ko : jsstring := [0x3053%N]. (* こ *)
Definition k_sa : jsstring := [0x3055%N]. (* さ *)
Definition k_si : jsstring := [0x3057%N]. (* し *)
Definition k_su : jsstring := [0x3059%N]. (* す *)
Definition k_se : jsstring := [0x305B%N]. (* せ *)
Definition k_so : jsstring := [0x305D%N]. (* そ *)
Definition k_ta : jsstring := [0x305F%N]. (* た *)
Definition k_ti : jsstring := [0x3061%N]. (* ち *)
Definition k_tu : jsstring := [0x3064%N]. (* つ *)
Definition k_te : jsstring := [0x3066%N]. (* て *)
Definition k_to : jsstring := [0x3068%N]. (* と *)
Definition k_na : jsstring := [0x306A%N]. (* な *)
Definition k_ni : jsstring := [0x306B%N]. (* に *)
Definition k_nu : jsstring := [0x306C%N]. (* ぬ *)
Definition k_ne : jsstring := [0x306D%N]. (* ね *)
Definition k_no : jsstring := [0x306E%N]. (* の *)
Definition k_ha : jsstring := [0x306F%N]. (* は *)
Definition k_hi : jsstring := [0x3072%N]. (* ひ *)
Definition k_hu : jsstring := [0x3075%N]. (* ふ *)
Definition k_he : jsstring := [0x3078%N]. (* へ *)
Definition k_ho : jsstring := [0x307B%N]. (* ほ *)
Definition k_ma : jsstring := [0x307E%N]. (* ま *)
Definition k_mi : jsstring := [0x307F%N]. (* み *)
Definition k_mu : jsstring := [0x3080%N]. (* む *)
Definition k_me : jsstring := [0x3081%N]. (* め *)
Definition k_mo : jsstring := [0x3082%N]. (* も *)
Definition k_ya : jsstring := [0x3084%N]. (* や *)
Definition k_yu : jsstring := [0x3086%N]. (* ゆ *)
Definition k_yo : jsstring := [0x3088%N]. (* よ *)
Definition k_ra : jsstring := [0x3089%N]. (* ら *)
Definition k_ri : jsstring := [0x308A%N]. (* り *)
Definition k_ru : jsstring := [0x308B%N]. (* る *)
Definition k_re : jsstring := [0x308C%N]. (* れ *)
Definition k_ro : jsstring := [0x308D%N]. (* ろ *)
Definition k_wa : jsstring := [0x308F%N]. (* わ *)
Definition k_wo : jsstring := [0x3092%N]. (* を *)
Definition k_nn : jsstring := [0x3093%N]. (* ん *)
Definition k_ga : jsstring := [0x304C%N]. (* が *)
Definition k_gi : jsstring := [0x304E%N]. (* ぎ *)
Definition k_gu : jsstring := [0x3050%N]. (* ぐ *)
Definition k_ge : jsstring := [0x3052%N]. (* げ *)
Definition k_go : jsstring := [0x3054%N]. (* ご *)
Definition k_za : jsstring := [0x3056%N]. (* ざ *)
Definition k_zi : jsstring := [0x3058%N]. (* じ *)
Definition k_zu : jsstring := [0x305A%N]. (* ず *)
Definition k_ze : jsstring := [0x305C%N]. (* ぜ *)
Definition k_zo : jsstring := [0x305E%N]. (* ぞ *)
Definition k_da : jsstring := [0x3060%N]. (* だ *)
Definition k_di : jsstring := [0x3062%N]. (* ぢ *)
Definition k_du : jsstring := [0x3065%N]. (* づ *)
Definition k_de : jsstring := [0x3067%N]. (* で *)
Definition k_do : jsstring := [0x3069%N]. (* ど *)
Definition k_ba : jsstring := [0x3070%N]. (* ば *)
Definition k_bi : jsstring := [0x3073%N]. (* び *)
Definition k_bu : jsstring := [0x3076%N]. (* ぶ *)
Definition k_be : jsstring := [0x3079%N]. (* べ *)
Definition k_bo : jsstring := [0x307C%N]. (* ぼ *)
Definition k_pa : jsstring := [0x3071%N]. (* ぱ *)
Definition k_pi : jsstring := [0x3074%N]. (* ぴ *)
Definition k_pu : jsstring := [0x3077%N]. (* ぷ *)
Definition k_pe : jsstring := [0x307A%N]. (* ぺ *)
Definition k_po : jsstring := [0x307D%N]. (* ぽ *)
Definition k_paren_open : jsstring := [0xFF08%N]. (* （ *)
Definition k_paren_close : jsstring := [0xFF09%N]. (* ） *)
Definition k_dakuten_mark : jsstring := [0x309B%N]. (* ゛ *)
Definition k_handakuten_mark : jsstring := [0x309C%N]. (* ゜ *)
Definition k_small_mark : jsstring := [0x5C0F%N]. (* 小 *)
Definition k_long_mark : jsstring := [0x30FC%N]. (* ー *)
Definition k_comma : jsstring := [0x3001%N]. (* 、 *)
Definition k_period : jsstring := [0x3002%N]. (* 。 *)
Definition k_question : jsstring := [0xFF1F%N]. (* ？ *)
Definition k_exclaim : jsstring := [0xFF01%N]. (* ！ *)
Definition k_ellipsis : jsstring := [0x2026%N]. (* … *)

(** The two diacritic toggles that [handleFlickInput] tests for. *)
Definition dakutenKey : jsstring := k_dakuten_mark.
Definition handakutenKey : jsstring := k_handakuten_mark.
End Kana.

(** ** main.ts: the built-in configuration *)

Module DefaultConfig.
Import Kana.

Definition ascii (n : N) : jsstring := [n].

Definition key5 (c l u r d : jsstring) : FlickKey.t :=
  FlickKey.mk c (Some u) (Some d) (Some l) (Some r).

Definition hiraganaLayout : list FlickKey.t :=
  [ key5 k_a k_i k_u k_e k_o;
    key5 k_ka k_ki k_ku k_ke k_ko;
    key5 k_sa k_si k_su k_se k_so;
    key5 k_ta k_ti k_tu k_te k_to;
    key5 k_na k_ni k_nu k_ne k_no;
    key5 k_ha k_hi k_hu k_he k_ho;
    key5 k_ma k_mi k_mu k_me k_mo;
    key5 k_ya k_paren_open k_yu k_paren_close k_yo;
    key5 k_ra k_ri k_ru k_re k_ro;
    FlickKey.mk k_dakuten_mark (Some k_small_mark) None (Some k_handakuten_mark) None;
    FlickKey.mk k_wa (Some k_nn) None (Some k_wo) (Some k_long_mark);
    key5 k_comma k_period k_question k_exclaim k_ellipsis ].

(** The alphabet layout, by ASCII code. *)
Definition alphabetLayout : list FlickKey.t :=
  [ key5 (ascii 64) (ascii 35) (ascii 47) (ascii 38) (ascii 95);
    key5 (ascii 97) (ascii 98) (ascii 99) (ascii 65) (ascii 66);
    key5 (ascii 100) (ascii 101) (ascii 102) (ascii 68) (ascii 69);
    key5 (ascii 103) (ascii 104) (ascii 105) (ascii 71) (ascii 72);
    key5 (ascii 106) (ascii 107) (ascii 108) (ascii 74) (ascii 75);
    key5 (ascii 109) (ascii 110) (ascii 111) (ascii 77) (ascii 78);
    key5 (ascii 112) (ascii 113) (ascii 114) (ascii 115) (ascii 80);
    key5 (ascii 116) (ascii 117) (ascii 118) (ascii 84) (ascii 85);
    key5 (ascii 119) (ascii 120) (ascii 121) (ascii 122) (ascii 87);
    key5 (ascii 44) (ascii 46) (ascii 63) (ascii 33) (ascii 39);
    key5 (ascii 45) (ascii 43) (ascii 42) (ascii 61) (ascii 58);
    key5 (ascii 32) (ascii 48) (ascii 49) (ascii 50) (ascii 51) ].

Definition hiraganaWeightTable : JS.object float :=
  [ (k_a, 5.0); (k_i, 7.0); (k_u, 6.0); (k_e, 4.0); (k_o, 5.0);
    (k_ka, 4.5); (k_ki, 4.5); (k_ku, 4.5); (k_ke, 3.0); (k_ko, 4.0);
    (k_sa, 3.5); (k_si, 5.0); (k_su, 4.5); (k_se, 2.5); (k_so, 2.5);
    (k_ta, 4.5); (k_ti, 3.0); (k_tu, 4.0); (k_te, 5.0); (k_to, 5.0);
    (k_na, 4.0); (k_ni, 4.5); (k_nu, 1.0); (k_ne, 2.0); (k_no, 5.5);
    (k_ha, 4.0); (k_hi, 2.5); (k_hu, 2.5); (k_he, 1.5); (k_ho, 2.5);
    (k_ma, 3.5); (k_mi, 2.5); (k_mu, 2.0); (k_me, 2.0); (k_mo, 3.5);
    (k_ya, 3.0); (k_yu, 2.0); (k_yo, 3.5);
    (k_ra, 3.0); (k_ri, 3.5); (k_ru, 4.0); (k_re, 3.0); (k_ro, 2.5);
    (k_wa, 3.0); (k_wo, 2.5); (k_nn, 5.0) ]%float.

Definition alphabetWeightTable : JS.object float :=
  [ (ascii 97, 8.2); (ascii 98, 1.5); (ascii 99, 2.8); (ascii 100, 4.3);
    (ascii 101, 12.7); (ascii 102, 2.2); (ascii 103, 2.0); (ascii 104, 6.1);
    (ascii 105, 7.0); (ascii 106, 0.15); (ascii 107, 0.77); (ascii 108, 4.0);
    (ascii 109, 2.4); (ascii 110, 6.7); (ascii 111, 7.5); (ascii 112, 1.9);
    (ascii 113, 0.095); (ascii 114, 6.0); (ascii 115, 6.3); (ascii 116, 9.1);
    (ascii 117, 2.8); (ascii 118, 0.98); (ascii 119, 2.4); (ascii 120, 0.15);
    (ascii 121, 2.0); (ascii 122, 0.074) ]%float.

Definition dakutenTable : JS.object jsstring :=
  [ (k_ka, k_ga); (k_ki, k_gi); (k_ku, k_gu); (k_ke, k_ge); (k_ko, k_go);
    (k_sa, k_za); (k_si, k_zi); (k_su, k_zu); (k_se, k_ze); (k_so, k_zo);
    (k_ta, k_da); (k_ti, k_di); (k_tu, k_du); (k_te, k_de); (k_to, k_do);
    (k_ha, k_ba); (k_hi, k_bi); (k_hu, k_bu); (k_he, k_be); (k_ho, k_bo) ].

Definition handakutenTable : JS.object jsstring :=
  [ (k_ha, k_pa); (k_hi, k_pi); (k_hu, k_pu); (k_he, k_pe); (k_ho, k_po) ].

Definition getDefaultConfig : Config.t :=
  {| Config.game := {| Config.duration := 60; Config.countdownSeconds := 3 |};
     Config.generator := {| Config.hiraganaWeights := hiraganaWeightTable;
                     Config.alphabetWeights := alphabetWeightTable |};
     Config.flickLayout := {| Config.hiragana := hiraganaLayout;
                       Config.alphabet := alphabetLayout |};
     Config.dakutenMap := dakutenTable;
     Config.handakutenMap := handakutenTable;
     Config.ui := {| Config.shakeIntensity := 5; Config.shakeDuration := 100;
              Config.slideTransitionMs := 50; Config.visibleCharsBefore := 10;
              Config.visibleCharsAfter := 20; Config.flickThreshold := 30 |};
     Config.ranking := {| Config.rank_S := 180; Config.rank_A := 120; Config.rank_B := 80;
                   Config.rank_C := 50; Config.rank_D := 0 |} |}.

End DefaultConfig.

(** ** engine/generator.ts *)

Module Generator.
Section WithRandom.

(** Of the class [SeededRandom] of [engine/seededRandom.ts] only the
    interface is used, through two entry points: its constructor and
    [weightedPick].  Both are taken as they are called: a generator state
    made from the seed, and a pick that returns the chosen item with the
    state that follows.  What follows holds for any such pair. *)
Context {SeededRandom : Type}.
Variable newSeededRandom : float -> SeededRandom.
Variable weightedPick :
  SeededRandom -> list jsstring -> list float -> jsstring * SeededRandom.

Record CharacterGenerator := {
  random : SeededRandom;
  characters : list jsstring;
  weights : list float
}.

(** [new CharacterGenerator(seed, config, inputMode)] *)
Definition new (seed : float) (config : Config.t) (inputMode : InputMode)
  : CharacterGenerator :=
  let weightConfig :=
    match inputMode with
    | Hiragana => Config.hiraganaWeights (Config.generator config)
    | Alphabet => Config.alphabetWeights (Config.generator config)
    end in
  let chars := JS.keys weightConfig in
  {| random := newSeededRandom seed;
     characters := chars;
     weights := omap (JS.get weightConfig) chars |}.

(** [generateSingleChar()] *)
Definition generateSingleChar (g : CharacterGenerator)
  : jsstring * CharacterGenerator :=
  let (c, r) := weightedPick (random g) (characters g) (weights g) in
  (c, {| random := r; characters := characters g; weights := weights g |}).

(** The [while (result.length < length)] loop of [generate]; [fuel]
    bounds the number of iterations, [None] is fuel run out. *)
Fixpoint generate_loop (fuel : nat) (g : CharacterGenerator)
    (result : jsstring) (len : nat)
  : option (jsstring * CharacterGenerator) :=
  if decide (length result < len) then
    match fuel with
    | O => None
    | S fuel' =>
        let (c, g') := generateSingleChar g in
        generate_loop fuel' g' (result ++ c) len
    end
  else Some (result, g).

(** [generate(length)] *)
Definition generate (fuel : nat) (g : CharacterGenerator) (len : nat)
  : option (jsstring * CharacterGenerator) :=
  generate_loop fuel g [] len.

(** [stream()], unfolded: the first [k] values the iterator yields. *)
Fixpoint stream_take (k : nat) (g : CharacterGenerator)
  : list jsstring * CharacterGenerator :=
  match k with
  | O => ([], g)
  | S k' =>
      let (c, g') := generateSingleChar g in
      let (cs, g'') := stream_take k' g' in
      (c :: cs, g'')
  end.

(** Every pick made for the tables of [g] is a non-empty string: the
    loop of [generate] then makes progress at each turn. *)
Definition picks_nonempty (g : CharacterGenerator) : Prop :=
  forall r, (weightedPick r (characters g) (weights g)).1 <> [].

End WithRandom.
End Generator.

(** ** engine/flickKeyboard.ts *)

Inductive DakutenType := Dakuten | Handakuten.

#[global] Instance DakutenType_eq_dec : EqDecision DakutenType.
Proof. solve_decision. Defined.

Record FlickResult := {
  direction : FlickDirection;
  character : option jsstring
}.

(** The coordinates an event handler reads from its event: [clientX] and
    [clientY] of the first touch, or of the mouse event. *)
Record Pointer := {
  clientX : float;
  clientY : float
}.

Module FlickKeyboard.

Abbreviation KeyMap := (gmap jsstring FlickKey.t).
Abbreviation IndexMap := (gmap jsstring nat).

Record t := {
  config : Config.t;
  inputMode : InputMode;
  startX : float;
  startY : float;
  activeKey : option FlickKey.t;
  activeKeyIndex : Z;
  charToKey : KeyMap;
  charToKeyIndex : IndexMap;
  isDragging : bool;
  onInput : bool                 (* is a callback registered? *)
}.

(** [getLayout()] *)
Definition layoutOf (config : Config.t) (mode : InputMode) : list FlickKey.t :=
  match mode with
  | Hiragana => Config.hiragana (Config.flickLayout config)
  | Alphabet => Config.alphabet (Config.flickLayout config)
  end.

Definition getLayout (kb : t) : list FlickKey.t :=
  layoutOf (config kb) (inputMode kb).

(** [charToKey.set(ch, key); charToKeyIndex.set(ch, i)] *)
Definition registerChar (ch : jsstring) (key : FlickKey.t) (i : nat)
    (m : KeyMap * IndexMap) : KeyMap * IndexMap :=
  (<[ch := key]> m.1, <[ch := i]> m.2).

(** [if (key.up) { ... }] and its three siblings *)
Definition registerSlot (slot : option jsstring) (key : FlickKey.t) (i : nat)
    (m : KeyMap * IndexMap) : KeyMap * IndexMap :=
  match slot with
  | Some (c :: s) => registerChar (c :: s) key i m
  | _ => m
  end.

(** The body of the loop over the layout. *)
Definition registerKey (key : FlickKey.t) (i : nat) (m : KeyMap * IndexMap)
  : KeyMap * IndexMap :=
  let m := registerChar (FlickKey.center key) key i m in
  let m := registerSlot (FlickKey.up key) key i m in
  let m := registerSlot (FlickKey.down key) key i m in
  let m := registerSlot (FlickKey.left key) key i m in
  registerSlot (FlickKey.right key) key i m.

(** [for (let i = ...; i < layout.length; i++)], from index [i] on. *)
Fixpoint registerLayout (i : nat) (layout : list FlickKey.t)
    (m : KeyMap * IndexMap) : KeyMap * IndexMap :=
  match layout with
  | [] => m
  | key :: rest => registerLayout (S i) rest (registerKey key i m)
  end.

(** One turn of a loop of [addDakutenMappings]. *)
Definition addMapping (m : KeyMap * IndexMap) (entry : jsstring * jsstring)
  : KeyMap * IndexMap :=
  let (base, marked) := entry in
  if bool_decide (is_Some (m.1 !! marked)) then m
  else
    match m.1 !! base, m.2 !! base with
    | Some key, Some keyIndex => registerChar marked key keyIndex m
    | _, _ => m
    end.

Definition addDakutenMappings (config : Config.t) (m : KeyMap * IndexMap)
  : KeyMap * IndexMap :=
  let m := fold_left addMapping (Config.dakutenMap config) m in
  fold_left addMapping (Config.handakutenMap config) m.

(** [buildCharToKeyMap()], on the two maps it fills. *)
Definition buildCharToKeyMap (config : Config.t) (mode : InputMode)
    (m : KeyMap * IndexMap) : KeyMap * IndexMap :=
  let m := registerLayout 0 (layoutOf config mode) m in
  match mode with
  | Hiragana => addDakutenMappings config m
  | Alphabet => m
  end.

(** [new FlickKeyboard(config, inputMode)] *)
Definition new (config : Config.t) (mode : InputMode) : t :=
  let m := buildCharToKeyMap config mode (∅, ∅) in
  {| config := config; inputMode := mode;
     startX := 0; startY := 0;
     activeKey := None; activeKeyIndex := -1;
     charToKey := m.1; charToKeyIndex := m.2;
     isDragging := false; onInput := false |}.

(** [setInputMode(mode)]: both maps are cleared and built again. *)
Definition setInputMode (kb : t) (mode : InputMode) : t :=
  let m := buildCharToKeyMap (config kb) mode (∅, ∅) in
  {| config := config kb; inputMode := mode;
     startX := startX kb; startY := startY kb;
     activeKey := activeKey kb; activeKeyIndex := activeKeyIndex kb;
     charToKey := m.1; charToKeyIndex := m.2;
     isDragging := isDragging kb; onInput := onInput kb |}.

(** [getKeyIndexForChar(char)] *)
Definition getKeyIndexForChar (kb : t) (char : jsstring) : Z :=
  match charToKeyIndex kb !! char with
  | Some i => Z.of_nat i
  | None => -1
  end.

(** The reverse scan of one diacritic table: the first entry whose value
    is [char] and whose key is not itself a value of the table. *)
Definition cleanBaseEntry (table : JS.object jsstring) (char : jsstring)
    (entry : jsstring * jsstring) : bool :=
  bool_decide (entry.2 = char) && negb (JS.includes (JS.values table) entry.1).

Definition findBase (table : JS.object jsstring) (char : jsstring)
  : option jsstring :=
  fst <$> List.find (cleanBaseEntry table char) table.

(** [getBaseChar(char)] *)
Definition getBaseChar (kb : t) (char : jsstring) : option jsstring :=
  match findBase (Config.dakutenMap (config kb)) char with
  | Some base => Some base
  | None => findBase (Config.handakutenMap (config kb)) char
  end.

(** One of the two blocks of [needsDakuten]. *)
Definition isMarkedBy (table : JS.object jsstring) (char : jsstring) : bool :=
  JS.includes (JS.values table) char &&
  existsb (cleanBaseEntry table char) table.

(** [needsDakuten(char)] *)
Definition needsDakuten (kb : t) (char : jsstring) : option DakutenType :=
  if isMarkedBy (Config.dakutenMap (config kb)) char then Some Dakuten
  else if isMarkedBy (Config.handakutenMap (config kb)) char then Some Handakuten
  else None.

(** [setOnInput(callback)] *)
Definition setOnInput (kb : t) : t :=
  {| config := config kb; inputMode := inputMode kb;
     startX := startX kb; startY := startY kb;
     activeKey := activeKey kb; activeKeyIndex := activeKeyIndex kb;
     charToKey := charToKey kb; charToKeyIndex := charToKeyIndex kb;
     isDragging := isDragging kb; onInput := true |}.

(** [getKeyForChar(char)] *)
Definition getKeyForChar (kb : t) (char : jsstring) : option FlickKey.t :=
  charToKey kb !! char.

(** [getDirectionForChar(char)] *)
Definition getDirectionForChar (kb : t) (char : jsstring)
  : option FlickDirection :=
  match charToKey kb !! char with
  | None => None
  | Some key =>
      if bool_decide (FlickKey.center key = char) then Some Center
      else if bool_decide (FlickKey.up key = Some char) then Some Up
      else if bool_decide (FlickKey.down key = Some char) then Some Down
      else if bool_decide (FlickKey.left key = Some char) then Some Left
      else if bool_decide (FlickKey.right key = Some char) then Some Right
      else None
  end.

(** The start of a gesture, shared by [handleTouchStart] and
    [handleMouseDown]; [keyIndex] is the element's [data-key-index]. *)
Definition press (kb : t) (p : Pointer) (keyIndex : nat) (dragging : bool) : t :=
  {| config := config kb; inputMode := inputMode kb;
     startX := clientX p; startY := clientY p;
     activeKey := getLayout kb !! keyIndex;
     activeKeyIndex := Z.of_nat keyIndex;
     charToKey := charToKey kb; charToKeyIndex := charToKeyIndex kb;
     isDragging := dragging; onInput := onInput kb |}.

(** [handleTouchStart(e, keyElement)] *)
Definition handleTouchStart (kb : t) (touch : Pointer) (keyIndex : nat) : t :=
  press kb touch keyIndex (isDragging kb).

(** [handleMouseDown(e, keyElement)] *)
Definition handleMouseDown (kb : t) (e : Pointer) (keyIndex : nat) : t :=
  press kb e keyIndex true.

(** [x || null] on a slot *)
Definition orNull (x : option jsstring) : option jsstring :=
  if JS.truthy x then x else None.

(** [getCharacterForDirection(direction)] *)
Definition getCharacterForDirection (kb : t) (d : FlickDirection)
  : option jsstring :=
  match activeKey kb with
  | None => None
  | Some key =>
      match d with
      | Center => Some (FlickKey.center key)
      | Up => orNull (FlickKey.up key)
      | Down => orNull (FlickKey.down key)
      | Left => orNull (FlickKey.left key)
      | Right => orNull (FlickKey.right key)
      end
  end.

(** A key holds a character when one of its five slots does. *)
Definition holds (key : FlickKey.t) (ch : jsstring) : Prop :=
  exists d, FlickKey.slot key d = Some ch.

#[global] Instance holds_dec (key : FlickKey.t) (ch : jsstring) : Decision (holds key ch).
Proof.
destruct (decide (Exists (fun d => FlickKey.slot key d = Some ch)
                    [Center; Up; Down; Left; Right])) as [H|H].
- left. apply Exists_exists in H as (d & _ & Hd). by exists d.
- right. intros [d Hd]. apply H, Exists_exists. exists d. split; [|done].
  destruct d; set_solver.
Defined.

(** The half-open interval [[lo, hi)] of angles. *)
Definition within (lo hi angle : float) : bool :=
  (lo <=? angle)%float && (angle <? hi)%float.

Section WithMath.

(** [Math.atan2] belongs to the platform; the keyboard is stated for any
    function in its place.  [Math.PI] is the double nearest to pi. *)
Variable Math_atan2 : float -> float -> float.

Definition Math_PI : float := 0x1.921fb54442d18p+1%float.

(** The angle of the drag, in degrees. *)
Definition angleOf (dx dy : float) : float :=
  (Math_atan2 dy dx * (180 / Math_PI))%float.

(** [calculateDirection(endX, endY)] *)
Definition calculateDirection (kb : t) (endX endY : float) : FlickDirection :=
  let dx := (endX - startX kb)%float in
  let dy := (endY - startY kb)%float in
  let distance := PrimFloat.sqrt (dx * dx + dy * dy)%float in
  if (distance <? Config.flickThreshold (Config.ui (config kb)))%float then Center
  else
    let angle := angleOf dx dy in
    if (-45 <=? angle)%float && (angle <? 45)%float then Right
    else if (45 <=? angle)%float && (angle <? 135)%float then Down
    else if (-135 <=? angle)%float && (angle <? -45)%float then Up
    else Left.

(** What a release hands back: the value returned, the call made to the
    input callback if any, and the keyboard afterwards. *)
Record Release := {
  returned : option FlickResult;
  called : option (jsstring * FlickDirection);
  after : t
}.

(** The end of a gesture, shared by [handleTouchEnd] and [handleMouseUp]
    past their guards; [dragging] is the value [isDragging] is left with. *)
Definition release (kb : t) (p : Pointer) (dragging : bool) : Release :=
  let d := calculateDirection kb (clientX p) (clientY p) in
  let c := getCharacterForDirection kb d in
  {| returned := Some {| direction := d; character := c |};
     called :=
       match c with
       | Some ch => if JS.truthy c && onInput kb then Some (ch, d) else None
       | None => None
       end;
     after :=
       {| config := config kb; inputMode := inputMode kb;
          startX := startX kb; startY := startY kb;
          activeKey := None; activeKeyIndex := -1;
          charToKey := charToKey kb; charToKeyIndex := charToKeyIndex kb;
          isDragging := dragging; onInput := onInput kb |} |}.

(** [handleTouchMove(e, keyElement)]: a preview, the keyboard is not
    changed. *)
Definition handleTouchMove (kb : t) (touch : Pointer) : option FlickResult :=
  match activeKey kb with
  | None => None
  | Some _ =>
      let d := calculateDirection kb (clientX touch) (clientY touch) in
      Some {| direction := d; character := getCharacterForDirection kb d |}
  end.

(** [handleTouchEnd(e, keyElement)] *)
Definition handleTouchEnd (kb : t) (touch : Pointer) : Release :=
  match activeKey kb with
  | None => {| returned := None; called := None; after := kb |}
  | Some _ => release kb touch (isDragging kb)
  end.

(** [handleMouseMove(e, keyElement)] *)
Definition handleMouseMove (kb : t) (e : Pointer) : option FlickResult :=
  if negb (isDragging kb) then None else handleTouchMove kb e.

(** [handleMouseUp(e, keyElement)] *)
Definition handleMouseUp (kb : t) (e : Pointer) : Release :=
  if negb (isDragging kb) then {| returned := None; called := None; after := kb |}
  else
    match activeKey kb with
    | None => {| returned := None; called := None; after := kb |}
    | Some _ => release kb e false
    end.

End WithMath.

(** [cleanup()] *)
Definition cleanup (kb : t) : t :=
  {| config := config kb; inputMode := inputMode kb;
     startX := startX kb; startY := startY kb;
     activeKey := None; activeKeyIndex := -1;
     charToKey := charToKey kb; charToKeyIndex := charToKeyIndex kb;
     isDragging := false; onInput := false |}.

End FlickKeyboard.

(** ** screens/game.ts *)

Record GameData := {
  gameMode : GameMode;
  inputMode : InputMode;
  seed : float
}.

Module GameScreen.
Section WithRandom.

Context {SeededRandom : Type}.
Variable weightedPick :
  SeededRandom -> list jsstring -> list float -> jsstring * SeededRandom.

(** The fields of the screen that the input handler and the scoring read
    or write, as they stand once [render] has run: the generator and the
    keyboard are built, [trackEl] tells whether the track element was
    found.  The DOM itself is not part of the state. *)
Record t := {
  config : Config.t;
  generator : Generator.CharacterGenerator (SeededRandom := SeededRandom);
  flickKeyboard : option FlickKeyboard.t;
  characters : jsstring;
  currentIndex : nat;
  strokes : list FlickStroke;
  startTime : float;
  timeRemaining : float;
  isRunning : bool;
  isCountdown : bool;
  pendingBaseChar : option jsstring;
  pendingDakutenType : option DakutenType;
  pendingDakutenCount : nat;
  trackEl : bool;
  gameData : GameData
}.

(** Field updates. *)
Definition setText (chars : jsstring) (g : Generator.CharacterGenerator)
    (s : t) : t :=
  {| config := config s; generator := g; flickKeyboard := flickKeyboard s;
     characters := chars; currentIndex := currentIndex s;
     strokes := strokes s; startTime := startTime s;
     timeRemaining := timeRemaining s; isRunning := isRunning s;
     isCountdown := isCountdown s; pendingBaseChar := pendingBaseChar s;
     pendingDakutenType := pendingDakutenType s;
     pendingDakutenCount := pendingDakutenCount s;
     trackEl := trackEl s; gameData := gameData s |}.

(** [this.strokes.push(stroke)] *)
Definition pushStroke (stroke : FlickStroke) (s : t) : t :=
  {| config := config s; generator := generator s;
     flickKeyboard := flickKeyboard s;
     characters := characters s; currentIndex := currentIndex s;
     strokes := strokes s ++ [stroke]; startTime := startTime s;
     timeRemaining := timeRemaining s; isRunning := isRunning s;
     isCountdown := isCountdown s; pendingBaseChar := pendingBaseChar s;
     pendingDakutenType := pendingDakutenType s;
     pendingDakutenCount := pendingDakutenCount s;
     trackEl := trackEl s; gameData := gameData s |}.

(** [this.pendingBaseChar = b; this.pendingDakutenType = k] *)
Definition setPending (b : option jsstring) (k : option DakutenType)
    (s : t) : t :=
  {| config := config s; generator := generator s;
     flickKeyboard := flickKeyboard s;
     characters := characters s; currentIndex := currentIndex s;
     strokes := strokes s; startTime := startTime s;
     timeRemaining := timeRemaining s; isRunning := isRunning s;
     isCountdown := isCountdown s; pendingBaseChar := b;
     pendingDakutenType := k;
     pendingDakutenCount := pendingDakutenCount s;
     trackEl := trackEl s; gameData := gameData s |}.

(** [this.pendingDakutenCount = n] *)
Definition setPendingCount (n : nat) (s : t) : t :=
  {| config := config s; generator := generator s;
     flickKeyboard := flickKeyboard s;
     characters := characters s; currentIndex := currentIndex s;
     strokes := strokes s; startTime := startTime s;
     timeRemaining := timeRemaining s; isRunning := isRunning s;
     isCountdown := isCountdown s; pendingBaseChar := pendingBaseChar s;
     pendingDakutenType := pendingDakutenType s;
     pendingDakutenCount := n;
     trackEl := trackEl s; gameData := gameData s |}.

(** [this.currentIndex++] *)
Definition nextIndex (s : t) : t :=
  {| config := config s; generator := generator s;
     flickKeyboard := flickKeyboard s;
     characters := characters s; currentIndex := S (currentIndex s);
     strokes := strokes s; startTime := startTime s;
     timeRemaining := timeRemaining s; isRunning := isRunning s;
     isCountdown := isCountdown s; pendingBaseChar := pendingBaseChar s;
     pendingDakutenType := pendingDakutenType s;
     pendingDakutenCount := pendingDakutenCount s;
     trackEl := trackEl s; gameData := gameData s |}.

(** The loop of [renderTrack] that tops the text up, fifty characters at
    a time, until it is [bound] long.  [fuel] bounds the turns of this
    loop, [gfuel] those of each [generate(50)]. *)
Fixpoint topUp (gfuel fuel : nat) (g : Generator.CharacterGenerator)
    (chars : jsstring) (bound : nat)
  : option (jsstring * Generator.CharacterGenerator) :=
  if decide (length chars < bound) then
    match fuel with
    | O => None
    | S fuel' =>
        match Generator.generate weightedPick gfuel g 50 with
        | None => None
        | Some (more, g') => topUp gfuel fuel' g' (chars ++ more) bound
        end
    end
  else Some (chars, g).

(** [renderTrack()], for what it does to the screen's own fields: without
    a track element nothing, else the text is topped up to
    [currentIndex + visibleCharsAfter + 50] characters. *)
Definition renderTrack (fuel : nat) (s : t) : option t :=
  if trackEl s then
    let endIndex := currentIndex s + Config.visibleCharsAfter (Config.ui (config s)) in
    match topUp fuel fuel (generator s) (characters s) (endIndex + 50) with
    | None => None
    | Some (chars, g) => Some (setText chars g s)
    end
  else Some s.

(** [this.flickKeyboard?.needsDakuten(expected)] *)
Definition needsDakutenOf (s : t) (expected : option jsstring)
  : option DakutenType :=
  match flickKeyboard s, expected with
  | Some kb, Some e => FlickKeyboard.needsDakuten kb e
  | _, _ => None
  end.

(** [this.flickKeyboard?.getBaseChar(expected)] *)
Definition getBaseCharOf (s : t) (expected : option jsstring)
  : option jsstring :=
  match flickKeyboard s, expected with
  | Some kb, Some e => FlickKeyboard.getBaseChar kb e
  | _, _ => None
  end.

(** The stroke written by a commit at time [now]. *)
Definition strokeAt (s : t) (now : float) (inp : jsstring)
    (e : option jsstring) (ok : bool) (d : FlickDirection) : FlickStroke :=
  {| input := inp; expected := e; correct := ok;
     timestamp := (now - startTime s)%float; flickDirection := d |}.

(** The two commits of the diacritic branch (lines 267-302): the stroke is
    pushed, the pending composition and its counter are cleared, the
    cursor moves on and the track is drawn again. *)
Definition commitComposed (fuel : nat) (s : t) (now : float)
    (char : jsstring) (d : FlickDirection) (e : option jsstring) : option t :=
  let map :=
    if bool_decide (char = Kana.dakutenKey) then Config.dakutenMap (config s)
    else Config.handakutenMap (config s) in
  let converted :=
    match pendingBaseChar s with
    | Some b => JS.get map b
    | None => None
    end in
  let stroke :=
    if JS.truthy converted && bool_decide (converted = e)
    then strokeAt s now (default [] converted) e true d
    else strokeAt s now (JS.or_else converted char) e false d in
  renderTrack fuel
    (nextIndex (setPendingCount 0 (setPending None None (pushStroke stroke s)))).

(** [handleFlickInput(char, direction)]; [now] is what [Date.now()] gives
    during the call.  [updateStats], [highlightNextKey] and
    [shakeTypingArea] only write to the DOM and are left out. *)
Definition handleFlickInput (fuel : nat) (s : t) (now : float)
    (char : jsstring) (d : FlickDirection) : option t :=
  if isCountdown s || negb (isRunning s) then Some s
  else
    let e := JS.charAt (characters s) (currentIndex s) in
    if bool_decide (char = Kana.dakutenKey) || bool_decide (char = Kana.handakutenKey)
    then
      if JS.truthy (pendingBaseChar s) then
        if bool_decide (pendingDakutenType s = Some Handakuten)
           && bool_decide (char = Kana.dakutenKey)
        then
          let s1 := setPendingCount (S (pendingDakutenCount s)) s in
          if decide (pendingDakutenCount s1 < 2) then Some s1
          else commitComposed fuel s1 now Kana.handakutenKey d e
        else commitComposed fuel s now char d e
      else Some s
    else
      match needsDakutenOf s e with
      | Some kind =>
          let baseChar := getBaseCharOf s e in
          if bool_decide (Some char = baseChar) then
            Some (setPendingCount 0 (setPending (Some char) (Some kind) s))
          else
            renderTrack fuel
              (nextIndex (setPendingCount 0 (setPending None None
                 (pushStroke (strokeAt s now char e false d) s))))
      | None =>
          let ok := bool_decide (Some char = e) in
          renderTrack fuel
            (nextIndex (setPending None None
               (pushStroke (strokeAt s now char e ok d) s)))
      end.

(** The tally of [endGame]: one more correct or one more miss for the
    expected character of a stroke. *)
Definition tally (stats : gmap jsstring CharStat) (stroke : FlickStroke)
  : gmap jsstring CharStat :=
  let key := default JS.undefined_key (expected stroke) in
  let old := default {| stat_correct := 0; stat_miss := 0 |} (stats !! key) in
  let new :=
    if correct stroke
    then {| stat_correct := S (stat_correct old); stat_miss := stat_miss old |}
    else {| stat_correct := stat_correct old; stat_miss := S (stat_miss old) |} in
  <[key := new]> stats.

(** [cleanup()]: the timers are DOM handles; the keyboard is dropped. *)
Definition cleanup (s : t) : t :=
  {| config := config s; generator := generator s; flickKeyboard := None;
     characters := characters s; currentIndex := currentIndex s;
     strokes := strokes s; startTime := startTime s;
     timeRemaining := timeRemaining s; isRunning := false;
     isCountdown := false; pendingBaseChar := pendingBaseChar s;
     pendingDakutenType := pendingDakutenType s;
     pendingDakutenCount := pendingDakutenCount s;
     trackEl := trackEl s; gameData := gameData s |}.

(** [endGame()]: the result handed to the result screen, and the screen
    afterwards. *)
Definition endGame (s : t) : GameResult * t :=
  let correctCount := length (filter (fun st => correct st = true) (strokes s)) in
  let missCount := length (filter (fun st => correct st = false) (strokes s)) in
  let totalCount := length (strokes s) in
  let elapsed := (Config.duration (Config.game (config s)) / 60)%float in
  let cpm := (JS.number_of_nat correctCount / elapsed)%float in
  let accuracy :=
    if decide (0 < totalCount)
    then (JS.number_of_nat correctCount / JS.number_of_nat totalCount * 100)%float
    else 0%float in
  let charStats := fold_left tally (strokes s) ∅ in
  ({| res_gameMode := gameMode (gameData s);
      res_inputMode := inputMode (gameData s);
      res_seed := seed (gameData s);
      res_cpm := cpm;
      res_accuracy := accuracy;
      res_correctCount := correctCount;
      res_missCount := missCount;
      res_charStats := charStats;
      res_strokes := strokes s |},
   cleanup s).

(** *** The states of a session *)

(** The session is under way: the countdown is over and the timer runs. *)
Definition running (s : t) : Prop :=
  isCountdown s = false /\ isRunning s = true.

(** No composition is pending. *)
Definition idle (s : t) : Prop :=
  JS.truthy (pendingBaseChar s) = false.

(** The character the cursor is on. *)
Definition expectedOf (s : t) : option jsstring :=
  JS.charAt (characters s) (currentIndex s).

(** Fuel enough for the track to be drawn after a commit. *)
Definition fuelFor (s : t) (fuel : nat) : Prop :=
  currentIndex s + Config.visibleCharsAfter (Config.ui (config s)) + 51 <= fuel.

(** [s'] is [s] but for the text and the generator behind it, and the
    text of [s] is the beginning of that of [s']. *)
Definition toppedUp (s s' : t) : Prop :=
  s' = setText (characters s') (generator s') s /\
  characters s `prefix_of` characters s' /\
  Generator.picks_nonempty weightedPick (generator s').

(** The five ways a call of the handler ends: nothing happens; a first
    press of the dakuten key is counted towards a handakuten; a base
    character opens a composition; a stroke is committed and the
    composition with its counter cleared; a plain stroke is committed. *)
Inductive Transition (s : t) (c : jsstring) : t -> Prop :=
| Ignored :
    Transition s c s
| Counted :
    JS.truthy (pendingBaseChar s) = true ->
    pendingDakutenType s = Some Handakuten ->
    pendingDakutenCount s = 0 ->
    Transition s c (setPendingCount 1 s)
| Opened (kind : DakutenType) :
    needsDakutenOf s (expectedOf s) = Some kind ->
    getBaseCharOf s (expectedOf s) = Some c ->
    Transition s c (setPendingCount 0 (setPending (Some c) (Some kind) s))
| Committed (stroke : FlickStroke) (chars : jsstring)
    (g : Generator.CharacterGenerator) :
    expected stroke = expectedOf s ->
    Transition s c
      (setText chars g
         (nextIndex (setPendingCount 0 (setPending None None (pushStroke stroke s)))))
| CommittedPlain (stroke : FlickStroke) (chars : jsstring)
    (g : Generator.CharacterGenerator) :
    needsDakutenOf s (expectedOf s) = None ->
    expected stroke = expectedOf s ->
    Transition s c
      (setText chars g (nextIndex (setPending None None (pushStroke stroke s)))).

(** A session with nothing typed and nothing pending, and the keyboard
    built over the configuration of the screen.  [render] assigns the log,
    the cursor and the keyboard but not the three pending fields: it
    leaves such a session when the screen object held no composition
    before, as on the first game. *)
Definition fresh (s : t) : Prop :=
  strokes s = [] /\ currentIndex s = 0 /\
  pendingBaseChar s = None /\ pendingDakutenType s = None /\
  pendingDakutenCount s = 0 /\
  exists kb, flickKeyboard s = Some kb /\ FlickKeyboard.config kb = config s.

(** The sessions the handler can lead to. *)
Inductive reachable : t -> Prop :=
| reachable_fresh (s : t) :
    fresh s -> reachable s
| reachable_step (fuel : nat) (s s' : t) (now : float) (c : jsstring)
    (d : FlickDirection) :
    reachable s -> handleFlickInput fuel s now c d = Some s' -> reachable s'.

(** The cursor has moved once per stroke; at most one press is counted;
    with nothing pending no kind and no press is kept; and what is
    pending is the base of the expected character, with the kind that
    character needs. *)
Definition wellFormed (s : t) : Prop :=
  currentIndex s = length (strokes s) /\
  pendingDakutenCount s <= 1 /\
  (pendingBaseChar s = None ->
   pendingDakutenType s = None /\ pendingDakutenCount s = 0) /\
  (forall b, pendingBaseChar s = Some b ->
   exists kind,
     pendingDakutenType s = Some kind /\
     needsDakutenOf s (expectedOf s) = Some kind /\
     getBaseCharOf s (expectedOf s) = Some b).

End WithRandom.
End GameScreen.

(** ** storage/localStorage.ts *)

Module Storage.

(** What [JSON.parse] makes of a stored text. *)
Inductive JsonValue :=
| JArray (records : list GameRecord)
| JOther.

(** The item kept under [STORAGE_KEY]: missing (or empty), or a text,
    stood for by what [JSON.parse] does with it ([None]: it throws).
    A list of records stands for the text [JSON.stringify] makes of it.
    It reads back as the same list when every number in it is finite and
    not negative zero; a number that is not finite is written as [null],
    and a record with a [null] where a number was is no [GameRecord].
    What is said below of which records are kept, how many and in which
    order does not depend on this; what is said of their fields does. *)
Inductive Item :=
| NoItem
| Text (parsed : option JsonValue).

(** [getAllRecords()] *)
Definition getAllRecords (item : Item) : JsonValue :=
  match item with
  | NoItem => JArray []
  | Text None => JArray []
  | Text (Some v) => v
  end.

(** [saveRecord(record)]; [writable] tells whether [setItem] goes
    through.  A value that is no array has no [push]: the call throws,
    is caught, and the item stays.  The list written is kept in the item
    as it is, see [Item]. *)
Definition saveRecord (writable : bool) (item : Item) (record : GameRecord)
  : Item :=
  match getAllRecords item with
  | JArray records =>
      let trimmed := JS.slice_last 100 (records ++ [record]) in
      if writable then Text (Some (JArray trimmed)) else item
  | JOther => item
  end.

(** A run of saves, each with its [writable] flag. *)
Definition saveAll (item : Item) (saves : list (GameRecord * bool)) : Item :=
  fold_left (fun it rw => saveRecord rw.2 it rw.1) saves item.

(** The records a store holds. *)
Definition stored (item : Item) : list GameRecord :=
  match getAllRecords item with
  | JArray records => records
  | JOther => []
  end.

End Storage.

(** ** More of engine/generator.ts: what a pick may be *)

Module Picks.
Section WithRandom.

Context {SeededRandom : Type}.
Variable weightedPick :
  SeededRandom -> list jsstring -> list float -> jsstring * SeededRandom.

(** Every pick made for the tables of [g] is one of its items, and every
    item is one UTF-16 code unit long, as the keys of the built-in weight
    tables are. *)
Definition picks_units
    (g : Generator.CharacterGenerator (SeededRandom := SeededRandom)) : Prop :=
  (forall r, (weightedPick r (Generator.characters g) (Generator.weights g)).1
             ∈ Generator.characters g) /\
  Forall (fun c => length c = 1) (Generator.characters g).

End WithRandom.
End Picks.

(** ** More of engine/flickKeyboard.ts: the two maps together *)

Module KeyboardState.

(** The two maps of the keyboard are in step over [layout]: a character
    has a key exactly when it has an index, and the index is the place
    of that key in the layout. *)
Definition inStep (layout : list FlickKey.t) (m : FlickKeyboard.KeyMap * FlickKeyboard.IndexMap) : Prop :=
  forall ch : jsstring,
    match m.1 !! ch, m.2 !! ch with
    | Some key, Some i => layout !! i = Some key
    | None, None => True
    | _, _ => False
    end.

(** The maps of a keyboard are in step over its own layout. *)
Definition wellBuilt (kb : FlickKeyboard.t) : Prop :=
  inStep (FlickKeyboard.getLayout kb)
         (FlickKeyboard.charToKey kb, FlickKeyboard.charToKeyIndex kb).

End KeyboardState.

(** ** More of screens/game.ts: what the screen shows *)

(** The key [highlightNextKey] marks: its [data-key-index], the direction
    written to [data-next-direction], and whether the class
    [dakuten-pending] is set. *)
Record Highlight := {
  hl_keyIndex : Z;
  hl_direction : FlickDirection;
  hl_dakutenPending : bool
}.

(** What a call of [highlightNextKey] leaves on the keys: the marks as
    they were, no mark, or the one key marked. *)
Inductive Marks :=
| Untouched
| Cleared
| Marked (h : Highlight).

Module GameView.
Section WithRandom.

Context {SeededRandom : Type}.

Local Abbreviation t := (GameScreen.t (SeededRandom := SeededRandom)).

(** [keyboardEl.querySelector('[data-key-index=...]')]: [renderKeyboard]
    draws one element per key of the layout, so the element is found when
    the index is one of the layout. *)
Definition keyElFound (kb : FlickKeyboard.t) (idx : Z) : bool :=
  bool_decide (0 <= idx < Z.of_nat (length (FlickKeyboard.getLayout kb)))%Z.

(** [highlightNextKey()], for what it does to the marks on the keys.
    [keyboardEl] tells whether the keyboard element exists and
    [showKeyHighlight] is the user's setting.  Without the element or
    without a keyboard the call returns at once and the marks stay as
    they are; otherwise the marks of earlier calls are removed first. *)
Definition highlightNextKey (keyboardEl showKeyHighlight : bool) (s : t)
  : Marks :=
  match GameScreen.flickKeyboard s with
  | None => Untouched
  | Some kb =>
      if negb keyboardEl then Untouched
      else if negb showKeyHighlight then Cleared
      else if JS.truthy (GameScreen.pendingBaseChar s)
              && bool_decide (is_Some (GameScreen.pendingDakutenType s))
      then
        let dakutenKeyIndex := FlickKeyboard.getKeyIndexForChar kb Kana.dakutenKey in
        if bool_decide (0 <= dakutenKeyIndex)%Z && keyElFound kb dakutenKeyIndex
        then Marked {| hl_keyIndex := dakutenKeyIndex; hl_direction := Center;
                       hl_dakutenPending := true |}
        else Cleared
      else
        let nextChar := JS.charAt (GameScreen.characters s) (GameScreen.currentIndex s) in
        let nextKey := nextChar ≫= FlickKeyboard.getKeyForChar kb in
        let nextDirection := nextChar ≫= FlickKeyboard.getDirectionForChar kb in
        let nextDirection :=
          match nextChar ≫= FlickKeyboard.needsDakuten kb with
          | Some _ =>
              let baseChar := nextChar ≫= FlickKeyboard.getBaseChar kb in
              match baseChar with
              | Some (u :: us) => FlickKeyboard.getDirectionForChar kb (u :: us)
              | _ => nextDirection
              end
          | None => nextDirection
          end in
        match nextKey, nextDirection, nextChar with
        | Some _, Some d, Some c =>
            let keyIndex := FlickKeyboard.getKeyIndexForChar kb c in
            if bool_decide (0 <= keyIndex)%Z && keyElFound kb keyIndex
            then Marked {| hl_keyIndex := keyIndex; hl_direction := d;
                           hl_dakutenPending := false |}
            else Cleared
        | _, _, _ => Cleared
        end
  end.

(** The character whose direction [highlightNextKey] shows for the
    expected character [e]: its base when [e] needs a diacritic and the
    base is not empty, and [e] itself otherwise (lines 402-409). *)
Definition firstPress (kb : FlickKeyboard.t) (e : jsstring) : jsstring :=
  match FlickKeyboard.needsDakuten kb e, FlickKeyboard.getBaseChar kb e with
  | Some _, Some (u :: us) => u :: us
  | _, _ => e
  end.

(** The stroke [renderTrack] colours position [i] of the track with, for
    a position before the cursor:
    [this.strokes[i - (this.currentIndex - this.strokes.length)]]. *)
Definition strokeFor (s : t) (i : nat) : option FlickStroke :=
  let strokeIndex :=
    (Z.of_nat i - (Z.of_nat (GameScreen.currentIndex s)
                   - Z.of_nat (length (GameScreen.strokes s))))%Z in
  if bool_decide (0 <= strokeIndex)%Z
  then GameScreen.strokes s !! Z.to_nat strokeIndex
  else None.

(** The two numbers [updateStats()] computes at time [now], before they
    are rounded for display: the speed and the accuracy so far. *)
Definition updateStats (s : t) (now : float) : float * float :=
  let elapsed := ((now - GameScreen.startTime s) / 1000 / 60)%float in
  let correctCount :=
    length (filter (fun st => correct st = true) (GameScreen.strokes s)) in
  let totalCount := length (GameScreen.strokes s) in
  let cpm :=
    if (0 <? elapsed)%float
    then (JS.number_of_nat correctCount / elapsed)%float
    else 0%float in
  let accuracy :=
    if decide (0 < totalCount)
    then (JS.number_of_nat correctCount / JS.number_of_nat totalCount * 100)%float
    else 100%float in
  (cpm, accuracy).

End WithRandom.
End GameView.

(** ** Sessions from any start *)

Module Session.
Section WithRandom.

Context {SeededRandom : Type}.
Variable weightedPick :
  SeededRandom -> list jsstring -> list float -> jsstring * SeededRandom.

Local Abbreviation t := (GameScreen.t (SeededRandom := SeededRandom)).

(** The sessions that calls of the handler lead to from [s0]. *)
Inductive reachableFrom (s0 : t) : t -> Prop :=
| reached_start : reachableFrom s0 s0
| reached_step (fuel : nat) (s s' : t) (now : float) (c : jsstring)
    (d : FlickDirection) :
    reachableFrom s0 s ->
    GameScreen.handleFlickInput weightedPick fuel s now c d = Some s' ->
    reachableFrom s0 s'.

(** With a track element, the cursor is on a character of the text, as
    it is once [render] has made the first hundred characters. *)
Definition textReady (s : t) : Prop :=
  GameScreen.trackEl s = true ->
  GameScreen.currentIndex s < length (GameScreen.characters s).

(** What no input changes: the configuration, the keyboard, the start
    time and the two run flags; and the text only grows at its end. *)
Definition framed (s s' : t) : Prop :=
  GameScreen.config s' = GameScreen.config s /\
  GameScreen.flickKeyboard s' = GameScreen.flickKeyboard s /\
  GameScreen.startTime s' = GameScreen.startTime s /\
  GameScreen.isRunning s' = GameScreen.isRunning s /\
  GameScreen.isCountdown s' = GameScreen.isCountdown s /\
  GameScreen.trackEl s' = GameScreen.trackEl s /\
  GameScreen.characters s `prefix_of` GameScreen.characters s'.

(** The log, the cursor and the text are as before. *)
Definition kept (s s' : t) : Prop :=
  GameScreen.strokes s' = GameScreen.strokes s /\
  GameScreen.currentIndex s' = GameScreen.currentIndex s /\
  GameScreen.characters s' = GameScreen.characters s.

(** One stroke was appended for the input made at [now] in direction
    [d]: it is for the character the cursor was on, the cursor is one
    further, and nothing is pending. *)
Definition appendedOne (s : t) (now : float) (d : FlickDirection) (s' : t)
  : Prop :=
  exists st,
    GameScreen.strokes s' = GameScreen.strokes s ++ [st] /\
    GameScreen.currentIndex s' = S (GameScreen.currentIndex s) /\
    expected st = GameScreen.expectedOf s /\
    timestamp st = (now - GameScreen.startTime s)%float /\
    flickDirection st = d /\
    GameScreen.pendingBaseChar s' = None /\
    GameScreen.pendingDakutenType s' = None.

(** The log lines up with the text, one stroke per position. *)
Definition linedUp (s : t) : Prop :=
  forall i st,
    GameScreen.strokes s !! i = Some st ->
    expected st = JS.charAt (GameScreen.characters s) i.

End WithRandom.

(** The diacritic key that completes a composition of a kind, and the
    table the completion looks the base up in (game.ts, line 272). *)
Definition markKey (kind : DakutenType) : jsstring :=
  match kind with
  | Dakuten => Kana.dakutenKey
  | Handakuten => Kana.handakutenKey
  end.

Definition tableOf (kind : DakutenType) (config : Config.t)
  : JS.object jsstring :=
  match kind with
  | Dakuten => Config.dakutenMap config
  | Handakuten => Config.handakutenMap config
  end.

(** The key of [charStats] a stroke is counted under. *)
Definition keyOf (stroke : FlickStroke) : jsstring :=
  default JS.undefined_key (expected stroke).

(** The correct strokes, and the misses, of a log for one key. *)
Definition hits (key : jsstring) (log : list FlickStroke) : nat :=
  length (List.filter
            (fun st => bool_decide (keyOf st = key) && correct st) log).

Definition misses (key : jsstring) (log : list FlickStroke) : nat :=
  length (List.filter
            (fun st => bool_decide (keyOf st = key) && negb (correct st)) log).

End Session.

(** ** More of screens/game.ts: the start of a game *)

Module GameStart.
Section WithRandom.

Context {SeededRandom : Type}.
Variable newSeededRandom : float -> SeededRandom.
Variable weightedPick :
  SeededRandom -> list jsstring -> list float -> jsstring * SeededRandom.

Local Abbreviation t := (GameScreen.t (SeededRandom := SeededRandom)).

(** [startCountdown()], for the flag it sets; the counter and the
    interval timer are handles of the page. *)
Definition startCountdown (s : t) : t :=
  {| GameScreen.config := GameScreen.config s;
     GameScreen.generator := GameScreen.generator s;
     GameScreen.flickKeyboard := GameScreen.flickKeyboard s;
     GameScreen.characters := GameScreen.characters s;
     GameScreen.currentIndex := GameScreen.currentIndex s;
     GameScreen.strokes := GameScreen.strokes s;
     GameScreen.startTime := GameScreen.startTime s;
     GameScreen.timeRemaining := GameScreen.timeRemaining s;
     GameScreen.isRunning := GameScreen.isRunning s;
     GameScreen.isCountdown := true;
     GameScreen.pendingBaseChar := GameScreen.pendingBaseChar s;
     GameScreen.pendingDakutenType := GameScreen.pendingDakutenType s;
     GameScreen.pendingDakutenCount := GameScreen.pendingDakutenCount s;
     GameScreen.trackEl := GameScreen.trackEl s;
     GameScreen.gameData := GameScreen.gameData s |}.

(** The last tick of the countdown (lines 449-454) followed by
    [startGame()]; [now] is what [Date.now()] gives. *)
Definition startGame (s : t) (now : float) : t :=
  {| GameScreen.config := GameScreen.config s;
     GameScreen.generator := GameScreen.generator s;
     GameScreen.flickKeyboard := GameScreen.flickKeyboard s;
     GameScreen.characters := GameScreen.characters s;
     GameScreen.currentIndex := GameScreen.currentIndex s;
     GameScreen.strokes := GameScreen.strokes s;
     GameScreen.startTime := now;
     GameScreen.timeRemaining :=
       Config.duration (Config.game (GameScreen.config s));
     GameScreen.isRunning := true;
     GameScreen.isCountdown := false;
     GameScreen.pendingBaseChar := GameScreen.pendingBaseChar s;
     GameScreen.pendingDakutenType := GameScreen.pendingDakutenType s;
     GameScreen.pendingDakutenCount := GameScreen.pendingDakutenCount s;
     GameScreen.trackEl := GameScreen.trackEl s;
     GameScreen.gameData := GameScreen.gameData s |}.

(** [render(container, data)] called with game data on the screen object
    as it stands, [prev]: [main.ts] registers one [GameScreen] object, and
    the fields [render] does not assign keep the values an earlier game
    left.  The page is written first, so the track element is found.
    [fuel] bounds the loops of [generate] and of [renderTrack]. *)
Definition render (fuel : nat) (prev : t) (data : GameData) : option t :=
  let g := Generator.new newSeededRandom (seed data) (GameScreen.config prev)
             (inputMode data) in
  let kb := FlickKeyboard.setOnInput
              (FlickKeyboard.new (GameScreen.config prev) (inputMode data)) in
  match Generator.generate weightedPick fuel g 100 with
  | None => None
  | Some (chars, g') =>
      startCountdown <$>
        GameScreen.renderTrack weightedPick fuel
          {| GameScreen.config := GameScreen.config prev;
             GameScreen.generator := g';
             GameScreen.flickKeyboard := Some kb;
             GameScreen.characters := chars;
             GameScreen.currentIndex := 0;
             GameScreen.strokes := [];
             GameScreen.startTime := GameScreen.startTime prev;
             GameScreen.timeRemaining := GameScreen.timeRemaining prev;
             GameScreen.isRunning := GameScreen.isRunning prev;
             GameScreen.isCountdown := GameScreen.isCountdown prev;
             GameScreen.pendingBaseChar := GameScreen.pendingBaseChar prev;
             GameScreen.pendingDakutenType := GameScreen.pendingDakutenType prev;
             GameScreen.pendingDakutenCount := GameScreen.pendingDakutenCount prev;
             GameScreen.trackEl := true;
             GameScreen.gameData := data |}
  end.

(** Fuel enough for [render]: for the first hundred characters and for
    the track drawn after them. *)
Definition fuelForRender (prev : t) (fuel : nat) : Prop :=
  100 <= fuel /\
  Config.visibleCharsAfter (Config.ui (GameScreen.config prev)) + 51 <= fuel.

End WithRandom.
End GameStart.

(** ** More of storage/localStorage.ts: the queries *)

#[global] Instance GameMode_eq_dec : EqDecision GameMode.
Proof. solve_decision. Defined.

#[global] Instance InputMode_eq_dec : EqDecision InputMode.
Proof. solve_decision. Defined.

(** What a call comes to: a value, or a [TypeError] thrown and not
    caught. *)
Inductive Outcome (A : Type) :=
| Returned (a : A)
| Thrown.

Arguments Returned {A} a.
Arguments Thrown {A}.

Module Queries.

(** [getAllRecords().filter(keep)]: a stored value that is no array has
    no [filter], and none of the queries catches the error. *)
Definition filterRecords (item : Storage.Item) (keep : GameRecord -> bool)
  : Outcome (list GameRecord) :=
  match Storage.getAllRecords item with
  | Storage.JArray records => Returned (List.filter keep records)
  | Storage.JOther => Thrown
  end.

(** The callback of the three [reduce] calls:
    [current.cpm > best.cpm ? current : best]. *)
Definition better (best current : GameRecord) : GameRecord :=
  if (rec_cpm best <? rec_cpm current)%float then current else best.

(** [if (records.length === 0) return null; return records.reduce(...)],
    the reduction starting from the first record. *)
Definition bestOf (records : list GameRecord) : option GameRecord :=
  match records with
  | [] => None
  | first :: rest => Some (fold_left better rest first)
  end.

Definition highScore (item : Storage.Item) (keep : GameRecord -> bool)
  : Outcome (option GameRecord) :=
  match filterRecords item keep with
  | Returned records => Returned (bestOf records)
  | Thrown => Thrown
  end.

(** [o] is a best record among those of [records] that [P] holds of:
    none when there is none, and otherwise one of them that none of them
    has a greater speed than. *)
Definition bestAmong (P : GameRecord -> Prop) (records : list GameRecord)
    (o : option GameRecord) : Prop :=
  match o with
  | None => forall r, r ∈ records -> ~ P r
  | Some best =>
      best ∈ records /\ P best /\
      forall r, r ∈ records -> P r ->
        (rec_cpm best <? rec_cpm r)%float = false
  end.

(** [getDailyHighScore(inputMode)] *)
Definition getDailyHighScore (item : Storage.Item) (mode : InputMode)
  : Outcome (option GameRecord) :=
  highScore item (fun r =>
    bool_decide (rec_gameMode r = Daily) && bool_decide (rec_inputMode r = mode)).

(** [getPracticeHighScore(inputMode)] *)
Definition getPracticeHighScore (item : Storage.Item) (mode : InputMode)
  : Outcome (option GameRecord) :=
  highScore item (fun r =>
    bool_decide (rec_gameMode r = Practice) && bool_decide (rec_inputMode r = mode)).

(** [date.startsWith(today)] *)
Definition startsWith (s start : jsstring) : bool :=
  bool_decide (start `prefix_of` s).

(** [getTodayDailyRecord(inputMode)]; [today] is the date part of
    [new Date().toISOString()]. *)
Definition getTodayDailyRecord (item : Storage.Item) (today : jsstring)
    (mode : InputMode) : Outcome (option GameRecord) :=
  highScore item (fun r =>
    bool_decide (rec_gameMode r = Daily) && bool_decide (rec_inputMode r = mode)
    && startsWith (rec_date r) today).

(** [xs.slice(-count)] for a count that is a natural number: [-0] is
    [0], and [slice(0)] is the whole array. *)
Definition sliceFromEnd {A} (count : nat) (xs : list A) : list A :=
  match count with
  | O => xs
  | S _ => JS.slice_last count xs
  end.

(** [getRecentScores(inputMode, count)] *)
Definition getRecentScores (item : Storage.Item) (mode : InputMode)
    (count : nat) : Outcome (list GameRecord) :=
  match filterRecords item (fun r => bool_decide (rec_inputMode r = mode)) with
  | Returned records => Returned (sliceFromEnd count records)
  | Thrown => Thrown
  end.

End Queries.

(** ** screens/result.ts: the rank *)

Inductive Rank := RankS | RankA | RankB | RankC | RankD.

Module Result.

(** [calculateRank(cpm, config)] *)
Definition calculateRank (cpm : float) (config : Config.t) : Rank :=
  let ranking := Config.ranking config in
  if (Config.rank_S ranking <=? cpm)%float then RankS
  else if (Config.rank_A ranking <=? cpm)%float then RankA
  else if (Config.rank_B ranking <=? cpm)%float then RankB
  else if (Config.rank_C ranking <=? cpm)%float then RankC
  else RankD.

(** The place of a rank, the best first. *)
Definition place (r : Rank) : nat :=
  match r with
  | RankS => 0 | RankA => 1 | RankB => 2 | RankC => 3 | RankD => 4
  end.

(** The record [render] saves for a result: the fields of the result,
    with the identifier and the date made for it. *)
Definition toRecord (id date : jsstring) (r : GameResult) : GameRecord :=
  {| rec_id := id; rec_gameMode := res_gameMode r;
     rec_inputMode := res_inputMode r; rec_seed := res_seed r;
     rec_date := date; rec_cpm := res_cpm r; rec_accuracy := res_accuracy r;
     rec_correctCount := res_correctCount r; rec_missCount := res_missCount r;
     rec_charStats := res_charStats r; rec_strokes := res_strokes r |}.

(** [const totalChars = this.result.correctCount + this.result.missCount] *)
Definition totalChars (r : GameResult) : nat :=
  res_correctCount r + res_missCount r.

End Result.

(** ** What a record is after it was written and read *)

Module Json.

(** [JSON.parse(JSON.stringify(x))] for a number [x]: a finite number
    comes back as it is, negative zero as zero, and a number that is not
    finite as [null], here [None]. *)
Definition number (x : float) : option float :=
  if PrimFloat.is_finite x
  then Some (if PrimFloat.is_zero x then 0%float else x)
  else None.

(** The same for a stroke and for a record, [None] when a number of it
    comes back as [null].  Strings, booleans and counts come back as they
    are, and a field that is [undefined] is left out and read as
    [undefined] again. *)
Definition stroke (st : FlickStroke) : option FlickStroke :=
  t ← number (timestamp st);
  Some {| input := input st; expected := expected st; correct := correct st;
          timestamp := t; flickDirection := flickDirection st |}.

Definition record (r : GameRecord) : option GameRecord :=
  seed ← number (rec_seed r);
  cpm ← number (rec_cpm r);
  accuracy ← number (rec_accuracy r);
  strokes ← mapM stroke (rec_strokes r);
  Some {| rec_id := rec_id r; rec_gameMode := rec_gameMode r;
          rec_inputMode := rec_inputMode r; rec_seed := seed;
          rec_date := rec_date r; rec_cpm := cpm; rec_accuracy := accuracy;
          rec_correctCount := rec_correctCount r;
          rec_missCount := rec_missCount r;
          rec_charStats := rec_charStats r; rec_strokes := strokes |}.

(** A list of records: [JSON.parse(JSON.stringify(records))]. *)
Definition records (l : list GameRecord) : option (list GameRecord) :=
  mapM record l.

End Json.

(** ** screens/history.ts: the figures of the history screen *)

Module History.

Record Figures := {
  records : list GameRecord;          (* of the input mode shown *)
  recentRecords : list GameRecord;
  dailyRecords : list GameRecord;
  practiceRecords : list GameRecord;
  chartData : list GameRecord
}.

(** The lists [render] computes from the store before it draws; the
    store read with [getAllRecords] and filtered without a guard. *)
Definition figures (item : Storage.Item) (currentInputMode : InputMode)
  : Outcome Figures :=
  match Queries.filterRecords item
          (fun r => bool_decide (rec_inputMode r = currentInputMode)) with
  | Thrown => Thrown
  | Returned records =>
      Returned
        {| records := records;
           recentRecords := reverse (JS.slice_last 10 records);
           dailyRecords :=
             List.filter (fun r => bool_decide (rec_gameMode r = Daily)) records;
           practiceRecords :=
             List.filter (fun r => bool_decide (rec_gameMode r = Practice)) records;
           chartData := JS.slice_last 20 records |}
  end.

End History.

(** ** Sample data

    A deterministic picker to run the generator with, and sample screens.
    The picker is a linear congruential counter started from the mantissa
    of the seed; a pick is the item at the counter modulo the number of
    items, whatever the weights. *)

Module Sample.
Import Kana.

Definition newCounter (seed : float) : N :=
  Z.to_N (Uint63.to_Z (PrimFloat.normfr_mantissa (PrimFloat.frshiftexp seed).1)).

Definition pick (r : N) (items : list jsstring) (ws : list float)
  : jsstring * N :=
  (default k_a (items !! N.to_nat (r mod N.of_nat (length items))),
   (r * 1103515245 + 12345) mod 2147483648)%N.

Definition generator (mode : InputMode) : Generator.CharacterGenerator :=
  Generator.new newCounter 20260101 DefaultConfig.getDefaultConfig mode.

Definition keyboard : FlickKeyboard.t :=
  FlickKeyboard.setOnInput
    (FlickKeyboard.new DefaultConfig.getDefaultConfig Hiragana).

(** A hiragana session under way over the text [chars], the cursor at
    [i], with nothing typed yet. *)
Definition screen (chars : jsstring) (i : nat) : GameScreen.t :=
  {| GameScreen.config := DefaultConfig.getDefaultConfig;
     GameScreen.generator := generator Hiragana;
     GameScreen.flickKeyboard := Some keyboard;
     GameScreen.characters := chars;
     GameScreen.currentIndex := i;
     GameScreen.strokes := [];
     GameScreen.startTime := 1000;
     GameScreen.timeRemaining := 60;
     GameScreen.isRunning := true;
     GameScreen.isCountdown := false;
     GameScreen.pendingBaseChar := None;
     GameScreen.pendingDakutenType := None;
     GameScreen.pendingDakutenCount := 0;
     GameScreen.trackEl := true;
     GameScreen.gameData :=
       {| gameMode := Daily; inputMode := Hiragana; seed := 20260101 |} |}.

(** The same with a composition pending. *)
Definition pendingScreen (chars : jsstring) (i : nat) (base : jsstring)
    (kind : DakutenType) (count : nat) : GameScreen.t :=
  GameScreen.setPendingCount count
    (GameScreen.setPending (Some base) (Some kind) (screen chars i)).

(** The inputs of a list delivered one after the other, a second apart. *)
Fixpoint play (s : GameScreen.t (SeededRandom := N)) (now : float)
    (inputs : list (jsstring * FlickDirection))
  : option (GameScreen.t (SeededRandom := N)) :=
  match inputs with
  | [] => Some s
  | (c, d) :: rest =>
      match GameScreen.handleFlickInput pick 200 s now c d with
      | Some s' => play s' (now + 1000)%float rest
      | None => None
      end
  end.

(** What the scenarios below look at: the log, the cursor, and the
    pending base character. *)
Definition outcome (s : GameScreen.t (SeededRandom := N))
  : list FlickStroke * nat * option jsstring :=
  (GameScreen.strokes s, GameScreen.currentIndex s, GameScreen.pendingBaseChar s).

(** The session over the text [chars] after the inputs of a list. *)
Definition typed (chars : jsstring) (inputs : list (jsstring * FlickDirection))
  : GameScreen.t (SeededRandom := N) :=
  default (screen chars 0) (play (screen chars 0) 2000 inputs).

(** The result of a session of one correct stroke, and the record the
    result screen makes of it. *)
Definition result : GameResult :=
  (GameScreen.endGame (typed k_a [(k_a, Center)])).1.

Definition record : GameRecord := Result.toRecord k_i k_u result.

(** The first game of a practice session in hiragana: what [render]
    leaves on the screen object, and the session a second after the
    countdown has ended, after the inputs of a list. *)
Definition gameData : GameData :=
  {| gameMode := Practice; inputMode := Hiragana; seed := 20260101 |}.



End Sample.

(** * Properties *)

(** ** The generator is a function of its seed *)

Module GeneratorFacts.
Import Generator.
Section WithRandom.

Context {SeededRandom : Type}.
Variable newSeededRandom : float -> SeededRandom.
Variable weightedPick :
  SeededRandom -> list jsstring -> list float -> jsstring * SeededRandom.

Local Abbreviation generateSingleChar := (generateSingleChar weightedPick).
Local Abbreviation generate_loop := (generate_loop weightedPick).
Local Abbreviation generate := (generate weightedPick).
Local Abbreviation picks_nonempty := (picks_nonempty weightedPick).

Lemma generateSingleChar_tables g :
  characters (generateSingleChar g).2 = characters g /\
  weights (generateSingleChar g).2 = weights g.
Proof.
unfold generateSingleChar.
destruct (weightedPick _ _ _); done.
Qed.

Lemma picks_nonempty_step g :
  picks_nonempty g -> picks_nonempty (generateSingleChar g).2.
Proof.
intros H r. destruct (generateSingleChar_tables g) as [-> ->]. apply H.
Qed.

Lemma generateSingleChar_nonempty g :
  picks_nonempty g -> 1 <= length (generateSingleChar g).1.
Proof.
intros H. unfold generateSingleChar. specialize (H (random g)).
destruct (weightedPick _ _ _) as [c r]; simpl in *.
destruct c; simpl; [done | lia].
Qed.

(** The loop only appends and keeps the tables. *)
Lemma generate_loop_extends fuel : forall g result len out g',
  generate_loop fuel g result len = Some (out, g') ->
  result `prefix_of` out /\ len <= length out /\
  characters g' = characters g /\ weights g' = weights g.
Proof.
induction fuel as [|fuel IH]; intros g result len out g' H; simpl in H.
- destruct (decide _); [done|]. simplify_eq. split; [done|]. split; [lia|done].
- destruct (decide _).
  + destruct (generateSingleChar g) as [c g1] eqn:E.
    apply IH in H as (Hp & Hl & Hc & Hw).
    pose proof (generateSingleChar_tables g) as [Hc1 Hw1].
    rewrite E in Hc1, Hw1; simpl in *.
    split; [|split; [done|split; congruence]].
    etrans; [|exact Hp]. by apply prefix_app_r.
  + simplify_eq. split; [done|]. split; [lia|done].
Qed.

(** With non-empty picks, [len - length result] turns are enough. *)
Lemma generate_loop_terminates fuel : forall g result len,
  picks_nonempty g ->
  len - length result <= fuel ->
  is_Some (generate_loop fuel g result len).
Proof.
induction fuel as [|fuel IH]; intros g result len Hp Hf; simpl.
- destruct (decide _); [lia | by eexists].
- destruct (decide _); [| by eexists].
  pose proof (generateSingleChar_nonempty g Hp) as Hn.
  pose proof (picks_nonempty_step g Hp) as Hp'.
  destruct (generateSingleChar g) as [c g1]; simpl in *.
  apply IH; [done|]. rewrite length_app. lia.
Qed.

(** More fuel never changes a result. *)
Lemma generate_loop_fuel_mono fuel : forall fuel' g result len r,
  generate_loop fuel g result len = Some r ->
  fuel <= fuel' ->
  generate_loop fuel' g result len = Some r.
Proof.
induction fuel as [|fuel IH]; intros fuel' g result len r H Hle; simpl in H.
- destruct (decide _) as [Hlt|Hlt]; [done|].
  destruct fuel'; simpl; by rewrite decide_False.
- destruct (decide _) as [Hlt|Hlt].
  + destruct fuel' as [|fuel']; [lia|]. simpl. rewrite decide_True by done.
    destruct (generateSingleChar g) as [c g1].
    eapply IH; [done | lia].
  + destruct fuel'; simpl; by rewrite decide_False.
Qed.

(** Two runs of the loop from one state, for lengths [n <= m]: the
  shorter output is a prefix of the longer. *)
Lemma generate_loop_prefix fuel : forall fuel' g result n m out_n g_n out_m g_m,
  n <= m ->
  generate_loop fuel g result n = Some (out_n, g_n) ->
  generate_loop fuel' g result m = Some (out_m, g_m) ->
  out_n `prefix_of` out_m.
Proof.
induction fuel as [|fuel IH];
  intros fuel' g result n m out_n g_n out_m g_m Hnm Hn Hm; simpl in Hn.
- destruct (decide _); [done|]. simplify_eq.
  by apply generate_loop_extends in Hm as [? _].
- destruct (decide (length result < n)) as [Hlt|Hlt].
  + destruct fuel' as [|fuel']; simpl in Hm.
    * rewrite decide_True in Hm by lia. done.
    * rewrite decide_True in Hm by lia.
      destruct (generateSingleChar g) as [c g1].
      eapply IH; [exact Hnm | exact Hn | exact Hm].
  + simplify_eq. by apply generate_loop_extends in Hm as [? _].
Qed.

(** Agreement of a prefix with a longer list on its first [k] elements. *)
Lemma prefix_take_agree (k : nat) (short long : jsstring) :
  short `prefix_of` long -> k <= length short ->
  take k short = take k long.
Proof.
intros [rest ->] Hk. by rewrite take_app_le.
Qed.

(** C3. Two generators made afresh from one seed, one asked for [n]
    characters and one for [m], both answer, with at least the length asked
    for, and their answers are the same character for character over the
    first [min n m] positions.  The picks are assumed to be non-empty
    strings, so that the loop of [generate] comes to its end; [n] and [m]
    turns are then enough, and more fuel gives the same answers. *)
Theorem generate_same_seed_agree (seed : float) (config : Config.t)
    (mode : InputMode) (n m : nat) :
  picks_nonempty (new newSeededRandom seed config mode) ->
  exists out_n g_n out_m g_m,
    (forall fuel, n <= fuel ->
       generate fuel (new newSeededRandom seed config mode) n = Some (out_n, g_n)) /\
    (forall fuel, m <= fuel ->
       generate fuel (new newSeededRandom seed config mode) m = Some (out_m, g_m)) /\
    n <= length out_n /\ m <= length out_m /\
    take (n `min` m) out_n = take (n `min` m) out_m /\
    (forall i, i < n `min` m -> out_n !! i = out_m !! i).
Proof.
intros Hp. set (g := new newSeededRandom seed config mode) in *.
destruct (generate_loop_terminates n g [] n Hp) as [[out_n g_n] Hn]; [simpl; lia|].
destruct (generate_loop_terminates m g [] m Hp) as [[out_m g_m] Hm]; [simpl; lia|].
exists out_n, g_n, out_m, g_m.
pose proof (generate_loop_extends _ _ _ _ _ _ Hn) as (_ & Hln & _).
pose proof (generate_loop_extends _ _ _ _ _ _ Hm) as (_ & Hlm & _).
assert (Htake : take (n `min` m) out_n = take (n `min` m) out_m).
{ destruct (decide (n <= m)) as [Hle|Hle].
  - apply prefix_take_agree; [|lia].
    by eapply generate_loop_prefix.
  - symmetry. apply prefix_take_agree; [|lia].
    eapply generate_loop_prefix; [|exact Hm|exact Hn]. lia. }
split; [intros fuel Hf; by eapply generate_loop_fuel_mono|].
split; [intros fuel Hf; by eapply generate_loop_fuel_mono|].
split; [done|]. split; [done|]. split; [done|].
intros i Hi.
rewrite <- (lookup_take_lt out_n (n `min` m) i) by done.
rewrite <- (lookup_take_lt out_m (n `min` m) i) by done.
by rewrite Htake.
Qed.

End WithRandom.
End GeneratorFacts.

(** The sample picker only ever returns an item of a list of non-empty
    strings, or its non-empty default. *)
Lemma samplePick_nonempty (r : N) (items : list jsstring) (ws : list float) :
  Forall (fun x => x <> []) items -> (Sample.pick r items ws).1 <> [].
Proof.
intros Hall. unfold Sample.pick; simpl.
destruct (items !! _) as [x|] eqn:E; simpl.
- eapply Forall_lookup_1 in Hall; eauto.
- discriminate.
Qed.

Lemma sample_picks_nonempty (mode : InputMode) :
  Generator.picks_nonempty Sample.pick (Sample.generator mode).
Proof.
intros r. apply samplePick_nonempty.
destruct mode; vm_compute; repeat constructor; discriminate.
Qed.

Lemma generate_same_seed_agree_witness :
  Generator.picks_nonempty Sample.pick (Sample.generator Hiragana) /\
  exists out_n g_n out_m g_m,
    (forall fuel, 3 <= fuel ->
       Generator.generate Sample.pick fuel (Sample.generator Hiragana) 3
       = Some (out_n, g_n)) /\
    (forall fuel, 5 <= fuel ->
       Generator.generate Sample.pick fuel (Sample.generator Hiragana) 5
       = Some (out_m, g_m)) /\
    3 <= length out_n /\ 5 <= length out_m /\
    take (3 `min` 5) out_n = take (3 `min` 5) out_m /\
    (forall i, i < 3 `min` 5 -> out_n !! i = out_m !! i).
Proof.
split; [exact (sample_picks_nonempty Hiragana)|].
exact (GeneratorFacts.generate_same_seed_agree Sample.newCounter Sample.pick
         20260101 DefaultConfig.getDefaultConfig Hiragana 3 5
         (sample_picks_nonempty Hiragana)).
Defined.

(** ** The character index and the direction of a drag *)

Module KeyboardFacts.
Import FlickKeyboard.

Lemma lookup_registerChar (c ch : jsstring) (key : FlickKey.t) (i : nat) (m : KeyMap * IndexMap) :
  (registerChar c key i m).1 !! ch = (if decide (c = ch) then Some key else m.1 !! ch) /\
  (registerChar c key i m).2 !! ch = (if decide (c = ch) then Some i else m.2 !! ch).
Proof.
unfold registerChar; simpl. by rewrite !lookup_insert.
Qed.

Lemma lookup_registerSlot (slot : option jsstring) (ch : jsstring)
    (key : FlickKey.t) (i : nat)
    (m : KeyMap * IndexMap) :
  ch <> [] ->
  (registerSlot slot key i m).1 !! ch
    = (if decide (slot = Some ch) then Some key else m.1 !! ch) /\
  (registerSlot slot key i m).2 !! ch
    = (if decide (slot = Some ch) then Some i else m.2 !! ch).
Proof.
intros Hne. unfold registerSlot.
destruct slot as [[|c s]|].
- rewrite !decide_False; [done| |]; congruence.
- destruct (lookup_registerChar (c :: s) ch key i m) as [-> ->].
  destruct (decide (c :: s = ch)) as [->|Hn].
  + by rewrite !decide_True.
  + rewrite !decide_False; [done| |]; congruence.
- by rewrite !decide_False.
Qed.

(** After the turn of the loop for [key], a character the key holds is
    filed under that key and its index; any other keeps its entry. *)
Lemma lookup_registerKey (ch : jsstring) (key : FlickKey.t) (i : nat) (m : KeyMap * IndexMap) :
  ch <> [] ->
  (registerKey key i m).1 !! ch
    = (if decide (holds key ch) then Some key else m.1 !! ch) /\
  (registerKey key i m).2 !! ch
    = (if decide (holds key ch) then Some i else m.2 !! ch).
Proof.
intros Hne. unfold registerKey.
repeat match goal with
| |- context [registerSlot ?s key i ?m] =>
    destruct (lookup_registerSlot s ch key i m Hne) as [-> ->]
end.
destruct (lookup_registerChar (FlickKey.center key) ch key i m) as [-> ->].
destruct (decide (holds key ch)) as [[d Hd]|Hn].
- destruct d; simpl in Hd; simplify_eq;
    repeat (case_decide; try done).
- assert (forall d, FlickKey.slot key d <> Some ch) as Hd
    by (intros d Hd; apply Hn; by exists d).
  pose proof (Hd Center) as Hc; pose proof (Hd Up); pose proof (Hd Down);
  pose proof (Hd Left); pose proof (Hd Right); simpl in *.
  rewrite !decide_False; [done|congruence..].
Qed.

Lemma lookup_registerLayout_other (ch : jsstring) (layout : list FlickKey.t) :
  forall (i : nat) (m : KeyMap * IndexMap),
  ch <> [] ->
  Forall (fun key => ~ holds key ch) layout ->
  (registerLayout i layout m).1 !! ch = m.1 !! ch /\
  (registerLayout i layout m).2 !! ch = m.2 !! ch.
Proof.
induction layout as [|key rest IH]; intros i m Hne Hall; simpl; [done|].
apply Forall_cons in Hall as [Hk Hrest].
destruct (IH (S i) (registerKey key i m) Hne Hrest) as [-> ->].
destruct (lookup_registerKey ch key i m Hne) as [-> ->].
by rewrite !decide_False.
Qed.

(** The loop over the layout files a character held by one key only
    under that key and its position. *)
Lemma lookup_registerLayout_unique (ch : jsstring) (layout : list FlickKey.t) :
  forall (i j : nat) (key : FlickKey.t) (m : KeyMap * IndexMap),
  ch <> [] ->
  layout !! j = Some key ->
  holds key ch ->
  (forall j' key', layout !! j' = Some key' -> holds key' ch -> j' = j) ->
  (registerLayout i layout m).1 !! ch = Some key /\
  (registerLayout i layout m).2 !! ch = Some (i + j).
Proof.
induction layout as [|k rest IH]; intros i j key m Hne Hj Hh Huniq; [done|].
simpl. destruct j as [|j]; simpl in Hj.
- simplify_eq.
  assert (Forall (fun key' => ~ holds key' ch) rest) as Hrest.
  { apply Forall_lookup. intros j' key' Hj' Hk'.
    by specialize (Huniq (S j') key' Hj' Hk'). }
  destruct (lookup_registerLayout_other ch rest (S i) (registerKey key i m) Hne Hrest)
    as [-> ->].
  destruct (lookup_registerKey ch key i m Hne) as [-> ->].
  rewrite !decide_True by done. by rewrite Nat.add_0_r.
- replace (i + S j) with (S i + j) by lia.
  apply IH; [done..|].
  intros j' key' Hj' Hk'. specialize (Huniq (S j') key' Hj' Hk'). lia.
Qed.

(** A turn of [addDakutenMappings] never replaces an entry. *)
Lemma lookup_addMapping_keeps (ch : jsstring) (key : FlickKey.t) (i : nat)
    (m : KeyMap * IndexMap) (entry : jsstring * jsstring) :
  m.1 !! ch = Some key -> m.2 !! ch = Some i ->
  (addMapping m entry).1 !! ch = Some key /\
  (addMapping m entry).2 !! ch = Some i.
Proof.
intros H1 H2. destruct entry as [base marked]. unfold addMapping.
case_bool_decide as Hhas; [done|].
destruct (m.1 !! base) as [kb|]; [|done].
destruct (m.2 !! base) as [ib|]; [|done].
destruct (lookup_registerChar marked ch kb ib m) as [-> ->].
destruct (decide (marked = ch)) as [->|]; [|done].
exfalso. apply Hhas. by rewrite H1.
Qed.

Lemma lookup_fold_addMapping_keeps (ch : jsstring) (key : FlickKey.t) (i : nat)
    (table : JS.object jsstring) :
  forall m : KeyMap * IndexMap,
  m.1 !! ch = Some key -> m.2 !! ch = Some i ->
  (fold_left addMapping table m).1 !! ch = Some key /\
  (fold_left addMapping table m).2 !! ch = Some i.
Proof.
induction table as [|entry table IH]; intros m H1 H2; simpl; [done|].
destruct (lookup_addMapping_keeps ch key i m entry H1 H2). by apply IH.
Qed.

Lemma lookup_buildCharToKeyMap_unique (config : Config.t) (mode : InputMode)
    (ch : jsstring) (j : nat) (key : FlickKey.t) :
  ch <> [] ->
  layoutOf config mode !! j = Some key ->
  holds key ch ->
  (forall j' key', layoutOf config mode !! j' = Some key' -> holds key' ch -> j' = j) ->
  (buildCharToKeyMap config mode (∅, ∅)).1 !! ch = Some key /\
  (buildCharToKeyMap config mode (∅, ∅)).2 !! ch = Some j.
Proof.
intros Hne Hj Hh Huniq. unfold buildCharToKeyMap.
destruct (lookup_registerLayout_unique ch _ 0 j key (∅, ∅) Hne Hj Hh Huniq)
  as [H1 H2].
destruct mode; [|done].
unfold addDakutenMappings. simpl in H2.
pose proof (lookup_fold_addMapping_keeps ch key j (Config.dakutenMap config) _ H1 H2)
  as [H3 H4].
exact (lookup_fold_addMapping_keeps ch key j (Config.handakutenMap config) _ H3 H4).
Qed.

(** [getDirectionForChar] on a key that holds the character: the first
    slot, in the order of the tests, that carries it. *)
Lemma getDirectionForChar_holds (kb : t) (ch : jsstring) (key : FlickKey.t) :
  charToKey kb !! ch = Some key ->
  holds key ch ->
  exists d, getDirectionForChar kb ch = Some d /\ FlickKey.slot key d = Some ch.
Proof.
intros Hk [d0 Hd0]. unfold getDirectionForChar. rewrite Hk.
repeat case_bool_decide;
  [by exists Center; simpl; split; [|f_equal]
  |by exists Up |by exists Down |by exists Left |by exists Right|].
destruct d0; simpl in Hd0; simplify_eq.
Qed.

(** C6. Round trip of the character index.  Let [ch] be a character (a
    non-empty string) held by the key at position [j] of the active layout
    and by no key at another position.  On a keyboard built for that
    layout, [getKeyForChar ch] is that key, [getKeyIndexForChar ch] its
    position, [getDirectionForChar ch] a direction whose slot on the key
    carries [ch], and once the key is pressed the character read for that
    direction is [ch] again. *)
Theorem char_index_round_trip (config : Config.t) (mode : InputMode)
    (ch : jsstring) (j : nat) (key : FlickKey.t) :
  ch <> [] ->
  layoutOf config mode !! j = Some key ->
  holds key ch ->
  (forall j' key', layoutOf config mode !! j' = Some key' -> holds key' ch -> j' = j) ->
  let kb := new config mode in
  getKeyForChar kb ch = Some key /\
  getKeyIndexForChar kb ch = Z.of_nat j /\
  exists d,
    getDirectionForChar kb ch = Some d /\
    FlickKey.slot key d = Some ch /\
    forall p, getCharacterForDirection (handleTouchStart kb p j) d = Some ch.
Proof.
intros Hne Hj Hh Huniq kb.
destruct (lookup_buildCharToKeyMap_unique config mode ch j key Hne Hj Hh Huniq)
  as [H1 H2].
assert (charToKey kb !! ch = Some key) as Hk by exact H1.
split; [exact Hk|]. split.
{ unfold getKeyIndexForChar. change (charToKeyIndex kb) with
    (buildCharToKeyMap config mode (∅, ∅)).2. by rewrite H2. }
destruct (getDirectionForChar_holds kb ch key Hk Hh) as (d & Hd & Hs).
exists d. split; [done|]. split; [done|].
intros p. unfold getCharacterForDirection, handleTouchStart, press; simpl.
change (getLayout kb) with (layoutOf config mode). rewrite Hj.
destruct d; simpl in Hs; simplify_eq; [done|..];
  rewrite Hs; unfold orNull; by destruct ch.
Qed.

Section WithMath.

Variable Math_atan2 : float -> float -> float.

(** C8. Misses are answered with the no-result value.  A character not in
    the index has no key; a direction with no character bound on the
    pressed key (or an empty one, off the centre), or any direction when
    no key is pressed, resolves to nothing; and a release whose resolved character is nothing calls no
    input callback, on the touch path and on the mouse path alike. *)
Theorem lookup_misses_are_null (kb : t) :
  (forall ch : jsstring, charToKey kb !! ch = None -> getKeyForChar kb ch = None) /\
  (forall (key : FlickKey.t) (d : FlickDirection),
     activeKey kb = Some key -> FlickKey.slot key d = None ->
     getCharacterForDirection kb d = None) /\
  (forall (key : FlickKey.t) (d : FlickDirection),
     activeKey kb = Some key -> d <> Center ->
     JS.truthy (FlickKey.slot key d) = false ->
     getCharacterForDirection kb d = None) /\
  (forall d : FlickDirection,
     activeKey kb = None -> getCharacterForDirection kb d = None) /\
  (forall (p : Pointer) (r : FlickResult),
     returned (handleTouchEnd Math_atan2 kb p) = Some r -> character r = None ->
     called (handleTouchEnd Math_atan2 kb p) = None) /\
  (forall (p : Pointer) (r : FlickResult),
     returned (handleMouseUp Math_atan2 kb p) = Some r -> character r = None ->
     called (handleMouseUp Math_atan2 kb p) = None) /\
  (forall p : Pointer,
     returned (handleTouchEnd Math_atan2 kb p) = None ->
     called (handleTouchEnd Math_atan2 kb p) = None /\
     after (handleTouchEnd Math_atan2 kb p) = kb) /\
  (forall p : Pointer,
     returned (handleMouseUp Math_atan2 kb p) = None ->
     called (handleMouseUp Math_atan2 kb p) = None /\
     after (handleMouseUp Math_atan2 kb p) = kb).
Proof.
repeat split.
- intros ch H. exact H.
- intros key d Hk Hs. unfold getCharacterForDirection. rewrite Hk.
  destruct d; simpl in Hs; [done|..]; by rewrite Hs.
- intros key d Hk Hd Hs. unfold getCharacterForDirection. rewrite Hk.
  destruct d; simpl in Hs; [done|..]; unfold orNull; by rewrite Hs.
- intros d Hk. unfold getCharacterForDirection. by rewrite Hk.
- intros p r. unfold handleTouchEnd.
  destruct (activeKey kb); [|done]. simpl. intros [= <-]; simpl. by intros ->.
- intros p r. unfold handleMouseUp.
  destruct (isDragging kb); simpl; [|done].
  destruct (activeKey kb); [|done]. simpl. intros [= <-]; simpl. by intros ->.
- unfold handleTouchEnd in *. by destruct (activeKey kb).
- unfold handleTouchEnd in *. by destruct (activeKey kb).
- unfold handleMouseUp in *.
  destruct (isDragging kb); simpl in *; [|done]. by destruct (activeKey kb).
- unfold handleMouseUp in *.
  destruct (isDragging kb); simpl in *; [|done]. by destruct (activeKey kb).
Qed.

(** Order of two doubles: [x <= y] rules out [y < x], whatever the two
    are (the comparisons with a NaN are all false). *)
Lemma SFcompare_antisym (a b : SpecFloat.spec_float) :
  SpecFloat.SFcompare b a = CompOpp <$> SpecFloat.SFcompare a b.
Proof.
destruct a as [sa|sa| |sa ma ea], b as [sb|sb| |sb mb eb]; simpl;
  try destruct sa; try destruct sb; simpl; try reflexivity;
  rewrite (Z.compare_antisym eb ea), (ZC4 ma mb);
  destruct (eb ?= ea)%Z; simpl; try reflexivity;
  by rewrite CompOpp_involutive.
Qed.

Lemma float_leb_not_ltb (x y : float) :
  (x <=? y)%float = true -> (y <? x)%float = false.
Proof.
rewrite FloatAxioms.leb_spec, FloatAxioms.ltb_spec.
unfold SpecFloat.SFleb, SpecFloat.SFltb.
rewrite (SFcompare_antisym (Prim2SF x) (Prim2SF y)).
destruct (SpecFloat.SFcompare _ _) as [[]|]; simpl; congruence.
Qed.

Lemma float_ltb_not_leb (x y : float) :
  (x <? y)%float = true -> (y <=? x)%float = false.
Proof.
rewrite FloatAxioms.leb_spec, FloatAxioms.ltb_spec.
unfold SpecFloat.SFleb, SpecFloat.SFltb.
rewrite (SFcompare_antisym (Prim2SF x) (Prim2SF y)).
destruct (SpecFloat.SFcompare _ _) as [[]|]; simpl; congruence.
Qed.

(** C4. The direction of a drag.  With [distance] the square root of
    [dx*dx + dy*dy] and [angle] the [atan2] of the drag in degrees: a
    distance below the threshold gives the centre; otherwise an angle in
    [[-45,45)] gives right, in [[45,135)] down, in [[-135,-45)] up, and any
    other angle left.  The four boundary angles fall in the bucket that
    starts at them: 45 is down, 135 left, -45 right, -135 up.  The answer
    is always one of the five directions. *)
Theorem calculateDirection_buckets (kb : t) (endX endY : float) :
  let dx := (endX - startX kb)%float in
  let dy := (endY - startY kb)%float in
  let distance := PrimFloat.sqrt (dx * dx + dy * dy)%float in
  let threshold := Config.flickThreshold (Config.ui (config kb)) in
  let angle := (Math_atan2 dy dx * (180 / Math_PI))%float in
  let answer := calculateDirection Math_atan2 kb endX endY in
  ((distance <? threshold)%float = true -> answer = Center) /\
  ((distance <? threshold)%float = false ->
     (within (-45) 45 angle = true -> answer = Right) /\
     (within 45 135 angle = true -> answer = Down) /\
     (within (-135) (-45) angle = true -> answer = Up) /\
     (within (-45) 45 angle = false -> within 45 135 angle = false ->
      within (-135) (-45) angle = false -> answer = Left) /\
     (angle = 45%float -> answer = Down) /\
     (angle = 135%float -> answer = Left) /\
     (angle = (-45)%float -> answer = Right) /\
     (angle = (-135)%float -> answer = Up)) /\
  answer ∈ [Center; Up; Down; Left; Right].
Proof.
intros dx dy distance threshold angle answer.
assert (answer =
  if (distance <? threshold)%float then Center
  else if within (-45) 45 angle then Right
  else if within 45 135 angle then Down
  else if within (-135) (-45) angle then Up
  else Left) as Hdef by reflexivity.
split; [intros Hlt; by rewrite Hdef, Hlt|].
split.
- intros Hge. rewrite Hge in Hdef.
  assert (within 45 135 angle = true -> within (-45) 45 angle = false) as H1.
  { unfold within. intros [Hlo _]%andb_true_iff.
    by rewrite (float_leb_not_ltb _ _ Hlo), andb_false_r. }
  assert (within (-135) (-45) angle = true ->
          within (-45) 45 angle = false /\ within 45 135 angle = false) as H2.
  { unfold within. intros [_ Hhi]%andb_true_iff.
    rewrite (float_ltb_not_leb _ _ Hhi). split; [done|].
    destruct (45 <=? angle)%float eqn:E; [|done].
    apply float_leb_not_ltb in E.
    assert ((-45 <=? angle)%float = false) as E'.
    { by apply float_ltb_not_leb. }
    exfalso. clear -E Hhi.
    revert E Hhi. rewrite !FloatAxioms.ltb_spec.
    unfold SpecFloat.SFltb.
    destruct (Prim2SF angle) as [s|s| |s m e]; try destruct s; simpl; done. }
  repeat split.
  + intros H. by rewrite Hdef, H.
  + intros H. by rewrite Hdef, (H1 H), H.
  + intros H. destruct (H2 H) as [Ha Hb]. by rewrite Hdef, Ha, Hb, H.
  + intros Ha Hb Hc. by rewrite Hdef, Ha, Hb, Hc.
  + intros H. by rewrite Hdef, H.
  + intros H. by rewrite Hdef, H.
  + intros H. by rewrite Hdef, H.
  + intros H. by rewrite Hdef, H.
- rewrite Hdef. repeat case_match; set_solver.
Qed.

End WithMath.

End KeyboardFacts.

(** *** The built-in hiragana layout *)

(** In the built-in hiragana layout, [nu] is on the fifth key only. *)
Lemma nu_on_one_key (j : nat) (key : FlickKey.t) :
  FlickKeyboard.layoutOf DefaultConfig.getDefaultConfig Hiragana !! j = Some key ->
  FlickKeyboard.holds key Kana.k_nu -> j = 4.
Proof.
intros Hj [d Hd].
do 12 (destruct j as [|j];
  [injection Hj as <-; destruct d; vm_compute in Hd; congruence|]).
discriminate Hj.
Qed.

Lemma char_index_round_trip_witness :
  Kana.k_nu <> [] /\
  FlickKeyboard.layoutOf DefaultConfig.getDefaultConfig Hiragana !! 4
    = Some (DefaultConfig.key5 Kana.k_na Kana.k_ni Kana.k_nu Kana.k_ne Kana.k_no) /\
  FlickKeyboard.holds
    (DefaultConfig.key5 Kana.k_na Kana.k_ni Kana.k_nu Kana.k_ne Kana.k_no)
    Kana.k_nu /\
  (let kb := FlickKeyboard.new DefaultConfig.getDefaultConfig Hiragana in
   FlickKeyboard.getKeyForChar kb Kana.k_nu
     = Some (DefaultConfig.key5 Kana.k_na Kana.k_ni Kana.k_nu Kana.k_ne Kana.k_no) /\
   FlickKeyboard.getKeyIndexForChar kb Kana.k_nu = 4%Z /\
   exists d,
     FlickKeyboard.getDirectionForChar kb Kana.k_nu = Some d /\
     FlickKey.slot
       (DefaultConfig.key5 Kana.k_na Kana.k_ni Kana.k_nu Kana.k_ne Kana.k_no) d
       = Some Kana.k_nu /\
     forall p,
       FlickKeyboard.getCharacterForDirection
         (FlickKeyboard.handleTouchStart kb p 4) d = Some Kana.k_nu).
Proof.
assert (Kana.k_nu <> []) as H1 by discriminate.
assert (FlickKeyboard.holds
          (DefaultConfig.key5 Kana.k_na Kana.k_ni Kana.k_nu Kana.k_ne Kana.k_no)
          Kana.k_nu) as H3 by (exists Up; reflexivity).
split; [exact H1|]. split; [reflexivity|]. split; [exact H3|].
exact (KeyboardFacts.char_index_round_trip DefaultConfig.getDefaultConfig Hiragana
         Kana.k_nu 4 _ H1 eq_refl H3 nu_on_one_key).
Defined.

(** The dakuten key has nothing below it: a downward flick on it
    resolves to nothing, and [pa], which is on no key, is still found
    under the key of [ha] without a direction of its own. *)
Example dakuten_key_has_no_down (p : Pointer) :
  FlickKeyboard.getCharacterForDirection
    (FlickKeyboard.handleTouchStart Sample.keyboard p 9) Down = None /\
  FlickKeyboard.getCharacterForDirection
    (FlickKeyboard.handleTouchStart Sample.keyboard p 9) Left
    = Some Kana.handakutenKey /\
  FlickKeyboard.getKeyIndexForChar Sample.keyboard Kana.k_pa = 5%Z /\
  FlickKeyboard.getDirectionForChar Sample.keyboard Kana.k_pa = None.
Proof.
repeat split; vm_compute; reflexivity.
Qed.

(** A drag shorter than the threshold of 30 pixels is a tap, whatever
    the platform's [atan2]. *)
Example short_drag_is_a_tap (atan2 : float -> float -> float) :
  FlickKeyboard.calculateDirection atan2
    (FlickKeyboard.handleTouchStart Sample.keyboard
       {| clientX := 100; clientY := 200 |} 0) 110 215 = Center.
Proof.
reflexivity.
Qed.

(** ** The input handler of a session *)

Module GameFacts.
Import Kana GameScreen.
Section WithRandom.

Context {SeededRandom : Type}.
Variable weightedPick :
  SeededRandom -> list jsstring -> list float -> jsstring * SeededRandom.

Local Abbreviation picks_nonempty := (Generator.picks_nonempty weightedPick).
Local Abbreviation renderTrack := (renderTrack weightedPick).
Local Abbreviation handleFlickInput := (handleFlickInput weightedPick).
Local Abbreviation commitComposed := (commitComposed weightedPick).
Local Abbreviation t := (GameScreen.t (SeededRandom := SeededRandom)).
Local Abbreviation toppedUp := (toppedUp weightedPick).
Local Abbreviation reachable := (reachable weightedPick).

Lemma picks_nonempty_tables (g g' : Generator.CharacterGenerator) :
  Generator.characters g' = Generator.characters g ->
  Generator.weights g' = Generator.weights g ->
  picks_nonempty g -> picks_nonempty g'.
Proof.
intros Hc Hw H r. rewrite Hc, Hw. apply H.
Qed.

Lemma topUp_total (gfuel : nat) (fuel : nat) :
  forall (g : Generator.CharacterGenerator) (chars : jsstring) (bound : nat),
  picks_nonempty g -> 50 <= gfuel -> bound - length chars <= fuel ->
  exists chars' g',
    topUp weightedPick gfuel fuel g chars bound = Some (chars', g') /\
    chars `prefix_of` chars' /\ picks_nonempty g'.
Proof.
induction fuel as [|fuel IH]; intros g chars bound Hp Hg Hf; simpl.
- rewrite decide_False by lia. by exists chars, g.
- destruct (decide (length chars < bound)) as [Hlt|Hlt]; [|by exists chars, g].
  destruct (GeneratorFacts.generate_loop_terminates weightedPick gfuel g [] 50 Hp)
    as [[more g1] Hgen]; [simpl; lia|].
  unfold Generator.generate. rewrite Hgen.
  apply GeneratorFacts.generate_loop_extends in Hgen as (_ & Hlen & Hc & Hw).
  destruct (IH g1 (chars ++ more) bound) as (chars' & g' & Htop & Hpre & Hp');
    [by eapply picks_nonempty_tables | done | rewrite length_app; lia |].
  exists chars', g'. split; [done|]. split; [|done].
  etrans; [|exact Hpre]. by apply prefix_app_r.
Qed.

(** Drawing the track always comes to an end and leaves the session as
    it is, but for the text, which may have grown. *)
Lemma renderTrack_total (fuel : nat) (s : t) :
  picks_nonempty (generator s) ->
  currentIndex s + Config.visibleCharsAfter (Config.ui (config s)) + 50 <= fuel ->
  exists s', renderTrack fuel s = Some s' /\ toppedUp s s'.
Proof.
intros Hp Hf. unfold GameScreen.renderTrack.
destruct (trackEl s) eqn:Htrack.
- destruct (topUp_total fuel fuel (generator s) (characters s)
              (currentIndex s + Config.visibleCharsAfter (Config.ui (config s)) + 50)
              Hp) as (chars' & g' & -> & Hpre & Hp'); [lia..|].
  eexists. split; [done|]. by repeat split.
- exists s. split; [done|]. repeat split; [by destruct s|done..].
Qed.

(** What the end of a commit does to a session [s0] in which the stroke
    is pushed and the composition cleared: the cursor moves on by one and
    the track is drawn; nothing else changes but the text, which may grow. *)
Lemma commit_total (fuel : nat) (s0 : t) :
  picks_nonempty (generator s0) -> fuelFor s0 fuel ->
  exists s',
    renderTrack fuel (nextIndex s0) = Some s' /\
    strokes s' = strokes s0 /\
    currentIndex s' = S (currentIndex s0) /\
    pendingBaseChar s' = pendingBaseChar s0 /\
    pendingDakutenType s' = pendingDakutenType s0 /\
    pendingDakutenCount s' = pendingDakutenCount s0 /\
    toppedUp (nextIndex s0) s'.
Proof.
intros Hp Hf. unfold fuelFor in Hf.
destruct (renderTrack_total fuel (nextIndex s0)) as (s' & Hr & Htop);
  [done | simpl; lia |].
exists s'. split; [done|].
destruct Htop as (Heq & Hpre & Hp'). rewrite Heq; simpl.
repeat split; done.
Qed.


(** An input that is none of the two diacritic keys takes the second
    half of the handler, whatever is pending. *)
Lemma handleFlickInput_plain (fuel : nat) (s : t) (now : float)
    (c : jsstring) (d : FlickDirection) :
  running s -> c <> dakutenKey -> c <> handakutenKey ->
  handleFlickInput fuel s now c d =
    match needsDakutenOf s (expectedOf s) with
    | Some kind =>
        if bool_decide (Some c = getBaseCharOf s (expectedOf s)) then
          Some (setPendingCount 0 (setPending (Some c) (Some kind) s))
        else
          renderTrack fuel
            (nextIndex (setPendingCount 0 (setPending None None
               (pushStroke (strokeAt s now c (expectedOf s) false d) s))))
    | None =>
        renderTrack fuel
          (nextIndex (setPending None None
             (pushStroke (strokeAt s now c (expectedOf s)
                            (bool_decide (Some c = expectedOf s)) d) s)))
    end.
Proof.
intros [Hc Hr] H1 H2. unfold GameScreen.handleFlickInput.
rewrite Hc, Hr; simpl.
rewrite (bool_decide_eq_false_2 (c = dakutenKey)) by done.
rewrite (bool_decide_eq_false_2 (c = handakutenKey)) by done.
reflexivity.
Qed.


(** C2, amended. An input [c] other than the two diacritic keys is
    handled without a look at what is pending.  If the expected character
    needs a diacritic and [c] is its base, nothing is committed, the
    cursor stays, and the pending composition becomes [c] with the kind
    needed and a counter of 0.  If it needs a diacritic and [c] is not its
    base, a miss is committed for [c], the cursor moves on by one and the
    composition and its counter are cleared.  If it needs none, [c] is
    committed, correct exactly when it is the expected character, the
    cursor moves on by one and the composition is cleared. *)
Theorem pending_plain_input (fuel : nat) (s : t) (now : float)
    (c : jsstring) (d : FlickDirection) :
  running s -> ~ idle s ->
  c <> dakutenKey -> c <> handakutenKey ->
  picks_nonempty (generator s) -> fuelFor s fuel ->
  (forall kind,
     needsDakutenOf s (expectedOf s) = Some kind ->
     getBaseCharOf s (expectedOf s) = Some c ->
     handleFlickInput fuel s now c d
       = Some (setPendingCount 0 (setPending (Some c) (Some kind) s))) /\
  (forall kind,
     needsDakutenOf s (expectedOf s) = Some kind ->
     getBaseCharOf s (expectedOf s) <> Some c ->
     exists s',
       handleFlickInput fuel s now c d = Some s' /\
       strokes s' = strokes s ++
         [{| input := c; expected := expectedOf s; correct := false;
             timestamp := (now - startTime s)%float; flickDirection := d |}] /\
       currentIndex s' = S (currentIndex s) /\
       pendingBaseChar s' = None /\ pendingDakutenType s' = None /\
       pendingDakutenCount s' = 0) /\
  (needsDakutenOf s (expectedOf s) = None ->
     exists s',
       handleFlickInput fuel s now c d = Some s' /\
       strokes s' = strokes s ++
         [{| input := c; expected := expectedOf s;
             correct := bool_decide (Some c = expectedOf s);
             timestamp := (now - startTime s)%float; flickDirection := d |}] /\
       currentIndex s' = S (currentIndex s) /\
       pendingBaseChar s' = None /\ pendingDakutenType s' = None).
Proof.
intros Hrun _ H1 H2 Hp Hf.
rewrite (handleFlickInput_plain fuel s now c d Hrun H1 H2).
repeat split.
- intros kind -> ->. by rewrite bool_decide_eq_true_2.
- intros kind -> Hb. rewrite bool_decide_eq_false_2 by congruence.
  destruct (commit_total fuel
    (setPendingCount 0 (setPending None None
       (pushStroke (strokeAt s now c (expectedOf s) false d) s))))
    as (s' & Hr & Hs & Hi & Hpb & Hpt & Hpc & _); [done..|].
  exists s'. by rewrite Hs, Hi, Hpb, Hpt, Hpc.
- intros ->.
  destruct (commit_total fuel
    (setPending None None
       (pushStroke (strokeAt s now c (expectedOf s)
                      (bool_decide (Some c = expectedOf s)) d) s)))
    as (s' & Hr & Hs & Hi & Hpb & Hpt & _); [done..|].
  exists s'. by rewrite Hs, Hi, Hpb, Hpt.
Qed.

(** The end of a composition: with [base] pending and [converted] its
    entry in the table that [key] selects, the composed character is
    committed. *)
Lemma commitComposed_total (fuel : nat) (s : t) (now : float)
    (key : jsstring) (d : FlickDirection) (e : option jsstring)
    (base converted : jsstring) :
  pendingBaseChar s = Some base ->
  JS.get (if bool_decide (key = dakutenKey) then Config.dakutenMap (config s)
          else Config.handakutenMap (config s)) base = Some converted ->
  converted <> [] ->
  picks_nonempty (generator s) -> fuelFor s fuel ->
  exists s',
    commitComposed fuel s now key d e = Some s' /\
    strokes s' = strokes s ++
      [{| input := converted; expected := e;
          correct := bool_decide (Some converted = e);
          timestamp := (now - startTime s)%float; flickDirection := d |}] /\
    currentIndex s' = S (currentIndex s) /\
    pendingBaseChar s' = None /\ pendingDakutenType s' = None /\
    pendingDakutenCount s' = 0.
Proof.
intros Hb Hget Hne Hp Hf. unfold GameScreen.commitComposed.
rewrite Hb, Hget.
destruct converted as [|u us]; [done|]. simpl.
destruct (bool_decide (Some (u :: us) = e)); simpl.
- destruct (commit_total fuel
    (setPendingCount 0 (setPending None None
       (pushStroke (strokeAt s now (u :: us) e true d) s))))
    as (s' & Hr & Hs & Hi & Hpb & Hpt & Hpc & _); [done..|].
  exists s'. by rewrite Hs, Hi, Hpb, Hpt, Hpc.
- destruct (commit_total fuel
    (setPendingCount 0 (setPending None None
       (pushStroke (strokeAt s now (u :: us) e false d) s))))
    as (s' & Hr & Hs & Hi & Hpb & Hpt & Hpc & _); [done..|].
  exists s'. by rewrite Hs, Hi, Hpb, Hpt, Hpc.
Qed.

(** C5. Semi-voiced composition takes two presses of the shared key.
    With [pa] expected and a composition pending on [ha], of kind
    handakuten, no press counted yet: a first press of the dakuten key
    commits nothing, leaves the cursor, counts one press and keeps the
    composition; a second press commits one stroke, the composed [pa],
    correct, moves the cursor on by one and leaves the session idle. *)
Theorem handakuten_takes_two_presses (fuel : nat) (s : t) (now1 now2 : float)
    (d1 d2 : FlickDirection) :
  running s ->
  expectedOf s = Some k_pa ->
  pendingBaseChar s = Some k_ha ->
  pendingDakutenType s = Some Handakuten ->
  pendingDakutenCount s = 0 ->
  JS.get (Config.handakutenMap (config s)) k_ha = Some k_pa ->
  picks_nonempty (generator s) -> fuelFor s fuel ->
  exists s1 s2,
    handleFlickInput fuel s now1 dakutenKey d1 = Some s1 /\
    strokes s1 = strokes s /\
    currentIndex s1 = currentIndex s /\
    pendingDakutenCount s1 = 1 /\
    pendingBaseChar s1 = Some k_ha /\
    pendingDakutenType s1 = Some Handakuten /\
    handleFlickInput fuel s1 now2 dakutenKey d2 = Some s2 /\
    strokes s2 = strokes s ++
      [{| input := k_pa; expected := Some k_pa; correct := true;
          timestamp := (now2 - startTime s)%float; flickDirection := d2 |}] /\
    currentIndex s2 = S (currentIndex s) /\
    idle s2 /\
    pendingDakutenType s2 = None /\ pendingDakutenCount s2 = 0.
Proof.
intros [Hcd Hr] He Hb Ht Hc Hget Hp Hf.
exists (setPendingCount 1 s).
destruct (commitComposed_total fuel (setPendingCount 2 s) now2 handakutenKey d2
            (Some k_pa) k_ha k_pa) as (s2 & H2 & Hs & Hi & Hpb & Hpt & Hpc);
  [done | done | done | done | done |].
exists s2.
assert (handleFlickInput fuel s now1 dakutenKey d1 = Some (setPendingCount 1 s))
  as Hfirst.
{ unfold GameScreen.handleFlickInput. rewrite Hcd, Hr, Hb, Ht, Hc. by vm_compute. }
assert (handleFlickInput fuel (setPendingCount 1 s) now2 dakutenKey d2 = Some s2)
  as Hsecond.
{ unfold expectedOf in He.
  unfold GameScreen.handleFlickInput; simpl. rewrite Hcd, Hr, Hb, Ht, He; simpl.
  exact H2. }
split; [exact Hfirst|]. simpl.
split; [done|]. split; [done|]. split; [done|]. split; [done|]. split; [done|].
rewrite bool_decide_eq_true_2 in Hs by done.
split; [exact Hsecond|]. split; [exact Hs|]. split; [exact Hi|].
split; [unfold idle; by rewrite Hpb|]. done.
Qed.

(** C10. The handakuten key itself completes a pending handakuten
    composition in one press.  With [base] pending, of kind handakuten,
    and [converted] its entry in the handakuten table, one input of the
    handakuten key commits one stroke whose input is [converted], correct
    exactly when that is the expected character, and moves the cursor on
    by one; the session is idle again.  The number of presses counted
    before plays no part. *)
Theorem handakuten_key_completes_at_once (fuel : nat) (s : t) (now : float)
    (d : FlickDirection) (base converted : jsstring) :
  running s ->
  pendingBaseChar s = Some base -> base <> [] ->
  pendingDakutenType s = Some Handakuten ->
  JS.get (Config.handakutenMap (config s)) base = Some converted ->
  converted <> [] ->
  picks_nonempty (generator s) -> fuelFor s fuel ->
  exists s',
    handleFlickInput fuel s now handakutenKey d = Some s' /\
    strokes s' = strokes s ++
      [{| input := converted; expected := expectedOf s;
          correct := bool_decide (Some converted = expectedOf s);
          timestamp := (now - startTime s)%float; flickDirection := d |}] /\
    currentIndex s' = S (currentIndex s) /\
    idle s' /\
    pendingDakutenType s' = None /\ pendingDakutenCount s' = 0.
Proof.
intros [Hcd Hr] Hb Hne Ht Hget Hcne Hp Hf.
destruct (commitComposed_total fuel s now handakutenKey d (expectedOf s)
            base converted) as (s' & H & Hs & Hi & Hpb & Hpt & Hpc);
  [done..|].
exists s'. split.
- unfold GameScreen.handleFlickInput. rewrite Hcd, Hr, Hb, Ht; simpl.
  destruct base; [done|]. exact H.
- split; [done|]. split; [done|]. split; [unfold idle; by rewrite Hpb|]. done.
Qed.

(** *** Fuel plays no part in a result *)

Lemma topUp_fuel_mono (gfuel fuel : nat) :
  forall (gfuel' fuel' : nat) (g : Generator.CharacterGenerator)
         (chars : jsstring) (bound : nat) r,
  topUp weightedPick gfuel fuel g chars bound = Some r ->
  gfuel <= gfuel' -> fuel <= fuel' ->
  topUp weightedPick gfuel' fuel' g chars bound = Some r.
Proof.
induction fuel as [|fuel IH]; intros gfuel' fuel' g chars bound r H Hg Hf;
  simpl in H.
- destruct (decide _) as [Hlt|Hlt]; [done|].
  destruct fuel'; simpl; by rewrite decide_False.
- destruct (decide _) as [Hlt|Hlt].
  + destruct fuel' as [|fuel']; [lia|]. simpl. rewrite decide_True by done.
    destruct (Generator.generate weightedPick gfuel g 50) as [[more g1]|] eqn:E;
      [|done].
    unfold Generator.generate in *.
    rewrite (GeneratorFacts.generate_loop_fuel_mono weightedPick _ _ _ _ _ _ E Hg).
    eapply IH; [exact H | done | lia].
  + destruct fuel'; simpl; by rewrite decide_False.
Qed.

Lemma renderTrack_fuel_mono (fuel fuel' : nat) (s s' : t) :
  renderTrack fuel s = Some s' -> fuel <= fuel' ->
  renderTrack fuel' s = Some s'.
Proof.
unfold GameScreen.renderTrack. destruct (trackEl s); [|done].
destruct (topUp _ fuel fuel _ _ _) as [[chars g]|] eqn:E; [|done].
intros H Hf. by rewrite (topUp_fuel_mono _ _ _ _ _ _ _ _ E Hf Hf).
Qed.

Lemma commitComposed_fuel_mono (fuel fuel' : nat) (s s' : t) (now : float)
    (key : jsstring) (d : FlickDirection) (e : option jsstring) :
  commitComposed fuel s now key d e = Some s' -> fuel <= fuel' ->
  commitComposed fuel' s now key d e = Some s'.
Proof.
unfold GameScreen.commitComposed. apply renderTrack_fuel_mono.
Qed.

(** A result of the handler stays the same with more fuel. *)
Lemma handleFlickInput_fuel_mono (fuel fuel' : nat) (s s' : t) (now : float)
    (c : jsstring) (d : FlickDirection) :
  handleFlickInput fuel s now c d = Some s' -> fuel <= fuel' ->
  handleFlickInput fuel' s now c d = Some s'.
Proof.
unfold GameScreen.handleFlickInput. intros H Hf.
destruct (isCountdown s || negb (isRunning s)); [done|].
destruct (bool_decide (c = dakutenKey) || bool_decide (c = handakutenKey)).
- destruct (JS.truthy (pendingBaseChar s)); [|done].
  destruct (bool_decide (pendingDakutenType s = Some Handakuten)
            && bool_decide (c = dakutenKey)).
  + simpl in *. destruct (decide (S (pendingDakutenCount s) < 2)); [done|].
    by eapply commitComposed_fuel_mono.
  + by eapply commitComposed_fuel_mono.
- destruct (needsDakutenOf s _).
  + destruct (bool_decide _); [done|]. by eapply renderTrack_fuel_mono.
  + by eapply renderTrack_fuel_mono.
Qed.

(** *** The transitions of the handler *)

(** [renderTrack] touches the text and its generator only. *)
Lemma renderTrack_frame (fuel : nat) (s s' : t) :
  renderTrack fuel s = Some s' ->
  s' = setText (characters s') (generator s') s.
Proof.
unfold GameScreen.renderTrack. destruct (trackEl s).
- destruct (topUp _ _ _ _ _ _) as [[chars g]|]; [|done]. by intros [= <-].
- intros [= <-]. by destruct s.
Qed.

Lemma handleFlickInput_transition (fuel : nat) (s s' : t) (now : float)
    (c : jsstring) (d : FlickDirection) :
  handleFlickInput fuel s now c d = Some s' -> Transition s c s'.
Proof.
unfold GameScreen.handleFlickInput.
destruct (isCountdown s || negb (isRunning s)); [intros [= <-]; constructor|].
destruct (bool_decide (c = dakutenKey) || bool_decide (c = handakutenKey)).
- destruct (JS.truthy (pendingBaseChar s)) eqn:Htr; [|intros [= <-]; constructor].
  destruct (bool_decide (pendingDakutenType s = Some Handakuten)
            && bool_decide (c = dakutenKey)) eqn:Hh.
  + apply andb_true_iff in Hh as [Hk%bool_decide_eq_true _].
    simpl. destruct (decide (S (pendingDakutenCount s) < 2)) as [Hlt|Hge].
    * intros [= <-].
      assert (pendingDakutenCount s = 0) as H0 by lia.
      rewrite H0. by constructor.
    * unfold GameScreen.commitComposed. intros H.
      apply renderTrack_frame in H; simpl in H. rewrite H.
      match goal with
      | |- context [pushStroke ?st _] =>
          replace (setText (characters s') (generator s')
                     (nextIndex (setPendingCount 0 (setPending None None
                        (pushStroke st (setPendingCount (S (pendingDakutenCount s)) s))))))
            with (setText (characters s') (generator s')
                    (nextIndex (setPendingCount 0 (setPending None None
                       (pushStroke st s))))) by reflexivity;
          apply (Committed s c st)
      end.
      by repeat case_match.
  + unfold GameScreen.commitComposed. intros H.
    apply renderTrack_frame in H; simpl in H. rewrite H.
    apply Committed. by repeat case_match.
- fold (expectedOf s).
  destruct (needsDakutenOf s (expectedOf s)) as [kind|] eqn:Hn.
  + case_bool_decide as Hb.
    * intros [= <-]. by constructor.
    * intros H. apply renderTrack_frame in H; simpl in H. rewrite H.
      by apply Committed.
  + intros H. apply renderTrack_frame in H; simpl in H. rewrite H.
    by apply CommittedPlain.
Qed.

(** *** What holds of every session *)

Lemma Transition_wellFormed (s s' : t) (c : jsstring) :
  wellFormed s -> Transition s c s' -> wellFormed s'.
Proof.
intros (Hi & Hc & Hn & Hb) Htr.
destruct Htr as [|Htruthy Hkind Hzero|kind Hneeds Hbase|stroke chars g He
                |stroke chars g Hneeds He];
  [done|unfold wellFormed; simpl..].
- split; [done|]. split; [lia|]. split; [|exact Hb].
  intros Hnone. by rewrite Hnone in Htruthy.
- split; [done|]. split; [lia|]. split; [done|].
  intros b [= <-]. by exists kind.
- split; [rewrite length_app; simpl; lia|]. split; [lia|]. by split.
- split; [rewrite length_app; simpl; lia|]. split; [lia|]. split; [|done].
  intros _. split; [done|].
  destruct (pendingBaseChar s) as [b|] eqn:Hp.
  + destruct (Hb b eq_refl) as (kind & _ & Hk & _). congruence.
  + by destruct (Hn eq_refl).
Qed.

(** The invariant of the composition state machine. *)
Lemma reachable_wellFormed (s : t) : reachable s -> wellFormed s.
Proof.
induction 1 as [s (Hs & Hi & Hb & Ht & Hc & _)|fuel s s' now c d _ IH Hstep].
- split; [by rewrite Hs, Hi|]. split; [lia|]. split; [done|].
  intros b Hb'. congruence.
- eapply Transition_wellFormed; [exact IH|].
  by eapply handleFlickInput_transition.
Qed.

(** The handler leaves the configuration and the keyboard alone. *)
Lemma Transition_config (s s' : t) (c : jsstring) :
  Transition s c s' ->
  config s' = config s /\ flickKeyboard s' = flickKeyboard s.
Proof.
by destruct 1.
Qed.

Lemma reachable_keyboard (s : t) :
  reachable s ->
  exists kb, flickKeyboard s = Some kb /\ FlickKeyboard.config kb = config s.
Proof.
induction 1 as [s (_ & _ & _ & _ & _ & Hkb)|fuel s s' now c d _ IH Hstep];
  [done|].
apply handleFlickInput_transition, Transition_config in Hstep as [-> ->].
exact IH.
Qed.

(** The reverse scan finds an entry of the table. *)
Lemma findBase_Some (table : JS.object jsstring) (e b : jsstring) :
  FlickKeyboard.findBase table e = Some b -> (b, e) ∈ table.
Proof.
unfold FlickKeyboard.findBase.
destruct (List.find _ table) as [[b' v]|] eqn:E; [|done].
intros [= <-]. apply find_some in E as [Hin Hclean].
unfold FlickKeyboard.cleanBaseEntry in Hclean; simpl in Hclean.
apply andb_true_iff in Hclean as [->%bool_decide_eq_true _].
by apply list_elem_of_In.
Qed.

Lemma findBase_None (table : JS.object jsstring) (e : jsstring) :
  FlickKeyboard.isMarkedBy table e = false ->
  FlickKeyboard.findBase table e = None.
Proof.
unfold FlickKeyboard.isMarkedBy, FlickKeyboard.findBase. intros H.
destruct (List.find _ table) as [[b v]|] eqn:E; [|done].
exfalso. pose proof E as [Hin Hclean]%find_some.
assert (existsb (FlickKeyboard.cleanBaseEntry table e) table = true) as Hex.
{ apply existsb_exists. by exists (b, v). }
rewrite Hex, andb_true_r in H.
unfold FlickKeyboard.cleanBaseEntry in Hclean; simpl in Hclean.
apply andb_true_iff in Hclean as [->%bool_decide_eq_true _].
apply bool_decide_eq_false in H. apply H.
apply list_elem_of_fmap. exists (b, e). split; [done|]. by apply list_elem_of_In.
Qed.

(** In a table without a repeated key, an entry is what a lookup of its
    key gives. *)
Lemma get_entry {V} (table : JS.object V) (k : jsstring) (v : V) :
  NoDup (JS.keys table) -> (k, v) ∈ table -> JS.get table k = Some v.
Proof.
induction table as [|[k' v'] table IH]; intros Hnd Hin; [by apply elem_of_nil in Hin|].
apply NoDup_cons in Hnd as [Hk' Hnd]. simpl.
apply elem_of_cons in Hin as [[= <- <-]|Hin].
- by rewrite decide_True.
- rewrite decide_False; [by apply IH|].
  intros ->. apply Hk'. apply list_elem_of_fmap. by exists (k, v).
Qed.

(** In every session the handler can lead to, a pending handakuten
    composition is on a base whose entry in the handakuten table is the
    expected character: the hypotheses of the two completion theorems
    above are met. *)
Lemma reachable_handakuten_pending (s : t) (b : jsstring) :
  reachable s ->
  NoDup (JS.keys (Config.handakutenMap (config s))) ->
  pendingBaseChar s = Some b ->
  pendingDakutenType s = Some Handakuten ->
  exists e,
    expectedOf s = Some e /\ e <> [] /\
    JS.get (Config.handakutenMap (config s)) b = Some e.
Proof.
intros Hreach Hnd Hb Ht.
destruct (reachable_wellFormed s Hreach) as (_ & _ & _ & Hpend).
destruct (Hpend b Hb) as (kind & Hk & Hneeds & Hbase).
assert (kind = Handakuten) as -> by congruence.
destruct (reachable_keyboard s Hreach) as (kb & Hkb & Hcfg).
unfold needsDakutenOf, getBaseCharOf in *. rewrite Hkb in Hneeds, Hbase.
destruct (expectedOf s) as [e|] eqn:He; [|done].
exists e. split; [done|]. split.
{ unfold expectedOf, JS.charAt in He.
  destruct (characters s !! currentIndex s); simplify_eq/=. done. }
unfold FlickKeyboard.needsDakuten, FlickKeyboard.getBaseChar in *.
rewrite Hcfg in Hneeds, Hbase.
destruct (FlickKeyboard.isMarkedBy (Config.dakutenMap (config s)) e) eqn:Hd;
  [done|].
rewrite (findBase_None _ _ Hd) in Hbase.
apply get_entry; [done|]. by apply findBase_Some.
Qed.

(** Every stroke is either correct or a miss. *)
Lemma correct_miss_count (log : list FlickStroke) :
  length (filter (fun st => correct st = true) log)
  + length (filter (fun st => correct st = false) log) = length log.
Proof.
induction log as [|st log IH]; [done|].
rewrite !filter_cons. destruct (correct st); simpl;
  repeat case_decide; try done; simpl; lia.
Qed.

(** The two counts of [endGame] are the numbers of [true] and of
    [false] among the [correct] flags of the log. *)
Lemma filter_correct_count (log : list FlickStroke) (b : bool) :
  length (filter (fun st => correct st = b) log)
  = count_occ Bool.bool_dec (correct <$> log) b.
Proof.
induction log as [|st log IH]; [done|].
rewrite filter_cons, fmap_cons. simpl.
destruct (Bool.bool_dec (correct st) b) as [Heq|Hne].
- rewrite decide_True by done. simpl. by rewrite IH.
- by rewrite decide_False by done.
Qed.

(** C7. The score at the end of a session.  The result counts as
    correct the strokes of the log whose flag [correct] is set, and as
    missed the others; the two add up to the log.  The speed is the
    number of correct strokes over the configured duration in minutes,
    and, with at least one stroke, the accuracy is the number of correct
    strokes over the number of strokes, times 100; with an empty log it
    is 0.  For a duration of 60 seconds and a log of 50 correct strokes
    and 5 incorrect ones, the speed is 50 and the accuracy the double
    [50/55*100], which lies between 90.9 and 90.91. *)
Theorem endGame_score (s : t) :
  let r := (endGame s).1 in
  let dur := Config.duration (Config.game (config s)) in
  let flags := correct <$> strokes s in
  let hits := count_occ Bool.bool_dec flags true in
  let misses := count_occ Bool.bool_dec flags false in
  res_strokes r = strokes s /\
  res_correctCount r = hits /\
  res_missCount r = misses /\
  hits + misses = length (strokes s) /\
  res_cpm r = (JS.number_of_nat hits / (dur / 60))%float /\
  (0 < length (strokes s) ->
   res_accuracy r =
     (JS.number_of_nat hits / JS.number_of_nat (length (strokes s)) * 100)%float) /\
  (strokes s = [] -> res_accuracy r = 0%float) /\
  (dur = 60%float -> hits = 50 -> misses = 5 ->
   res_cpm r = 50%float /\
   res_accuracy r = (50 / 55 * 100)%float /\
   (90.9 <? res_accuracy r)%float = true /\
   (res_accuracy r <? 90.91)%float = true).
Proof.
intros r dur flags hits misses.
assert (res_correctCount r = hits) as Hhits
  by apply filter_correct_count.
assert (res_missCount r = misses) as Hmisses
  by apply filter_correct_count.
assert (hits + misses = length (strokes s)) as Hsum.
{ rewrite <- Hhits, <- Hmisses. apply correct_miss_count. }
assert (res_cpm r = (JS.number_of_nat hits / (dur / 60))%float) as Hcpm.
{ rewrite <- Hhits. done. }
assert (Hacc : 0 < length (strokes s) ->
  res_accuracy r =
    (JS.number_of_nat hits / JS.number_of_nat (length (strokes s)) * 100)%float).
{ intros Hpos. rewrite <- Hhits. subst r. unfold endGame; simpl.
  destruct (decide (0 < length (strokes s))); [done | lia]. }
split; [done|]. split; [exact Hhits|]. split; [exact Hmisses|].
split; [exact Hsum|]. split; [exact Hcpm|]. split; [exact Hacc|].
split.
{ intros Hnil. subst r. unfold endGame; simpl. by rewrite Hnil. }
intros Hdur Hc Hm.
assert (length (strokes s) = 55) as Hlen by lia.
assert (res_cpm r = 50%float) as Hcpm50.
{ rewrite Hcpm, Hc, Hdur. by vm_compute. }
assert (res_accuracy r = (50 / 55 * 100)%float) as Hval.
{ rewrite Hacc by lia. rewrite Hc, Hlen. by vm_compute. }
split; [exact Hcpm50|]. split; [exact Hval|].
rewrite Hval. split; by vm_compute.
Qed.

End WithRandom.
End GameFacts.

(** *** Sample sessions *)



Lemma pending_plain_input_witness :
  GameScreen.running (Sample.pendingScreen Kana.k_ga 0 Kana.k_ka Dakuten 0) /\
  ~ GameScreen.idle (Sample.pendingScreen Kana.k_ga 0 Kana.k_ka Dakuten 0) /\
  Kana.k_sa <> Kana.dakutenKey /\ Kana.k_sa <> Kana.handakutenKey /\
  Generator.picks_nonempty Sample.pick
    (GameScreen.generator (Sample.pendingScreen Kana.k_ga 0 Kana.k_ka Dakuten 0)) /\
  GameScreen.fuelFor (Sample.pendingScreen Kana.k_ga 0 Kana.k_ka Dakuten 0) 200 /\
  exists s',
    GameScreen.handleFlickInput Sample.pick 200
      (Sample.pendingScreen Kana.k_ga 0 Kana.k_ka Dakuten 0) 2000 Kana.k_sa Center
      = Some s' /\
    GameScreen.strokes s' =
      [{| input := Kana.k_sa; expected := Some Kana.k_ga; correct := false;
          timestamp := 1000; flickDirection := Center |}] /\
    GameScreen.currentIndex s' = 1 /\
    GameScreen.pendingBaseChar s' = None /\
    GameScreen.pendingDakutenType s' = None /\
    GameScreen.pendingDakutenCount s' = 0.
Proof.
assert (GameScreen.running (Sample.pendingScreen Kana.k_ga 0 Kana.k_ka Dakuten 0))
  as H1 by (split; reflexivity).
assert (~ GameScreen.idle (Sample.pendingScreen Kana.k_ga 0 Kana.k_ka Dakuten 0))
  as H2 by (unfold GameScreen.idle; simpl; discriminate).
assert (Kana.k_sa <> Kana.dakutenKey) as H3 by discriminate.
assert (Kana.k_sa <> Kana.handakutenKey) as H4 by discriminate.
assert (GameScreen.fuelFor (Sample.pendingScreen Kana.k_ga 0 Kana.k_ka Dakuten 0) 200)
  as H6 by (unfold GameScreen.fuelFor; simpl; lia).
split; [exact H1|]. split; [exact H2|]. split; [exact H3|]. split; [exact H4|].
split; [exact (sample_picks_nonempty Hiragana)|]. split; [exact H6|].
destruct (GameFacts.pending_plain_input Sample.pick 200
            (Sample.pendingScreen Kana.k_ga 0 Kana.k_ka Dakuten 0)
            2000 Kana.k_sa Center H1 H2 H3 H4 (sample_picks_nonempty Hiragana) H6)
  as (_ & Hmiss & _).
destruct (Hmiss Dakuten) as (s' & Hs' & Hst & Hi & Hb & Ht & Hc).
- vm_compute; reflexivity.
- vm_compute; discriminate.
- exists s'. split; [exact Hs'|]. split; [exact Hst|].
  split; [exact Hi|]. split; [exact Hb|]. split; [exact Ht|exact Hc].
Defined.

(** C2 as stated fails: with [ga] expected and a composition pending on
    [ka], as an input of [ka] leaves a fresh session, an input of [sa],
    which is no diacritic key, is not ignored.  A miss is committed, the
    cursor moves on and the composition is gone. *)
Lemma pending_input_counterexample :
  GameScreen.handleFlickInput Sample.pick 200 (Sample.screen Kana.k_ga 0)
    1500 Kana.k_ka Center
    = Some (Sample.pendingScreen Kana.k_ga 0 Kana.k_ka Dakuten 0) /\
  GameScreen.running (Sample.pendingScreen Kana.k_ga 0 Kana.k_ka Dakuten 0) /\
  GameScreen.pendingBaseChar (Sample.pendingScreen Kana.k_ga 0 Kana.k_ka Dakuten 0)
    = Some Kana.k_ka /\
  Kana.k_sa <> Kana.dakutenKey /\ Kana.k_sa <> Kana.handakutenKey /\
  GameScreen.handleFlickInput Sample.pick 200
    (Sample.pendingScreen Kana.k_ga 0 Kana.k_ka Dakuten 0) 2000 Kana.k_sa Center
    <> Some (Sample.pendingScreen Kana.k_ga 0 Kana.k_ka Dakuten 0) /\
  GameScreen.strokes <$>
    GameScreen.handleFlickInput Sample.pick 200
      (Sample.pendingScreen Kana.k_ga 0 Kana.k_ka Dakuten 0) 2000 Kana.k_sa Center
    = Some [{| input := Kana.k_sa; expected := Some Kana.k_ga; correct := false;
               timestamp := 1000; flickDirection := Center |}] /\
  GameScreen.currentIndex <$>
    GameScreen.handleFlickInput Sample.pick 200
      (Sample.pendingScreen Kana.k_ga 0 Kana.k_ka Dakuten 0) 2000 Kana.k_sa Center
    = Some 1 /\
  GameScreen.pendingBaseChar <$>
    GameScreen.handleFlickInput Sample.pick 200
      (Sample.pendingScreen Kana.k_ga 0 Kana.k_ka Dakuten 0) 2000 Kana.k_sa Center
    = Some None.
Proof.
split; [vm_compute; reflexivity|].
split; [split; reflexivity|]. split; [reflexivity|].
split; [discriminate|]. split; [discriminate|].
split.
{ intros H. apply (f_equal (fmap GameScreen.currentIndex)) in H.
  vm_compute in H. discriminate. }
split; [vm_compute; reflexivity|].
split; vm_compute; reflexivity.
Qed.

Lemma handakuten_takes_two_presses_witness :
  GameScreen.running (Sample.pendingScreen Kana.k_pa 0 Kana.k_ha Handakuten 0) /\
  GameScreen.expectedOf (Sample.pendingScreen Kana.k_pa 0 Kana.k_ha Handakuten 0)
    = Some Kana.k_pa /\
  JS.get (Config.handakutenMap DefaultConfig.getDefaultConfig) Kana.k_ha
    = Some Kana.k_pa /\
  GameScreen.fuelFor (Sample.pendingScreen Kana.k_pa 0 Kana.k_ha Handakuten 0) 200 /\
  exists s1 s2,
    GameScreen.handleFlickInput Sample.pick 200
      (Sample.pendingScreen Kana.k_pa 0 Kana.k_ha Handakuten 0)
      2000 Kana.dakutenKey Center = Some s1 /\
    GameScreen.strokes s1 = [] /\
    GameScreen.currentIndex s1 = 0 /\
    GameScreen.pendingDakutenCount s1 = 1 /\
    GameScreen.handleFlickInput Sample.pick 200 s1 2500 Kana.dakutenKey Center
      = Some s2 /\
    GameScreen.strokes s2 =
      [{| input := Kana.k_pa; expected := Some Kana.k_pa; correct := true;
          timestamp := 1500; flickDirection := Center |}] /\
    GameScreen.currentIndex s2 = 1 /\
    GameScreen.idle s2.
Proof.
assert (GameScreen.running (Sample.pendingScreen Kana.k_pa 0 Kana.k_ha Handakuten 0))
  as H1 by (split; reflexivity).
assert (GameScreen.expectedOf (Sample.pendingScreen Kana.k_pa 0 Kana.k_ha Handakuten 0)
        = Some Kana.k_pa) as H2 by reflexivity.
assert (JS.get (Config.handakutenMap DefaultConfig.getDefaultConfig) Kana.k_ha
        = Some Kana.k_pa) as H3 by (vm_compute; reflexivity).
assert (GameScreen.fuelFor (Sample.pendingScreen Kana.k_pa 0 Kana.k_ha Handakuten 0) 200)
  as H4 by (unfold GameScreen.fuelFor; simpl; lia).
split; [exact H1|]. split; [exact H2|]. split; [exact H3|]. split; [exact H4|].
destruct (GameFacts.handakuten_takes_two_presses Sample.pick 200
            (Sample.pendingScreen Kana.k_pa 0 Kana.k_ha Handakuten 0)
            2000 2500 Center Center H1 H2 eq_refl eq_refl eq_refl H3
            (sample_picks_nonempty Hiragana) H4)
  as (s1 & s2 & Ha & Hb & Hc & Hd & _ & _ & He & Hf & Hg & Hh & _).
exists s1, s2.
split; [exact Ha|]. split; [exact Hb|]. split; [exact Hc|]. split; [exact Hd|].
split; [exact He|]. split; [exact Hf|]. split; [exact Hg|exact Hh].
Defined.

Lemma handakuten_key_completes_at_once_witness :
  GameScreen.running (Sample.pendingScreen Kana.k_pa 0 Kana.k_ha Handakuten 0) /\
  JS.get (Config.handakutenMap DefaultConfig.getDefaultConfig) Kana.k_ha
    = Some Kana.k_pa /\
  GameScreen.fuelFor (Sample.pendingScreen Kana.k_pa 0 Kana.k_ha Handakuten 0) 200 /\
  exists s',
    GameScreen.handleFlickInput Sample.pick 200
      (Sample.pendingScreen Kana.k_pa 0 Kana.k_ha Handakuten 0)
      2000 Kana.handakutenKey Left = Some s' /\
    GameScreen.strokes s' =
      [{| input := Kana.k_pa; expected := Some Kana.k_pa;
          correct := bool_decide (Some Kana.k_pa = Some Kana.k_pa);
          timestamp := 1000; flickDirection := Left |}] /\
    GameScreen.currentIndex s' = 1 /\
    GameScreen.idle s'.
Proof.
assert (GameScreen.running (Sample.pendingScreen Kana.k_pa 0 Kana.k_ha Handakuten 0))
  as H1 by (split; reflexivity).
assert (JS.get (Config.handakutenMap DefaultConfig.getDefaultConfig) Kana.k_ha
        = Some Kana.k_pa) as H3 by (vm_compute; reflexivity).
assert (GameScreen.fuelFor (Sample.pendingScreen Kana.k_pa 0 Kana.k_ha Handakuten 0) 200)
  as H4 by (unfold GameScreen.fuelFor; simpl; lia).
split; [exact H1|]. split; [exact H3|]. split; [exact H4|].
destruct (GameFacts.handakuten_key_completes_at_once Sample.pick 200
            (Sample.pendingScreen Kana.k_pa 0 Kana.k_ha Handakuten 0)
            2000 Left Kana.k_ha Kana.k_pa H1 eq_refl ltac:(discriminate) eq_refl H3
            ltac:(discriminate) (sample_picks_nonempty Hiragana) H4)
  as (s' & Ha & Hb & Hc & Hd & _).
exists s'. split; [exact Ha|]. split; [exact Hb|]. split; [exact Hc|exact Hd].
Defined.

(** A session of 60 seconds with 50 correct strokes and 5 misses. *)
Example endGame_sample_session :
  let hit := {| input := Kana.k_a; expected := Some Kana.k_a; correct := true;
                timestamp := 10; flickDirection := Center |} in
  let miss := {| input := Kana.k_i; expected := Some Kana.k_a; correct := false;
                 timestamp := 20; flickDirection := Left |} in
  let s := foldr GameScreen.pushStroke (Sample.screen Kana.k_a 0)
             (replicate 5 miss ++ replicate 50 hit) in
  let r := (GameScreen.endGame s).1 in
  res_correctCount r = 50 /\ res_missCount r = 5 /\
  res_cpm r = 50%float /\ res_accuracy r = (50 / 55 * 100)%float /\
  res_charStats r !! Kana.k_a = Some {| stat_correct := 50; stat_miss := 5 |}.
Proof.
repeat split; vm_compute; reflexivity.
Qed.

(** The voiced scenario: [ga] is expected; the base [ka] and then the
    dakuten key give one stroke, the composed [ga], correct, and the
    cursor has moved by one. *)
Example voiced_scenario :
  Sample.outcome <$>
    Sample.play (Sample.screen Kana.k_ga 0) 2000
      [(Kana.k_ka, Center); (Kana.dakutenKey, Center)]
  = Some ([{| input := Kana.k_ga; expected := Some Kana.k_ga; correct := true;
              timestamp := 2000; flickDirection := Center |}], 1, None).
Proof.
vm_compute. reflexivity.
Qed.

(** The semi-voiced scenario: [pa] is expected; after the base [ha] and
    one press of the dakuten key nothing is committed, after a second
    press the composed [pa] is. *)
Example semi_voiced_scenario :
  Sample.outcome <$>
    Sample.play (Sample.screen Kana.k_pa 0) 2000
      [(Kana.k_ha, Center); (Kana.dakutenKey, Center)]
  = Some ([], 0, Some Kana.k_ha) /\
  Sample.outcome <$>
    Sample.play (Sample.screen Kana.k_pa 0) 2000
      [(Kana.k_ha, Center); (Kana.dakutenKey, Center); (Kana.dakutenKey, Center)]
  = Some ([{| input := Kana.k_pa; expected := Some Kana.k_pa; correct := true;
              timestamp := 3000; flickDirection := Center |}], 1, None).
Proof.
split; vm_compute; reflexivity.
Qed.

(** The wrong-base scenario: [ga] is expected and [sa] comes in; a miss
    is committed at once and the cursor moves on. *)
Example wrong_base_scenario :
  Sample.outcome <$>
    Sample.play (Sample.screen Kana.k_ga 0) 2000 [(Kana.k_sa, Center)]
  = Some ([{| input := Kana.k_sa; expected := Some Kana.k_ga; correct := false;
              timestamp := 1000; flickDirection := Center |}], 1, None).
Proof.
vm_compute. reflexivity.
Qed.

(** A dakuten composition ended by the handakuten key: [ka] has no entry
    in the handakuten table, and a miss is committed with the key itself
    as input. *)
Example wrong_mark_scenario :
  Sample.outcome <$>
    Sample.play (Sample.screen Kana.k_ga 0) 2000
      [(Kana.k_ka, Center); (Kana.handakutenKey, Left)]
  = Some ([{| input := Kana.handakutenKey; expected := Some Kana.k_ga;
              correct := false; timestamp := 2000; flickDirection := Left |}],
          1, None).
Proof.
vm_compute. reflexivity.
Qed.

(** ** The score history *)

Module StorageFacts.
Import Storage.

Lemma length_slice_last {A} (k : nat) (xs : list A) :
  length (JS.slice_last k xs) = k `min` length xs.
Proof.
unfold JS.slice_last. rewrite length_drop. lia.
Qed.

(** Trimming, appending and trimming again is appending and trimming. *)
Lemma slice_last_snoc {A} (k : nat) (xs : list A) (x : A) :
  1 <= k ->
  JS.slice_last k (JS.slice_last k xs ++ [x]) = JS.slice_last k (xs ++ [x]).
Proof.
intros Hk. unfold JS.slice_last.
rewrite !length_app, length_drop; simpl.
destruct (decide (length xs < k)) as [Hlt|Hge].
- replace (length xs - k) with 0 by lia. simpl.
  by replace (length xs - 0 + 1 - k) with (length xs + 1 - k) by lia.
- replace (length xs - (length xs - k) + 1 - k) with 1 by lia.
  rewrite !drop_app_le by (rewrite ?length_drop; lia).
  rewrite drop_drop. f_equal. f_equal. lia.
Qed.

(** One save that goes through, on a store that holds a list. *)
Lemma stored_saveRecord (item : Item) (record : GameRecord) :
  (exists records, getAllRecords item = JArray records) ->
  stored (saveRecord true item record)
    = JS.slice_last 100 (stored item ++ [record]).
Proof.
intros [records H]. unfold stored, saveRecord. by rewrite H.
Qed.

Lemma saveAll_snoc (item : Item) (saves : list (GameRecord * bool))
    (record : GameRecord) (writable : bool) :
  saveAll item (saves ++ [(record, writable)])
    = saveRecord writable (saveAll item saves) record.
Proof.
unfold saveAll. by rewrite fold_left_app.
Qed.

(** From an empty store, what is held after a run of saves is the last
    hundred of those that went through. *)
Lemma stored_saveAll (saves : list (GameRecord * bool)) :
  (exists records, getAllRecords (saveAll NoItem saves) = JArray records) /\
  stored (saveAll NoItem saves)
    = JS.slice_last 100 (filter (fun rw => rw.2 = true) saves).*1.
Proof.
induction saves as [|[record writable] saves [[records Harr] IH]] using rev_ind.
- split; [by exists []|done].
- rewrite saveAll_snoc, filter_app, fmap_app.
  destruct writable; simpl.
  + split.
    * unfold saveRecord. rewrite Harr. by eexists.
    * rewrite stored_saveRecord by by eexists.
      rewrite IH.
      change (filter (fun rw : GameRecord * bool => rw.2 = true) [(record, true)])
        with [(record, true)].
      simpl. by rewrite slice_last_snoc by lia.
  + assert (saveRecord false (saveAll NoItem saves) record = saveAll NoItem saves)
      as ->.
    { unfold saveRecord. by destruct (getAllRecords _). }
    split; [by eexists|].
    change (filter (fun rw : GameRecord * bool => rw.2 = true) [(record, false)])
      with (@nil (GameRecord * bool)).
    simpl. by rewrite app_nil_r.
Qed.

(** C9. The history never holds more than 100 records.  A save leaves a
    store of at most 100 records at most 100 long, and a save that goes
    through leaves at most 100 whatever was there.  From an empty store,
    after any run of saves that all go through, the store holds the
    records saved, the last hundred of them when there were more, in the
    order they were saved. *)
Theorem history_keeps_latest_100 :
  (forall (item : Item) (record : GameRecord) (writable : bool),
     length (stored item) <= 100 ->
     length (stored (saveRecord writable item record)) <= 100) /\
  (forall (item : Item) (record : GameRecord) (records : list GameRecord),
     getAllRecords item = JArray records ->
     getAllRecords (saveRecord true item record)
       = JArray (JS.slice_last 100 (records ++ [record])) /\
     length (stored (saveRecord true item record)) <= 100) /\
  (forall saved : list GameRecord,
     let item := saveAll NoItem ((fun r => (r, true)) <$> saved) in
     getAllRecords item = JArray (stored item) /\
     length (stored item) <= 100 /\
     (length saved <= 100 -> stored item = saved) /\
     (100 < length saved ->
      length (stored item) = 100 /\
      stored item = drop (length saved - 100) saved)).
Proof.
split; [|split].
- intros item record writable Hb. unfold saveRecord, stored in *.
  destruct (getAllRecords item) as [records|] eqn:E; [|by rewrite E].
  destruct writable; [|by rewrite E]. simpl.
  rewrite length_slice_last. lia.
- intros item record records H. unfold saveRecord, stored. rewrite H; simpl.
  split; [done|]. rewrite length_slice_last. lia.
- intros saved item.
  destruct (stored_saveAll ((fun r => (r, true)) <$> saved)) as [[records Harr] Hst].
  fold item in Harr, Hst.
  match type of Hst with
  | _ = JS.slice_last 100 ?l => assert (l = saved) as Hall
  end.
  { clear. induction saved as [|r saved IH]; [done|].
    rewrite fmap_cons, filter_cons_True by done.
    rewrite fmap_cons. simpl. f_equal. exact IH. }
  rewrite Hall in Hst.
  split; [unfold stored; by rewrite Harr|].
  rewrite Hst, length_slice_last. split; [lia|]. split.
  + intros Hle. unfold JS.slice_last. by replace (length saved - 100) with 0 by lia.
  + intros Hlt. split; [lia|done].
Qed.

End StorageFacts.

(** ** More on the generator: lengths, streams, and successive calls *)

Module GeneratorMore.
Import Generator.
Section WithRandom.

Context {SeededRandom : Type}.
Variable weightedPick :
  SeededRandom -> list jsstring -> list float -> jsstring * SeededRandom.

Local Abbreviation generateSingleChar := (generateSingleChar weightedPick).
Local Abbreviation generate_loop := (generate_loop weightedPick).
Local Abbreviation generate := (generate weightedPick).
Local Abbreviation stream_take := (stream_take weightedPick).
Local Abbreviation picks_units := (Picks.picks_units weightedPick).
Local Abbreviation CharacterGenerator :=
  (CharacterGenerator (SeededRandom := SeededRandom)).

Lemma picks_units_step (g : CharacterGenerator) :
  picks_units g -> picks_units (generateSingleChar g).2.
Proof.
intros [Hin Hall].
destruct (GeneratorFacts.generateSingleChar_tables weightedPick g) as [Hc Hw].
split; [intros r|]; rewrite ?Hc, ?Hw; [apply Hin|exact Hall].
Qed.

Lemma generateSingleChar_unit (g : CharacterGenerator) :
  picks_units g ->
  length (generateSingleChar g).1 = 1 /\
  (generateSingleChar g).1 ∈ characters g.
Proof.
intros [Hin Hall]. specialize (Hin (random g)).
unfold Generator.generateSingleChar.
destruct (weightedPick _ _ _) as [c r]; simpl in *.
split; [|done]. by eapply Forall_forall in Hall.
Qed.

(** The stream keeps the tables, and with unit picks its first [k] values
    are [k] code units, each an item of the table. *)
Lemma stream_take_units (k : nat) :
  forall g : CharacterGenerator,
  picks_units g ->
  length (concat (stream_take k g).1) = k /\
  Forall (fun c => c ∈ characters g) (stream_take k g).1 /\
  picks_units (stream_take k g).2 /\
  characters (stream_take k g).2 = characters g.
Proof.
induction k as [|k IH]; intros g Hp; simpl.
- split; [done|]. split; [constructor|]. by split.
- pose proof (generateSingleChar_unit g Hp) as [Hlen Hin].
  pose proof (picks_units_step g Hp) as Hp'.
  destruct (GeneratorFacts.generateSingleChar_tables weightedPick g) as [Hc _].
  destruct (generateSingleChar g) as [c g1]; simpl in *.
  destruct (IH g1 Hp') as (Hl & Hall & Hp'' & Hc').
  destruct (stream_take k g1) as [cs g2]; simpl in *.
  split; [rewrite length_app; lia|]. split.
  + constructor; [done|]. by rewrite <- Hc.
  + split; [done|congruence].
Qed.

Lemma stream_take_add (n m : nat) :
  forall g : CharacterGenerator,
  stream_take (n + m) g =
    ((stream_take n g).1 ++ (stream_take m (stream_take n g).2).1,
     (stream_take m (stream_take n g).2).2).
Proof.
induction n as [|n IH]; intros g; simpl.
- by destruct (stream_take m g).
- destruct (generateSingleChar g) as [c g1]. rewrite IH.
  destruct (stream_take n g1) as [cs g2]; simpl.
  by destruct (stream_take m g2).
Qed.

(** With unit picks the loop of [generate] reads exactly as many values
    off the stream as characters are missing. *)
Lemma generate_loop_stream (fuel : nat) :
  forall (g : CharacterGenerator) (result : jsstring) (len : nat),
  picks_units g ->
  len - length result <= fuel ->
  generate_loop fuel g result len =
    Some (result ++ concat (stream_take (len - length result) g).1,
          (stream_take (len - length result) g).2).
Proof.
induction fuel as [|fuel IH]; intros g result len Hp Hf; simpl.
- rewrite decide_False by lia.
  replace (len - length result) with 0 by lia. simpl. by rewrite app_nil_r.
- destruct (decide (length result < len)) as [Hlt|Hge].
  + pose proof (generateSingleChar_unit g Hp) as [Hlen _].
    pose proof (picks_units_step g Hp) as Hp'.
    replace (len - length result) with (S (len - S (length result))) by lia.
    simpl. destruct (generateSingleChar g) as [c g1]; simpl in *.
    rewrite IH by (rewrite ?length_app; done || lia).
    rewrite length_app, Hlen.
    replace (len - (length result + 1)) with (len - S (length result)) by lia.
    destruct (stream_take _ g1) as [cs g2]; simpl. by rewrite <- app_assoc.
  + replace (len - length result) with 0 by lia. simpl. by rewrite app_nil_r.
Qed.

(** X1. [generate(n)] gives exactly [n] characters, each a key of the
    weight table, when every pick is an item of the table and the items
    are one code unit long; [n] turns of the loop are enough. *)
Theorem generate_exact_length (g : CharacterGenerator) (n : nat) :
  picks_units g ->
  exists out g',
    (forall fuel, n <= fuel -> generate fuel g n = Some (out, g')) /\
    length out = n /\
    (forall i u, out !! i = Some u -> [u] ∈ characters g) /\
    characters g' = characters g /\ weights g' = weights g.
Proof.
intros Hp.
exists (concat (stream_take n g).1), (stream_take n g).2.
destruct (stream_take_units n g Hp) as (Hlen & Hall & _ & Hc).
split.
{ intros fuel Hf. unfold Generator.generate.
  rewrite (generate_loop_stream fuel g [] n Hp) by (simpl; lia).
  simpl. by rewrite Nat.sub_0_r. }
split; [done|]. split.
- intros i u Hi.
  assert (u ∈ concat (stream_take n g).1) as Hu by by eapply list_elem_of_lookup_2.
  apply list_elem_of_In, in_concat in Hu as (c & Hc' & Huc).
  apply list_elem_of_In in Hc', Huc.
  eapply Forall_forall in Hall; [|exact Hc'].
  destruct Hp as [_ Hunit]. eapply Forall_forall in Hunit; [|exact Hall].
  destruct c as [|u' [|]]; simplify_eq/=.
  apply list_elem_of_singleton in Huc as ->. exact Hall.
- split; [done|].
  assert (generate n g n = Some (concat (stream_take n g).1, (stream_take n g).2))
    as Hgen.
  { unfold Generator.generate.
    rewrite (generate_loop_stream n g [] n Hp) by (simpl; lia).
    simpl. by rewrite Nat.sub_0_r. }
  by apply GeneratorFacts.generate_loop_extends in Hgen as (_ & _ & _ & Hw).
Qed.

(** X2. Successive calls continue one text: with unit picks, what
    [generate(n)] returns followed by what [generate(m)] then returns on
    the same generator is what one call of [generate(n + m)] returns, and
    the generator ends in the same state. *)
Theorem generate_twice (g : CharacterGenerator) (n m : nat) :
  picks_units g ->
  exists out1 g1 out2 g2,
    generate n g n = Some (out1, g1) /\
    generate m g1 m = Some (out2, g2) /\
    generate (n + m) g (n + m) = Some (out1 ++ out2, g2).
Proof.
intros Hp.
destruct (stream_take_units n g Hp) as (_ & _ & Hp1 & _).
exists (concat (stream_take n g).1), (stream_take n g).2,
       (concat (stream_take m (stream_take n g).2).1),
       (stream_take m (stream_take n g).2).2.
unfold Generator.generate.
rewrite (generate_loop_stream n g [] n Hp) by (simpl; lia).
rewrite (generate_loop_stream m _ [] m Hp1) by (simpl; lia).
rewrite (generate_loop_stream (n + m) g [] (n + m) Hp) by (simpl; lia).
simpl. rewrite !Nat.sub_0_r, stream_take_add. simpl.
by rewrite concat_app.
Qed.

(** X3. [stream()] and [generate] give the same text: with unit picks,
    the first [n] values the iterator yields, joined, are the string
    [generate(n)] returns, and both leave the generator in the same
    state. *)
Theorem stream_is_generate (g : CharacterGenerator) (n : nat) :
  picks_units g ->
  generate n g n = Some (concat (stream_take n g).1, (stream_take n g).2) /\
  length (stream_take n g).1 = n.
Proof.
intros Hp. split.
- unfold Generator.generate.
  rewrite (generate_loop_stream n g [] n Hp) by (simpl; lia).
  simpl. by rewrite Nat.sub_0_r.
- clear Hp. revert g. induction n as [|n IH]; intros g; simpl; [done|].
  destruct (generateSingleChar g) as [c g1]. specialize (IH g1).
  destruct (stream_take n g1); simpl in *. by rewrite IH.
Qed.

End WithRandom.
End GeneratorMore.

(** ** More on the keyboard: the two maps, diacritics, and releases *)

Module KeyboardMore.
Import FlickKeyboard KeyboardState.

Lemma inStep_registerChar (layout : list FlickKey.t) (c : jsstring)
    (key : FlickKey.t) (i : nat) (m : KeyMap * IndexMap) :
  layout !! i = Some key -> inStep layout m ->
  inStep layout (registerChar c key i m).
Proof.
intros Hi Hm ch.
destruct (KeyboardFacts.lookup_registerChar c ch key i m) as [-> ->].
destruct (decide (c = ch)); [done|apply Hm].
Qed.

Lemma inStep_registerSlot (layout : list FlickKey.t) (slot : option jsstring)
    (key : FlickKey.t) (i : nat) (m : KeyMap * IndexMap) :
  layout !! i = Some key -> inStep layout m ->
  inStep layout (registerSlot slot key i m).
Proof.
intros Hi Hm. unfold registerSlot.
destruct slot as [[|u us]|]; [done| |done]. by apply inStep_registerChar.
Qed.

Lemma inStep_registerKey (layout : list FlickKey.t) (key : FlickKey.t)
    (i : nat) (m : KeyMap * IndexMap) :
  layout !! i = Some key -> inStep layout m ->
  inStep layout (registerKey key i m).
Proof.
intros Hi Hm. unfold registerKey.
repeat apply inStep_registerSlot; try done. by apply inStep_registerChar.
Qed.

Lemma inStep_registerLayout (layout rest : list FlickKey.t) :
  forall (i : nat) (m : KeyMap * IndexMap),
  (forall j key, rest !! j = Some key -> layout !! (i + j) = Some key) ->
  inStep layout m ->
  inStep layout (registerLayout i rest m).
Proof.
induction rest as [|key rest IH]; intros i m Hrest Hm; simpl; [done|].
apply IH.
- intros j k Hj. replace (S i + j) with (i + S j) by lia. by apply Hrest.
- apply inStep_registerKey; [|done].
  specialize (Hrest 0 key eq_refl). by rewrite Nat.add_0_r in Hrest.
Qed.

Lemma inStep_addMapping (layout : list FlickKey.t) (m : KeyMap * IndexMap)
    (entry : jsstring * jsstring) :
  inStep layout m -> inStep layout (addMapping m entry).
Proof.
intros Hm. destruct entry as [base marked]. unfold addMapping.
case_bool_decide; [done|].
pose proof (Hm base) as Hb.
destruct (m.1 !! base) as [key|]; [|done].
destruct (m.2 !! base) as [i|]; [|done].
by apply inStep_registerChar.
Qed.

Lemma inStep_fold_addMapping (layout : list FlickKey.t)
    (table : JS.object jsstring) :
  forall m : KeyMap * IndexMap,
  inStep layout m -> inStep layout (fold_left addMapping table m).
Proof.
induction table as [|entry table IH]; intros m Hm; simpl; [done|].
by apply IH, inStep_addMapping.
Qed.

Lemma inStep_buildCharToKeyMap (config : Config.t) (mode : InputMode) :
  inStep (layoutOf config mode) (buildCharToKeyMap config mode (∅, ∅)).
Proof.
unfold buildCharToKeyMap.
assert (inStep (layoutOf config mode)
          (registerLayout 0 (layoutOf config mode) (∅, ∅))) as H.
{ apply inStep_registerLayout; [done|]. intros ch. simpl.
  by rewrite !lookup_empty. }
destruct mode; [|done].
unfold addDakutenMappings. by do 2 apply inStep_fold_addMapping.
Qed.

(** X5. The character index never points beside the layout.  On a
    keyboard just built, and on one whose input mode has just been set,
    [getKeyIndexForChar] is [-1] exactly when [getKeyForChar] is null,
    and otherwise it is the place in the active layout of the very key
    [getKeyForChar] returns. *)
Theorem index_and_key_in_step (kb0 : t) (config : Config.t) (mode : InputMode)
    (ch : jsstring) :
  let built := new config mode in
  let switched := setInputMode kb0 mode in
  (getKeyForChar built ch = None <-> getKeyIndexForChar built ch = (-1)%Z) /\
  (forall key, getKeyForChar built ch = Some key ->
     exists i, getKeyIndexForChar built ch = Z.of_nat i /\
               getLayout built !! i = Some key) /\
  (getKeyForChar switched ch = None <-> getKeyIndexForChar switched ch = (-1)%Z) /\
  (forall key, getKeyForChar switched ch = Some key ->
     exists i, getKeyIndexForChar switched ch = Z.of_nat i /\
               getLayout switched !! i = Some key).
Proof.
intros built switched.
pose proof (inStep_buildCharToKeyMap config mode ch) as H1.
pose proof (inStep_buildCharToKeyMap (FlickKeyboard.config kb0) mode ch) as H2.
unfold getKeyForChar, getKeyIndexForChar, getLayout. simpl.
split; [|split; [|split]].
- clear H2.
  destruct ((buildCharToKeyMap config mode (∅, ∅)).1 !! ch),
           ((buildCharToKeyMap config mode (∅, ∅)).2 !! ch);
    try done; split; intros; (done || lia).
- clear H2. intros key Hk. rewrite Hk in H1.
  destruct ((buildCharToKeyMap config mode (∅, ∅)).2 !! ch) as [i|]; [|done].
  by exists i.
- clear H1.
  destruct ((buildCharToKeyMap (FlickKeyboard.config kb0) mode (∅, ∅)).1 !! ch),
           ((buildCharToKeyMap (FlickKeyboard.config kb0) mode (∅, ∅)).2 !! ch);
    try done; split; intros; (done || lia).
- clear H1. intros key Hk. rewrite Hk in H2.
  destruct ((buildCharToKeyMap (FlickKeyboard.config kb0) mode (∅, ∅)).2 !! ch)
    as [i|]; [|done].
  by exists i.
Qed.

(** A character held by a key of the layout is filed by the loop over
    the layout. *)
Lemma registerLayout_is_Some (ch : jsstring) (layout : list FlickKey.t) :
  forall (i : nat) (m : KeyMap * IndexMap),
  ch <> [] ->
  is_Some (m.1 !! ch) \/ Exists (fun key => holds key ch) layout ->
  is_Some ((registerLayout i layout m).1 !! ch).
Proof.
induction layout as [|key rest IH]; intros i m Hne H; simpl.
- destruct H as [H|H]; [done|]. by apply Exists_nil in H.
- apply IH; [done|].
  destruct (KeyboardFacts.lookup_registerKey ch key i m Hne) as [Hl _].
  rewrite Hl. destruct (decide (holds key ch)) as [Hh|Hh]; [left; by eexists|].
  destruct H as [H|H]; [by left|].
  apply Exists_cons in H as [H|H]; [done|by right].
Qed.

(** The turns of [addDakutenMappings] for a marked character that the
    layout did not file and that has one base only: the character is
    filed under the key and the index of its base. *)
Lemma fold_addMapping_marked (base marked : jsstring) (key : FlickKey.t)
    (j : nat) (table : JS.object jsstring) :
  forall m : KeyMap * IndexMap,
  m.1 !! marked = None ->
  m.1 !! base = Some key -> m.2 !! base = Some j ->
  (base, marked) ∈ table ->
  (forall b, (b, marked) ∈ table -> b = base) ->
  (fold_left addMapping table m).1 !! marked = Some key /\
  (fold_left addMapping table m).2 !! marked = Some j.
Proof.
induction table as [|[b v] table IH]; intros m Hm Hk Hj Hin Huniq;
  [by apply elem_of_nil in Hin|].
simpl. destruct (decide (v = marked)) as [->|Hv].
- assert (b = base) as -> by (apply Huniq; left).
  apply KeyboardFacts.lookup_fold_addMapping_keeps.
  + unfold addMapping. rewrite bool_decide_eq_false_2 by (rewrite Hm; by intros [? ?]).
    rewrite Hk, Hj.
    destruct (KeyboardFacts.lookup_registerChar marked marked key j m) as [-> _].
    by rewrite decide_True.
  + unfold addMapping. rewrite bool_decide_eq_false_2 by (rewrite Hm; by intros [? ?]).
    rewrite Hk, Hj.
    destruct (KeyboardFacts.lookup_registerChar marked marked key j m) as [_ ->].
    by rewrite decide_True.
- apply elem_of_cons in Hin as [[= -> ->]|Hin]; [done|].
  destruct (KeyboardFacts.lookup_addMapping_keeps base key j m (b, v) Hk Hj)
    as [Hk' Hj'].
  apply IH; [|done|done|done|intros b' Hb'; apply Huniq; by right].
  unfold addMapping. case_bool_decide; [done|].
  destruct (m.1 !! b) as [kb|]; [|done].
  destruct (m.2 !! b) as [ib|]; [|done].
  destruct (KeyboardFacts.lookup_registerChar v marked kb ib m) as [-> _].
  by rewrite decide_False.
Qed.

(** X6. A character with a diacritic sits on the key of its base.  In
    hiragana mode, let [marked] be a character that no key of the layout
    holds and whose one entry in the two diacritic tables has the base
    [base], and let [base] be held by the key at place [j] only.  Then
    [getKeyForChar marked] is that key and [getKeyIndexForChar marked]
    is [j], while [getDirectionForChar marked] is null: the key has no
    direction for it.  In alphabet mode such a character has no key at
    all. *)
Theorem marked_char_on_base_key (config : Config.t) (base marked : jsstring)
    (j : nat) (key : FlickKey.t) :
  base <> [] -> marked <> [] ->
  Forall (fun k => ~ holds k marked) (layoutOf config Hiragana) ->
  Forall (fun k => ~ holds k marked) (layoutOf config Alphabet) ->
  (base, marked) ∈ Config.dakutenMap config ++ Config.handakutenMap config ->
  (forall b, (b, marked) ∈ Config.dakutenMap config ++ Config.handakutenMap config ->
     b = base) ->
  layoutOf config Hiragana !! j = Some key ->
  holds key base ->
  (forall j' key', layoutOf config Hiragana !! j' = Some key' ->
     holds key' base -> j' = j) ->
  getKeyForChar (new config Hiragana) marked = Some key /\
  getKeyIndexForChar (new config Hiragana) marked = Z.of_nat j /\
  getDirectionForChar (new config Hiragana) marked = None /\
  getKeyForChar (new config Alphabet) marked = None /\
  getKeyIndexForChar (new config Alphabet) marked = (-1)%Z.
Proof.
intros Hb Hm Hnone Hnone' Hin Huniq Hj Hh Hone.
set (m0 := registerLayout 0 (layoutOf config Hiragana) (∅, ∅)).
destruct (KeyboardFacts.lookup_registerLayout_other marked _ 0 (∅, ∅) Hm Hnone)
  as [Hm1 Hm2].
destruct (KeyboardFacts.lookup_registerLayout_unique base _ 0 j key (∅, ∅)
            Hb Hj Hh Hone) as [Hb1 Hb2].
fold m0 in Hm1, Hm2, Hb1, Hb2. simpl in Hm1, Hm2, Hb2.
rewrite lookup_empty in Hm1.
destruct (fold_addMapping_marked base marked key j
            (Config.dakutenMap config ++ Config.handakutenMap config) m0
            Hm1 Hb1 Hb2 Hin Huniq) as [H1 H2].
rewrite fold_left_app in H1, H2.
assert (charToKey (new config Hiragana) !! marked = Some key) as Hk by exact H1.
assert (charToKeyIndex (new config Hiragana) !! marked = Some j) as Hi by exact H2.
split; [exact Hk|]. split; [unfold getKeyIndexForChar; by rewrite Hi|].
split.
{ unfold getDirectionForChar. rewrite Hk.
  assert (~ holds key marked) as Hnot.
  { eapply Forall_forall in Hnone; [exact Hnone|].
    by eapply list_elem_of_lookup_2. }
  repeat case_bool_decide; try done; exfalso; apply Hnot;
    [exists Center|exists Up|exists Down|exists Left|exists Right];
    simpl; congruence. }
destruct (KeyboardFacts.lookup_registerLayout_other marked _ 0 (∅, ∅) Hm Hnone')
  as [Ha1 Ha2].
simpl in Ha1, Ha2. rewrite lookup_empty in Ha1. rewrite lookup_empty in Ha2.
assert (charToKey (new config Alphabet) !! marked = None) as Hka by exact Ha1.
assert (charToKeyIndex (new config Alphabet) !! marked = None) as Hia by exact Ha2.
split; [exact Hka|]. unfold getKeyIndexForChar. by rewrite Hia.
Qed.

Lemma findBase_is_Some (table : JS.object jsstring) (e : jsstring) :
  isMarkedBy table e = true -> is_Some (findBase table e).
Proof.
unfold isMarkedBy, findBase. intros [_ Hex]%andb_true_iff.
apply existsb_exists in Hex as (entry & Hin & Hclean).
destruct (List.find _ table) as [x|] eqn:E; [by eexists|].
eapply find_none in E; [|exact Hin]. congruence.
Qed.

Lemma findBase_clean (table : JS.object jsstring) (e b : jsstring) :
  findBase table e = Some b ->
  (b, e) ∈ table /\ b ∉ JS.values table.
Proof.
intros H. split; [by apply GameFacts.findBase_Some|].
unfold findBase in H.
destruct (List.find _ table) as [[b' v]|] eqn:E; [|done].
injection H as <-. apply find_some in E as [_ Hclean].
unfold cleanBaseEntry in Hclean; simpl in Hclean.
apply andb_true_iff in Hclean as [_ Hn%negb_true_iff].
by apply bool_decide_eq_false in Hn.
Qed.

(** X7. [needsDakuten] and [getBaseChar] agree, and undo composition.
    One is null exactly when the other is.  When [needsDakuten char] is a
    kind, [getBaseChar char] is a base that the table of that kind sends
    to [char] and that is not itself a value of that table, so a base is
    never a composed character of the same kind; with no key repeated in
    the table, looking the base up in it gives [char] back. *)
Theorem base_and_kind_agree (kb : t) (char : jsstring) :
  let voiced := Config.dakutenMap (config kb) in
  let semi := Config.handakutenMap (config kb) in
  (needsDakuten kb char = None <-> getBaseChar kb char = None) /\
  (needsDakuten kb char = Some Dakuten ->
   exists base,
     getBaseChar kb char = Some base /\
     (base, char) ∈ voiced /\ (base ∉ JS.values voiced) /\
     (NoDup (JS.keys voiced) -> JS.get voiced base = Some char)) /\
  (needsDakuten kb char = Some Handakuten ->
   exists base,
     getBaseChar kb char = Some base /\
     (base, char) ∈ semi /\ (base ∉ JS.values semi) /\
     (NoDup (JS.keys semi) -> JS.get semi base = Some char)).
Proof.
intros voiced semi. unfold needsDakuten, getBaseChar. fold voiced semi.
destruct (isMarkedBy voiced char) eqn:Hv.
- destruct (findBase_is_Some _ _ Hv) as [b Hb]. rewrite Hb.
  destruct (findBase_clean _ _ _ Hb) as [Hin Hnot].
  split; [done|]. split; [|done].
  intros _. exists b. repeat split; try done.
  intros Hnd. by apply GameFacts.get_entry.
- rewrite (GameFacts.findBase_None _ _ Hv).
  destruct (isMarkedBy semi char) eqn:Hs.
  + destruct (findBase_is_Some _ _ Hs) as [b Hb]. rewrite Hb.
    destruct (findBase_clean _ _ _ Hb) as [Hin Hnot].
    split; [done|]. split; [done|].
    intros _. exists b. repeat split; try done.
    intros Hnd. by apply GameFacts.get_entry.
  + rewrite (GameFacts.findBase_None _ _ Hs). by repeat split.
Qed.

Section WithMath.

Variable Math_atan2 : float -> float -> float.

(** X8. A release passes on only what is on the pressed key, and only
    once.  If the end of a touch, or of a mouse drag, calls the input
    callback with a character and a direction, then a callback is
    registered, the character is not empty, and it is the one in the slot
    of that direction on the key pressed.  After a release no key is
    active, and a second release without a press in between returns null,
    calls nothing and changes nothing.  A press on an index outside the
    layout starts no gesture: its release returns null and calls
    nothing. *)
Theorem release_once_from_pressed_key (kb : t) (p p' : Pointer) :
  (forall c d,
     called (handleTouchEnd Math_atan2 kb p) = Some (c, d) ->
     onInput kb = true /\ c <> [] /\
     d = calculateDirection Math_atan2 kb (clientX p) (clientY p) /\
     exists key, activeKey kb = Some key /\ FlickKey.slot key d = Some c) /\
  (forall c d,
     called (handleMouseUp Math_atan2 kb p) = Some (c, d) ->
     onInput kb = true /\ c <> [] /\ isDragging kb = true /\
     d = calculateDirection Math_atan2 kb (clientX p) (clientY p) /\
     exists key, activeKey kb = Some key /\ FlickKey.slot key d = Some c) /\
  activeKey (after (handleTouchEnd Math_atan2 kb p)) = None /\
  (isDragging kb = true ->
   activeKey (after (handleMouseUp Math_atan2 kb p)) = None) /\
  handleTouchEnd Math_atan2 (after (handleTouchEnd Math_atan2 kb p)) p'
    = {| returned := None; called := None;
         after := after (handleTouchEnd Math_atan2 kb p) |} /\
  handleMouseUp Math_atan2 (after (handleMouseUp Math_atan2 kb p)) p'
    = {| returned := None; called := None;
         after := after (handleMouseUp Math_atan2 kb p) |} /\
  (forall i dragging,
     length (getLayout kb) <= i ->
     handleTouchEnd Math_atan2 (press kb p i dragging) p'
       = {| returned := None; called := None; after := press kb p i dragging |} /\
     handleMouseUp Math_atan2 (press kb p i dragging) p'
       = {| returned := None; called := None; after := press kb p i dragging |}).
Proof.
assert (forall dragging c d,
  called (release Math_atan2 kb p dragging) = Some (c, d) ->
  onInput kb = true /\ c <> [] /\
  d = calculateDirection Math_atan2 kb (clientX p) (clientY p) /\
  exists key, activeKey kb = Some key /\ FlickKey.slot key d = Some c) as Hrel.
{ intros dragging c d. unfold release; simpl.
  set (dir := calculateDirection Math_atan2 kb (clientX p) (clientY p)).
  unfold getCharacterForDirection.
  destruct (activeKey kb) as [key|]; [|done].
  assert (forall x : option jsstring,
    match orNull x with
    | Some ch => if JS.truthy (orNull x) && onInput kb then Some (ch, dir) else None
    | None => None
    end = Some (c, d) ->
    onInput kb = true /\ c <> [] /\ d = dir /\ x = Some c) as Hslot.
  { intros [[|u us]|]; simpl; try done.
    destruct (onInput kb); [|done]. by intros [= <- <-]. }
  destruct dir eqn:Hd; simpl.
  - destruct (FlickKey.center key) as [|u us] eqn:Hc; simpl; [done|].
    destruct (onInput kb); [|done]. intros [= <- <-].
    repeat split; try done. exists key. simpl. by rewrite Hc.
  - intros (? & ? & -> & Hx)%Hslot. repeat split; try done. by exists key.
  - intros (? & ? & -> & Hx)%Hslot. repeat split; try done. by exists key.
  - intros (? & ? & -> & Hx)%Hslot. repeat split; try done. by exists key.
  - intros (? & ? & -> & Hx)%Hslot. repeat split; try done. by exists key. }
split; [|split; [|split; [|split; [|split; [|split]]]]].
- intros c d. unfold handleTouchEnd.
  destruct (activeKey kb) eqn:Hk; [|done]. intros H%Hrel. exact H.
- intros c d. unfold handleMouseUp.
  destruct (isDragging kb); [|done]. simpl.
  destruct (activeKey kb) eqn:Hk; [|done]. intros H%Hrel.
  destruct H as (? & ? & ? & ?). by repeat split.
- unfold handleTouchEnd. by destruct (activeKey kb) eqn:Hk.
- intros Hd. unfold handleMouseUp. rewrite Hd. simpl.
  by destruct (activeKey kb) eqn:Hk.
- unfold handleTouchEnd at 1 3.
  assert (activeKey (after (handleTouchEnd Math_atan2 kb p)) = None) as ->; [|done].
  unfold handleTouchEnd. by destruct (activeKey kb) eqn:Hk.
- unfold handleMouseUp at 1 3.
  destruct (isDragging (after (handleMouseUp Math_atan2 kb p))) eqn:Hd; [|done].
  simpl.
  assert (activeKey (after (handleMouseUp Math_atan2 kb p)) = None) as ->; [|done].
  unfold handleMouseUp in *. destruct (isDragging kb) eqn:Hd0; simpl in *.
  + by destruct (activeKey kb) eqn:Hk.
  + congruence.
- intros i dragging Hi.
  assert (activeKey (press kb p i dragging) = None) as Hnone.
  { unfold press; simpl. by apply lookup_ge_None_2. }
  unfold handleTouchEnd, handleMouseUp. rewrite Hnone.
  split; [done|]. by destruct (negb _).
Qed.

(** X9. The preview is the result.  What [handleTouchMove] returns for
    a point is what [handleTouchEnd] would return if the touch ended
    there, and the same for [handleMouseMove] and [handleMouseUp]; with
    no key pressed, or for the mouse with no drag under way, all four
    return null; and a mouse preview is always the touch preview of the
    same keyboard. *)
Theorem preview_is_what_release_returns (kb : t) (p : Pointer) :
  handleTouchMove Math_atan2 kb p = returned (handleTouchEnd Math_atan2 kb p) /\
  handleMouseMove Math_atan2 kb p = returned (handleMouseUp Math_atan2 kb p) /\
  (activeKey kb = None ->
   handleTouchMove Math_atan2 kb p = None /\
   handleMouseMove Math_atan2 kb p = None) /\
  (isDragging kb = false -> handleMouseMove Math_atan2 kb p = None) /\
  (forall r, handleMouseMove Math_atan2 kb p = Some r ->
             handleTouchMove Math_atan2 kb p = Some r).
Proof.
unfold handleMouseMove, handleMouseUp, handleTouchMove, handleTouchEnd.
destruct (isDragging kb), (activeKey kb); simpl; by repeat split.
Qed.

(** X10. After [cleanup] the keyboard is silent.  No key is pressed and
    no drag is under way, so previews and releases return null; a gesture
    made afterwards still resolves to the same direction and character as
    before, but the input callback is not called; and the two maps are
    untouched. *)
Theorem cleanup_silences_the_keyboard (kb : t) (p p' : Pointer) (i : nat) :
  let quiet := cleanup kb in
  handleTouchMove Math_atan2 quiet p = None /\
  handleMouseMove Math_atan2 quiet p = None /\
  handleTouchEnd Math_atan2 quiet p
    = {| returned := None; called := None; after := quiet |} /\
  handleMouseUp Math_atan2 quiet p
    = {| returned := None; called := None; after := quiet |} /\
  called (handleTouchEnd Math_atan2 (handleTouchStart quiet p i) p') = None /\
  called (handleMouseUp Math_atan2 (handleMouseDown quiet p i) p') = None /\
  returned (handleTouchEnd Math_atan2 (handleTouchStart quiet p i) p')
    = returned (handleTouchEnd Math_atan2 (handleTouchStart kb p i) p') /\
  returned (handleMouseUp Math_atan2 (handleMouseDown quiet p i) p')
    = returned (handleMouseUp Math_atan2 (handleMouseDown kb p i) p') /\
  (forall ch, getKeyForChar quiet ch = getKeyForChar kb ch /\
              getKeyIndexForChar quiet ch = getKeyIndexForChar kb ch).
Proof.
intros quiet.
split; [done|]. split; [done|]. split; [done|]. split; [done|].
assert (getLayout quiet = getLayout kb) as Hl by done.
unfold handleTouchEnd, handleMouseUp, handleTouchStart, handleMouseDown, press;
  simpl. rewrite Hl.
destruct (getLayout kb !! i) as [key|] eqn:Hk; simpl.
- unfold release; simpl.
  split; [by destruct (getCharacterForDirection _ _); rewrite ?andb_false_r|].
  split; [by destruct (getCharacterForDirection _ _); rewrite ?andb_false_r|].
  unfold calculateDirection, getCharacterForDirection; simpl.
  by repeat split.
- by repeat split.
Qed.

End WithMath.
End KeyboardMore.

(** ** More on the session: the log, the track and the highlight *)

Module GameMore.
Import Kana GameScreen.
Section WithRandom.

Context {SeededRandom : Type}.
Variable weightedPick :
  SeededRandom -> list jsstring -> list float -> jsstring * SeededRandom.

Local Abbreviation picks_nonempty := (Generator.picks_nonempty weightedPick).
Local Abbreviation renderTrack := (renderTrack weightedPick).
Local Abbreviation handleFlickInput := (handleFlickInput weightedPick).
Local Abbreviation commitComposed := (commitComposed weightedPick).
Local Abbreviation t := (GameScreen.t (SeededRandom := SeededRandom)).
Local Abbreviation reachable := (reachable weightedPick).
Local Abbreviation reachableFrom := (Session.reachableFrom weightedPick).

(** The loop that tops the text up only appends, and when it ends the
    text is as long as asked. *)
Lemma topUp_grows (gfuel fuel : nat) :
  forall (g g' : Generator.CharacterGenerator) (chars chars' : jsstring)
         (bound : nat),
  topUp weightedPick gfuel fuel g chars bound = Some (chars', g') ->
  chars `prefix_of` chars' /\ bound <= length chars'.
Proof.
induction fuel as [|fuel IH]; intros g g' chars chars' bound H; simpl in H.
- destruct (decide _); [done|]. simplify_eq. split; [done|lia].
- destruct (decide _).
  + destruct (Generator.generate _ _ _ _) as [[more g1]|]; [|done].
    apply IH in H as [Hp Hb]. split; [|done].
    etrans; [|exact Hp]. by apply prefix_app_r.
  + simplify_eq. split; [done|lia].
Qed.

(** What drawing the track does to the text. *)
Lemma renderTrack_text (fuel : nat) (s s' : t) :
  renderTrack fuel s = Some s' ->
  trackEl s' = trackEl s /\
  currentIndex s' = currentIndex s /\
  characters s `prefix_of` characters s' /\
  (trackEl s = false -> characters s' = characters s) /\
  (trackEl s = true -> currentIndex s' < length (characters s')).
Proof.
unfold GameScreen.renderTrack. destruct (trackEl s) eqn:Ht.
- destruct (topUp _ _ _ _ _ _) as [[chars g]|] eqn:E; [|done].
  intros [= <-]. simpl. apply topUp_grows in E as [Hp Hb].
  repeat split; try done. intros _. lia.
- intros [= <-]. by repeat split.
Qed.

(** What a call of the handler does to the text and to the cursor's
    place in it. *)
Lemma handleFlickInput_text (fuel : nat) (s s' : t) (now : float)
    (c : jsstring) (d : FlickDirection) :
  handleFlickInput fuel s now c d = Some s' ->
  trackEl s' = trackEl s /\
  characters s `prefix_of` characters s' /\
  (trackEl s = false -> characters s' = characters s) /\
  (Session.textReady s -> Session.textReady s').
Proof.
assert (forall x : t,
  trackEl x = trackEl s -> characters x = characters s ->
  renderTrack fuel x = Some s' ->
  trackEl s' = trackEl s /\
  characters s `prefix_of` characters s' /\
  (trackEl s = false -> characters s' = characters s) /\
  (Session.textReady s -> Session.textReady s')) as Hcommit.
{ intros x Ht Hc (H1 & H2 & H3 & H4 & H5)%renderTrack_text.
  rewrite Ht, Hc in *. repeat split; try done.
  intros _ Htr. apply H5. congruence. }
assert (forall x : t,
  trackEl x = trackEl s -> characters x = characters s ->
  currentIndex x = currentIndex s ->
  Some x = Some s' ->
  trackEl s' = trackEl s /\
  characters s `prefix_of` characters s' /\
  (trackEl s = false -> characters s' = characters s) /\
  (Session.textReady s -> Session.textReady s')) as Hstay.
{ intros x Ht Hc Hi [= <-]. rewrite Hc. repeat split; try done.
  unfold Session.textReady. by rewrite Ht, Hi, Hc. }
unfold GameScreen.handleFlickInput, GameScreen.commitComposed.
destruct (isCountdown s || negb (isRunning s)); [by apply Hstay|].
destruct (bool_decide (c = dakutenKey) || bool_decide (c = handakutenKey)).
- destruct (JS.truthy (pendingBaseChar s)); [|by apply Hstay].
  destruct (bool_decide (pendingDakutenType s = Some Handakuten)
            && bool_decide (c = dakutenKey)).
  + simpl. destruct (decide (S (pendingDakutenCount s) < 2)); [by apply Hstay|].
    by apply Hcommit.
  + by apply Hcommit.
- destruct (needsDakutenOf s _).
  + destruct (bool_decide _); [by apply Hstay|by apply Hcommit].
  + by apply Hcommit.
Qed.

Lemma reachableFrom_fresh (s0 s : t) :
  fresh s0 -> reachableFrom s0 s -> reachable s.
Proof.
intros Hf. induction 1 as [|fuel s s' now c d _ IH Hstep].
- by constructor.
- by econstructor.
Qed.

Lemma session_keeps_books_aux (s0 s : t) :
  fresh s0 -> reachableFrom s0 s -> currentIndex s = length (strokes s).
Proof.
intros Hf Hr.
by destruct (GameFacts.reachable_wellFormed weightedPick s
               (reachableFrom_fresh s0 s Hf Hr)).
Qed.


Lemma linedUp_step (fuel : nat) (s s' : t) (now : float) (c : jsstring)
    (d : FlickDirection) :
  currentIndex s = length (strokes s) ->
  Session.textReady s -> Session.linedUp s ->
  handleFlickInput fuel s now c d = Some s' ->
  Session.linedUp s'.
Proof.
intros Hidx Hready Hl Hstep.
pose proof (handleFlickInput_text _ _ _ _ _ _ Hstep) as (Ht & Hpre & Hsame & _).
assert (forall i, i <= currentIndex s ->
  JS.charAt (characters s') i = JS.charAt (characters s) i) as Hchar.
{ intros i Hi. unfold JS.charAt. f_equal.
  destruct (trackEl s) eqn:Htr.
  - destruct (characters s !! i) as [u|] eqn:E.
    + by eapply prefix_lookup_Some.
    + apply lookup_ge_None in E. specialize (Hready Htr). lia.
  - by rewrite Hsame. }
apply GameFacts.handleFlickInput_transition in Hstep.
assert (forall stroke chars g x,
  strokes x = strokes s ++ [stroke] -> expected stroke = expectedOf s ->
  s' = setText chars g x -> Session.linedUp s') as Hcommit.
{ intros stroke chars g x Hx He -> i st. simpl. rewrite Hx.
  intros Hi. change chars with (characters (setText chars g x)).
  apply lookup_app_Some in Hi as [Hi|[Hlen Hi]].
  - rewrite Hchar; [by apply Hl|].
    apply lookup_lt_Some in Hi. lia.
  - apply list_lookup_singleton_Some in Hi as [Hz <-].
    assert (i = currentIndex s) as -> by lia.
    rewrite Hchar by lia. exact He. }
destruct Hstep as [| | |stroke chars g He|stroke chars g _ He].
- done.
- exact Hl.
- exact Hl.
- eapply (Hcommit stroke chars g); [|exact He|reflexivity]. reflexivity.
- eapply (Hcommit stroke chars g); [|exact He|reflexivity]. reflexivity.
Qed.

(** X12. The colours of the track are those of the log.  In every
    session that inputs lead to from a fresh one whose cursor is on a
    character of the text, the stroke at place [i] of the log was made
    for the character at place [i] of the text, and it is the stroke
    [renderTrack] colours that place with; places from the cursor on
    have no stroke. *)
Theorem track_shows_the_log (s0 s : t) :
  fresh s0 -> Session.textReady s0 -> reachableFrom s0 s ->
  (forall i st,
     strokes s !! i = Some st ->
     i < currentIndex s /\
     expected st = JS.charAt (characters s) i /\
     GameView.strokeFor s i = Some st) /\
  (forall i, currentIndex s <= i -> GameView.strokeFor s i = None) /\
  Session.textReady s.
Proof.
intros Hf Hready Hr.
assert (Session.linedUp s /\ Session.textReady s /\ currentIndex s = length (strokes s))
  as (Hl & Hrd & Hidx).
{ induction Hr as [|fuel s s' now c d Hr IH Hstep].
  - destruct Hf as (Hs & Hi & _). split; [|split; [done|by rewrite Hs, Hi]].
    intros i st. by rewrite Hs.
  - destruct IH as (Hl & Hrd & Hidx).
    split; [by eapply linedUp_step|]. split.
    + by eapply handleFlickInput_text.
    + by destruct (session_keeps_books_aux s0 s' Hf
                     (Session.reached_step _ _ _ _ _ _ _ _ Hr Hstep)). }
assert (forall i, GameView.strokeFor s i = strokes s !! i) as Hfor.
{ intros i. unfold GameView.strokeFor. rewrite Hidx.
  rewrite bool_decide_eq_true_2 by lia. f_equal. lia. }
split; [|split; [|done]].
- intros i st Hi. split; [apply lookup_lt_Some in Hi; lia|].
  split; [by apply Hl|]. by rewrite Hfor.
- intros i Hi. rewrite Hfor. apply lookup_ge_None. lia.
Qed.

Lemma framed_refl_like (s x : t) :
  config x = config s -> flickKeyboard x = flickKeyboard s ->
  startTime x = startTime s -> isRunning x = isRunning s ->
  isCountdown x = isCountdown s -> trackEl x = trackEl s ->
  characters x = characters s ->
  Session.framed s x.
Proof.
intros ? ? ? ? ? ? Hc. unfold Session.framed. by rewrite Hc.
Qed.

(** A commit: [x] is the session with the stroke pushed, the composition
    cleared and the cursor moved, about to be drawn. *)
Lemma commit_outcome (fuel : nat) (s x s' : t) (now : float)
    (inp : jsstring) (ok : bool) (d : FlickDirection) :
  renderTrack fuel x = Some s' ->
  config x = config s -> flickKeyboard x = flickKeyboard s ->
  startTime x = startTime s -> isRunning x = isRunning s ->
  isCountdown x = isCountdown s -> trackEl x = trackEl s ->
  characters x = characters s ->
  strokes x = strokes s ++ [strokeAt s now inp (expectedOf s) ok d] ->
  currentIndex x = S (currentIndex s) ->
  pendingBaseChar x = None -> pendingDakutenType x = None ->
  Session.framed s s' /\ Session.appendedOne s now d s'.
Proof.
intros Hr ? ? ? ? ? ? Hc Hst ? ? ?.
pose proof (renderTrack_text _ _ _ Hr) as (Ht & _ & Hpre & _).
apply GameFacts.renderTrack_frame in Hr.
split.
- rewrite Hr; simpl. unfold Session.framed; simpl.
  repeat (split; [done|]). by rewrite <- Hc.
- eexists. rewrite Hr; simpl. by rewrite Hst.
Qed.

(** X13. An input adds at most one stroke, at the end of the log, and
    moves the cursor with it.  Whenever the handler returns, the
    configuration, the keyboard, the start time and the two run flags are
    as before and the old text is the beginning of the new one; and
    either the log, the cursor and the text are untouched, or exactly one
    stroke was appended, made for the character the cursor was on, at the
    time and with the direction of the input, the cursor is one further
    and nothing is pending.  While the countdown runs or the session does
    not, nothing changes at all. *)
Theorem input_appends_at_most_one (fuel : nat) (s s' : t) (now : float)
    (c : jsstring) (d : FlickDirection) :
  handleFlickInput fuel s now c d = Some s' ->
  Session.framed s s' /\
  (Session.kept s s' \/ Session.appendedOne s now d s') /\
  (isCountdown s = true \/ isRunning s = false -> s' = s).
Proof.
assert (forall x : t,
  config x = config s -> flickKeyboard x = flickKeyboard s ->
  startTime x = startTime s -> isRunning x = isRunning s ->
  isCountdown x = isCountdown s -> trackEl x = trackEl s ->
  characters x = characters s ->
  strokes x = strokes s -> currentIndex x = currentIndex s ->
  Some x = Some s' ->
  Session.framed s s' /\
  (Session.kept s s' \/ Session.appendedOne s now d s')) as Hstay.
{ intros x ? ? ? ? ? ? ? ? ? [= <-].
  split; [by apply framed_refl_like|by left]. }
assert (forall (inp : jsstring) (ok : bool) (x : t),
  config x = config s -> flickKeyboard x = flickKeyboard s ->
  startTime x = startTime s -> isRunning x = isRunning s ->
  isCountdown x = isCountdown s -> trackEl x = trackEl s ->
  characters x = characters s ->
  strokes x = strokes s ++ [strokeAt s now inp (expectedOf s) ok d] ->
  currentIndex x = S (currentIndex s) ->
  pendingBaseChar x = None -> pendingDakutenType x = None ->
  renderTrack fuel x = Some s' ->
  Session.framed s s' /\
  (Session.kept s s' \/ Session.appendedOne s now d s')) as Hcommit.
{ intros inp ok x ? ? ? ? ? ? ? ? ? ? ? Hr.
  destruct (commit_outcome fuel s x s' now inp ok d) as [Hf Ha]; try done.
  split; [done|by right]. }
unfold GameScreen.handleFlickInput, GameScreen.commitComposed.
destruct (isCountdown s) eqn:Hcd; simpl.
{ intros [= <-]. split; [by apply framed_refl_like|]. split; [by left|done]. }
destruct (isRunning s) eqn:Hrun; simpl.
2:{ intros [= <-]. split; [by apply framed_refl_like|]. split; [by left|done]. }
intros H.
cut (Session.framed s s' /\ (Session.kept s s' \/ Session.appendedOne s now d s')).
{ intros [? ?]. split; [done|]. split; [done|]. by intros [?|?]. }
revert H. fold (expectedOf s).
destruct (bool_decide (c = dakutenKey) || bool_decide (c = handakutenKey)).
- destruct (JS.truthy (pendingBaseChar s)); [|by apply Hstay].
  destruct (bool_decide (pendingDakutenType s = Some Handakuten)
            && bool_decide (c = dakutenKey)).
  + simpl. destruct (decide (S (pendingDakutenCount s) < 2)); [by apply Hstay|].
    destruct (JS.truthy _ && bool_decide _).
    * eapply Hcommit; simpl; done.
    * eapply Hcommit; simpl; done.
  + destruct (JS.truthy _ && bool_decide _);
      eapply Hcommit; simpl; done.
- destruct (needsDakutenOf s _).
  + destruct (bool_decide _); [by apply Hstay|].
    eapply Hcommit; simpl; done.
  + eapply Hcommit; simpl; done.
Qed.

(** The tally, from any table: the counts of a key grow by its correct
    strokes and by its misses. *)
Lemma fold_tally_lookup (log : list FlickStroke)
    (stats : gmap jsstring CharStat) (k : jsstring) :
  fold_left tally log stats !! k =
    match stats !! k with
    | Some o =>
        Some {| stat_correct := stat_correct o + Session.hits k log;
                stat_miss := stat_miss o + Session.misses k log |}
    | None =>
        if decide (Session.hits k log + Session.misses k log = 0) then None
        else Some {| stat_correct := Session.hits k log;
                     stat_miss := Session.misses k log |}
    end.
Proof.
revert stats. induction log as [|st log IH]; intros stats.
- simpl. unfold Session.hits, Session.misses; simpl.
  destruct (stats !! k) as [[a b]|]; [|done].
  simpl. by rewrite !Nat.add_0_r.
- simpl. rewrite IH. unfold tally.
  fold (Session.keyOf st).
  unfold Session.hits, Session.misses; simpl.
  destruct (decide (Session.keyOf st = k)) as [Hk|Hk].
  + rewrite bool_decide_eq_true_2 by done. subst k.
    rewrite lookup_insert. rewrite decide_True by done.
    destruct (stats !! Session.keyOf st) as [[a b]|]; simpl;
      destruct (correct st); simpl; rewrite ?Nat.add_succ_r; try done;
      case_decide; simpl in *; try lia; done.
  + rewrite bool_decide_eq_false_2 by done. simpl.
    rewrite lookup_insert. rewrite decide_False by done. done.
Qed.

(** X14. The per-character figures of the result.  For every key, the
    table [charStats] that [endGame] hands on has no entry when no stroke
    of the log was made for that character, and otherwise holds exactly
    the number of correct strokes and the number of misses made for it. *)
Theorem charStats_counts_the_log (s : t) (k : jsstring) :
  res_charStats (endGame s).1 !! k =
    if decide (Session.hits k (strokes s) + Session.misses k (strokes s) = 0)
    then None
    else Some {| stat_correct := Session.hits k (strokes s);
                 stat_miss := Session.misses k (strokes s) |}.
Proof.
unfold endGame; simpl. by rewrite fold_tally_lookup, lookup_empty.
Qed.

(** X15. The accuracy on screen and the accuracy of the result.  Once a
    stroke is logged, the accuracy [updateStats] shows during the game is
    the one [endGame] reports, whatever the clock says; with an empty log
    the screen shows 100 and the result holds 0. *)
Theorem live_and_final_accuracy (s : t) (now : float) :
  (strokes s <> [] ->
   (GameView.updateStats s now).2 = res_accuracy (endGame s).1) /\
  (strokes s = [] ->
   (GameView.updateStats s now).2 = 100%float /\
   res_accuracy (endGame s).1 = 0%float /\
   res_cpm (endGame s).1 =
     (0 / (Config.duration (Config.game (config s)) / 60))%float).
Proof.
unfold GameView.updateStats, endGame; simpl. split.
- intros Hne. destruct (strokes s); [done|]. done.
- intros ->. done.
Qed.

(** In every session the handler can lead to, what is pending is a base
    that the table of the pending kind sends to the expected character. *)
Lemma reachable_pending_entry (s : t) (b : jsstring) (kind : DakutenType) :
  reachable s ->
  NoDup (JS.keys (Session.tableOf kind (config s))) ->
  pendingBaseChar s = Some b ->
  pendingDakutenType s = Some kind ->
  exists e,
    expectedOf s = Some e /\ e <> [] /\
    JS.get (Session.tableOf kind (config s)) b = Some e.
Proof.
intros Hreach Hnd Hb Ht.
destruct (GameFacts.reachable_wellFormed _ s Hreach) as (_ & _ & _ & Hpend).
destruct (Hpend b Hb) as (kind' & Hk & Hneeds & Hbase).
assert (kind' = kind) as -> by congruence.
destruct (GameFacts.reachable_keyboard _ s Hreach) as (kb & Hkb & Hcfg).
unfold needsDakutenOf, getBaseCharOf in *. rewrite Hkb in Hneeds, Hbase.
destruct (expectedOf s) as [e|] eqn:He; [|done].
exists e. split; [done|]. split.
{ unfold expectedOf, JS.charAt in He.
  destruct (characters s !! currentIndex s); simplify_eq/=. done. }
unfold FlickKeyboard.needsDakuten, FlickKeyboard.getBaseChar in *.
rewrite Hcfg in Hneeds, Hbase.
destruct (FlickKeyboard.isMarkedBy (Config.dakutenMap (config s)) e) eqn:Hd.
- injection Hneeds as <-. simpl in *.
  destruct (KeyboardMore.findBase_is_Some _ _ Hd) as [b' Hb'].
  rewrite Hb' in Hbase. injection Hbase as ->.
  apply GameFacts.get_entry; [done|]. by apply GameFacts.findBase_Some.
- rewrite (GameFacts.findBase_None _ _ Hd) in Hbase.
  destruct (FlickKeyboard.isMarkedBy (Config.handakutenMap (config s)) e);
    [|done].
  injection Hneeds as <-. simpl in *.
  apply GameFacts.get_entry; [done|]. by apply GameFacts.findBase_Some.
Qed.

(** X16. Completing a composition with its own key is always right.  In
    a running session that the handler has led to, with a base pending
    and no key repeated in the table of the pending kind, one input of
    the diacritic key of that kind (the dakuten key for a dakuten
    composition, the handakuten key for a handakuten one) commits one
    stroke that is correct and whose input is the expected character; the
    cursor moves on by one and nothing is pending. *)
Theorem own_key_completes_correctly (fuel : nat) (s : t) (now : float)
    (d : FlickDirection) (b : jsstring) (kind : DakutenType) :
  reachable s -> running s ->
  NoDup (JS.keys (Session.tableOf kind (config s))) ->
  pendingBaseChar s = Some b -> b <> [] ->
  pendingDakutenType s = Some kind ->
  picks_nonempty (generator s) -> fuelFor s fuel ->
  exists s' e,
    expectedOf s = Some e /\
    handleFlickInput fuel s now (Session.markKey kind) d = Some s' /\
    strokes s' = strokes s ++
      [{| input := e; expected := Some e; correct := true;
          timestamp := (now - startTime s)%float; flickDirection := d |}] /\
    currentIndex s' = S (currentIndex s) /\
    pendingBaseChar s' = None /\ pendingDakutenType s' = None /\
    pendingDakutenCount s' = 0.
Proof.
intros Hreach [Hcd Hr] Hnd Hb Hne Ht Hp Hf.
destruct (reachable_pending_entry s b kind Hreach Hnd Hb Ht)
  as (e & He & Hene & Hget).
destruct (GameFacts.commitComposed_total weightedPick fuel s now
            (Session.markKey kind) d (expectedOf s) b e)
  as (s' & H & Hs & Hi & Hpb & Hpt & Hpc); try done.
{ by destruct kind. }
exists s', e. split; [done|]. split.
- unfold GameScreen.handleFlickInput. rewrite Hcd, Hr, Hb, Ht; simpl.
  destruct b; [done|]. destruct kind; exact H.
- rewrite Hs, He. rewrite bool_decide_eq_true_2 by done. done.
Qed.

(** A direction found for a character is a slot of its key that holds
    it. *)
Lemma getDirectionForChar_slot (kb : FlickKeyboard.t) (ch : jsstring)
    (d : FlickDirection) :
  FlickKeyboard.getDirectionForChar kb ch = Some d ->
  exists key,
    FlickKeyboard.getKeyForChar kb ch = Some key /\
    FlickKey.slot key d = Some ch.
Proof.
unfold FlickKeyboard.getDirectionForChar, FlickKeyboard.getKeyForChar.
destruct (FlickKeyboard.charToKey kb !! ch) as [key|]; [|done].
intros H. exists key. split; [done|].
repeat case_bool_decide; simplify_eq; simpl; by f_equal.
Qed.

Lemma wellBuilt_index (kb : FlickKeyboard.t) (ch : jsstring) (key : FlickKey.t) :
  KeyboardState.wellBuilt kb ->
  FlickKeyboard.getKeyForChar kb ch = Some key ->
  (0 <= FlickKeyboard.getKeyIndexForChar kb ch)%Z /\
  FlickKeyboard.getLayout kb
    !! Z.to_nat (FlickKeyboard.getKeyIndexForChar kb ch) = Some key.
Proof.
intros Hw Hk. specialize (Hw ch). simpl in Hw.
unfold FlickKeyboard.getKeyForChar in Hk. rewrite Hk in Hw.
unfold FlickKeyboard.getKeyIndexForChar.
destruct (FlickKeyboard.charToKeyIndex kb !! ch) as [i|]; [|done].
split; [lia|]. by rewrite Nat2Z.id.
Qed.

(** X17. The highlight points at a key of the layout that carries what
    is to be pressed.  On a keyboard whose two maps are in step, whenever
    [highlightNextKey] marks a key, the keyboard element exists and the
    setting is on, and the index marked is that of a key of the layout.
    While a composition is pending it is the key of the dakuten key,
    marked for a tap.  Otherwise it is the key the map has for the
    expected character, and the direction shown is a slot that holds the
    character to press first (the base of a character that needs a
    diacritic, the character itself otherwise) on the key the map has for
    that character; when that is the marked key, pressing it and flicking
    in the direction shown reads that character. *)
Theorem highlight_points_at_first_press (keyboardEl showKeyHighlight : bool)
    (s : t) (kb : FlickKeyboard.t) (h : Highlight) :
  flickKeyboard s = Some kb ->
  KeyboardState.wellBuilt kb ->
  GameView.highlightNextKey keyboardEl showKeyHighlight s = Marked h ->
  keyboardEl = true /\ showKeyHighlight = true /\
  (0 <= hl_keyIndex h)%Z /\
  exists key,
    FlickKeyboard.getLayout kb !! Z.to_nat (hl_keyIndex h) = Some key /\
    if hl_dakutenPending h then
      JS.truthy (pendingBaseChar s) = true /\
      is_Some (pendingDakutenType s) /\
      hl_direction h = Center /\
      FlickKeyboard.getKeyForChar kb dakutenKey = Some key
    else
      exists e keyT,
        expectedOf s = Some e /\
        FlickKeyboard.getKeyForChar kb e = Some key /\
        FlickKeyboard.getKeyForChar kb (GameView.firstPress kb e) = Some keyT /\
        FlickKey.slot keyT (hl_direction h) = Some (GameView.firstPress kb e) /\
        (keyT = key ->
         forall p,
           FlickKeyboard.getCharacterForDirection
             (FlickKeyboard.handleTouchStart kb p (Z.to_nat (hl_keyIndex h)))
             (hl_direction h) = Some (GameView.firstPress kb e)).
Proof.
intros Hkb Hw. unfold GameView.highlightNextKey. rewrite Hkb.
destruct keyboardEl; [|done]. destruct showKeyHighlight; [|done]. simpl.
destruct (JS.truthy (pendingBaseChar s) &&
          bool_decide (is_Some (pendingDakutenType s))) eqn:Hpend.
- apply andb_true_iff in Hpend as [Htr Hty%bool_decide_eq_true].
  destruct (bool_decide _ && GameView.keyElFound kb _) eqn:Hfound; [|done].
  intros [= <-]; simpl.
  apply andb_true_iff in Hfound as [Hpos%bool_decide_eq_true _].
  split; [done|]. split; [done|]. split; [done|].
  unfold FlickKeyboard.getKeyIndexForChar in *.
  pose proof (Hw dakutenKey) as Hd. simpl in Hd.
  unfold FlickKeyboard.getKeyForChar.
  destruct (FlickKeyboard.charToKeyIndex kb !! dakutenKey) as [i|]; [|lia].
  destruct (FlickKeyboard.charToKey kb !! dakutenKey) as [key|]; [|done].
  exists key. by rewrite Nat2Z.id.
- fold (expectedOf s).
  destruct (expectedOf s) as [e|] eqn:He; [|done]. simpl.
  destruct (FlickKeyboard.getKeyForChar kb e) as [key|] eqn:Hkey; [|done].
  assert (e <> []) as Hene.
  { unfold expectedOf, JS.charAt in He.
    destruct (characters s !! currentIndex s); simplify_eq/=. done. }
  set (dir := match FlickKeyboard.needsDakuten kb e with
              | Some _ => _ | None => _ end).
  assert (dir = FlickKeyboard.getDirectionForChar kb (GameView.firstPress kb e))
    as Hdir.
  { subst dir. unfold GameView.firstPress.
    destruct (FlickKeyboard.needsDakuten kb e); [|done].
    destruct (FlickKeyboard.getBaseChar kb e) as [[|u us]|]; done. }
  assert (GameView.firstPress kb e <> []) as Hfne.
  { unfold GameView.firstPress.
    destruct (FlickKeyboard.needsDakuten kb e); [|done].
    destruct (FlickKeyboard.getBaseChar kb e) as [[|u us]|]; done. }
  rewrite Hdir. clear Hdir dir.
  destruct (FlickKeyboard.getDirectionForChar kb _) as [d|] eqn:Hd; [|done].
  destruct (bool_decide _ && GameView.keyElFound kb _) eqn:Hfound; [|done].
  intros [= <-]; simpl.
  split; [done|]. split; [done|].
  destruct (wellBuilt_index kb e key Hw Hkey) as [Hpos Hlay].
  split; [done|]. exists key. split; [done|].
  destruct (getDirectionForChar_slot kb _ d Hd) as (keyT & HkT & Hslot).
  exists e, keyT. split; [done|]. split; [done|]. split; [done|].
  split; [done|]. intros -> p.
  unfold FlickKeyboard.getCharacterForDirection, FlickKeyboard.handleTouchStart,
    FlickKeyboard.press; simpl.
  rewrite Hlay.
  destruct d; simpl in Hslot; [exact Hslot|..];
    rewrite Hslot; unfold FlickKeyboard.orNull;
    by destruct (GameView.firstPress kb e).
Qed.

(** X18. Nothing counts after the end.  The screen [endGame] leaves
    behind is stopped and has no keyboard; every input made to it is
    dropped, leaving it as it is; [highlightNextKey] returns at once and
    leaves the marks on the keys as they are; and ending it again gives
    the same result. *)
Theorem nothing_counts_after_the_end (fuel : nat) (s : t) (now : float)
    (c : jsstring) (d : FlickDirection) (keyboardEl showKeyHighlight : bool) :
  let over := (endGame s).2 in
  isRunning over = false /\ isCountdown over = false /\
  flickKeyboard over = None /\
  strokes over = strokes s /\
  handleFlickInput fuel over now c d = Some over /\
  GameView.highlightNextKey keyboardEl showKeyHighlight over = Untouched /\
  (endGame over).1 = (endGame s).1 /\
  cleanup over = over.
Proof.
by repeat split.
Qed.

End WithRandom.
End GameMore.

(** ** The start of a game *)

Module StartFacts.
Import Kana GameScreen.
Section WithRandom.

Context {SeededRandom : Type}.
Variable newSeededRandom : float -> SeededRandom.
Variable weightedPick :
  SeededRandom -> list jsstring -> list float -> jsstring * SeededRandom.

Local Abbreviation picks_nonempty := (Generator.picks_nonempty weightedPick).
Local Abbreviation handleFlickInput := (handleFlickInput weightedPick).
Local Abbreviation render := (GameStart.render newSeededRandom weightedPick).
Local Abbreviation t := (GameScreen.t (SeededRandom := SeededRandom)).

(** [render] returns, and what it leaves. *)
Lemma render_total (fuel : nat) (prev : t) (data : GameData) :
  picks_nonempty
    (Generator.new newSeededRandom (seed data) (config prev) (inputMode data)) ->
  GameStart.fuelForRender prev fuel ->
  exists s,
    render fuel prev data = Some s /\
    strokes s = [] /\ currentIndex s = 0 /\
    isCountdown s = true /\ isRunning s = isRunning prev /\
    config s = config prev /\ gameData s = data /\ trackEl s = true /\
    flickKeyboard s
      = Some (FlickKeyboard.setOnInput
                (FlickKeyboard.new (config prev) (inputMode data))) /\
    100 <= length (characters s) /\
    pendingBaseChar s = pendingBaseChar prev /\
    pendingDakutenType s = pendingDakutenType prev /\
    pendingDakutenCount s = pendingDakutenCount prev /\
    picks_nonempty (generator s).
Proof.
intros Hp [Hf1 Hf2]. unfold GameStart.render.
destruct (GeneratorFacts.generate_loop_terminates weightedPick fuel _ [] 100 Hp)
  as [[chars g'] Hgen]; [simpl; lia|].
unfold Generator.generate. rewrite Hgen.
apply GeneratorFacts.generate_loop_extends in Hgen as (_ & Hlen & Hc & Hw).
match goal with
| |- context [GameScreen.renderTrack _ _ ?s0] =>
    destruct (GameFacts.renderTrack_total weightedPick fuel s0)
      as (s' & Hr & Heq & Hpre & Hp')
end.
{ by eapply GameFacts.picks_nonempty_tables. }
{ simpl. lia. }
rewrite Hr. simpl. eexists. split; [done|].
rewrite Heq; simpl.
repeat (split; [done|]).
split; [|done]. simpl in Hpre.
apply prefix_length in Hpre. lia.
Qed.



(** X26. [render] starts a game afresh but for the composition.  With
    picks that are never empty, [render] returns; the log is empty, the
    cursor at 0 on a text of at least a hundred characters, the keyboard
    built for the input mode with the callback set, and the countdown on,
    so that inputs are dropped.  The pending base, its kind and the count
    of presses are not assigned: they are what the screen object held
    before, so the session is a fresh one exactly when the object held no
    composition. *)
Theorem render_resets_all_but_the_composition (fuel : nat) (prev : t)
    (data : GameData) :
  picks_nonempty
    (Generator.new newSeededRandom (seed data) (config prev) (inputMode data)) ->
  GameStart.fuelForRender prev fuel ->
  exists s,
    render fuel prev data = Some s /\
    strokes s = [] /\ currentIndex s = 0 /\
    100 <= length (characters s) /\ Session.textReady s /\
    config s = config prev /\ gameData s = data /\
    flickKeyboard s
      = Some (FlickKeyboard.setOnInput
                (FlickKeyboard.new (config prev) (inputMode data))) /\
    isCountdown s = true /\
    (forall fuel' now c d, handleFlickInput fuel' s now c d = Some s) /\
    pendingBaseChar s = pendingBaseChar prev /\
    pendingDakutenType s = pendingDakutenType prev /\
    pendingDakutenCount s = pendingDakutenCount prev /\
    (fresh s <->
     pendingBaseChar prev = None /\ pendingDakutenType prev = None /\
     pendingDakutenCount prev = 0).
Proof.
intros Hp Hf.
destruct (render_total fuel prev data Hp Hf)
  as (s & Hr & Hs & Hi & Hcd & _ & Hcfg & Hd & Ht & Hkb & Hlen & Hb & Hk & Hc & _).
exists s. split; [done|]. split; [done|]. split; [done|]. split; [done|].
split; [intros _; lia|]. split; [done|]. split; [done|]. split; [done|].
split; [done|]. split.
{ intros fuel' now c d. unfold GameScreen.handleFlickInput. by rewrite Hcd. }
split; [done|]. split; [done|]. split; [done|].
unfold fresh. rewrite Hs, Hi, Hb, Hk, Hc, Hkb, Hcfg. split.
- by intros (_ & _ & ? & ? & ? & _).
- intros (? & ? & ?). repeat (split; [done|]). by eexists.
Qed.

(** X27. A composition left pending counts in the next game.  Let a game
    end while a base is pending, and let [render] and the end of the
    countdown start the next game on the same screen object.  The new
    session runs with that base still pending, and the first press of the
    diacritic key of the pending kind is not dropped, as it is in a fresh
    session, but commits the first stroke of the new game, made for the
    first character of the new text. *)
Theorem stale_composition_counts_in_next_game (fuel : nat) (prev : t)
    (data : GameData) (now now' : float) (d : FlickDirection)
    (b : jsstring) (kind : DakutenType) :
  pendingBaseChar prev = Some b -> b <> [] ->
  pendingDakutenType prev = Some kind ->
  picks_nonempty
    (Generator.new newSeededRandom (seed data) (config prev) (inputMode data)) ->
  GameStart.fuelForRender prev fuel ->
  exists s s' st,
    render fuel (endGame prev).2 data = Some s /\
    running (GameStart.startGame s now) /\
    strokes (GameStart.startGame s now) = [] /\
    pendingBaseChar (GameStart.startGame s now) = Some b /\
    handleFlickInput fuel (GameStart.startGame s now) now'
      (Session.markKey kind) d = Some s' /\
    strokes s' = [st] /\ currentIndex s' = 1 /\
    expected st = JS.charAt (characters s) 0 /\
    timestamp st = (now' - now)%float /\
    pendingBaseChar s' = None.
Proof.
intros Hb Hne Hk Hp Hf.
destruct (render_total fuel (endGame prev).2 data Hp Hf)
  as (s & Hr & Hs & Hi & Hcd & _ & Hcfg & Hd & Ht & Hkb & Hlen & Hb' & Hk' & Hc & Hps).
simpl in Hb', Hk', Hc, Hcfg. rewrite Hb in Hb'. rewrite Hk in Hk'.
set (s1 := GameStart.startGame s now).
assert (forall stroke : FlickStroke,
  exists s',
    renderTrack weightedPick fuel
      (nextIndex (setPendingCount 0 (setPending None None (pushStroke stroke s1))))
      = Some s' /\
    strokes s' = [stroke] /\ currentIndex s' = 1 /\ pendingBaseChar s' = None)
  as Hcommit.
{ intros stroke.
  destruct (GameFacts.commit_total weightedPick fuel
              (setPendingCount 0 (setPending None None (pushStroke stroke s1))))
    as (s' & Hr' & Hs' & Hi' & Hpb & _).
  - exact Hps.
  - unfold fuelFor; simpl. rewrite Hi, Hcfg. destruct Hf as [_ Hf]. simpl in Hf. lia.
  - exists s'. split; [done|]. simpl in *. rewrite Hs', Hi', Hpb, Hs, Hi. done. }
assert (exists s' st,
  handleFlickInput fuel s1 now' (Session.markKey kind) d = Some s' /\
  strokes s' = [st] /\ currentIndex s' = 1 /\
  expected st = JS.charAt (characters s) 0 /\
  timestamp st = (now' - now)%float /\
  pendingBaseChar s' = None) as (s' & st & H).
{ unfold GameScreen.handleFlickInput, GameScreen.commitComposed. simpl.
  rewrite Hb', Hk', Hi.
  assert (JS.truthy (Some b) = true) as -> by by destruct b.
  destruct kind; simpl.
  - match goal with
    | |- context [pushStroke (if ?c then ?x else ?y) _] => destruct c
    end.
    + match goal with
      | |- context [pushStroke ?x _] =>
          destruct (Hcommit x) as (s' & -> & ? & ? & ?); by exists s', x
      end.
    + match goal with
      | |- context [pushStroke ?x _] =>
          destruct (Hcommit x) as (s' & -> & ? & ? & ?); by exists s', x
      end.
  - match goal with
    | |- context [pushStroke (if ?c then ?x else ?y) _] => destruct c
    end.
    + match goal with
      | |- context [pushStroke ?x _] =>
          destruct (Hcommit x) as (s' & -> & ? & ? & ?); by exists s', x
      end.
    + match goal with
      | |- context [pushStroke ?x _] =>
          destruct (Hcommit x) as (s' & -> & ? & ? & ?); by exists s', x
      end. }
exists s, s', st. split; [done|]. split; [done|]. split; [done|].
split; [done|]. exact H.
Qed.

End WithRandom.
End StartFacts.

(** ** More on the score history: the queries *)

Module StorageMore.
Import Storage Queries.

(** *** The order of doubles *)

Lemma SFcompare_order (a b c : SpecFloat.spec_float) :
  (SpecFloat.SFleb a b = true -> SpecFloat.SFleb b c = true ->
   SpecFloat.SFleb a c = true) /\
  (SpecFloat.SFltb a b = true -> SpecFloat.SFltb b c = true ->
   SpecFloat.SFltb a c = true) /\
  SpecFloat.SFltb a a = false.
Proof.
unfold SpecFloat.SFleb, SpecFloat.SFltb.
destruct a as [sa|sa| |sa ma ea], b as [sb|sb| |sb mb eb], c as [sc|sc| |sc mc ec];
  simpl; try destruct sa; try destruct sb; try destruct sc; simpl;
  (split; [|split]); try done; try (intros H1 H2);
  repeat match goal with
  | H : context [Z.compare ?x ?y] |- _ => destruct (Z.compare_spec x y)
  | |- context [Z.compare ?x ?y] => destruct (Z.compare_spec x y)
  | H : context [Pos.compare_cont Eq ?x ?y] |- _ =>
      change (Pos.compare_cont Eq x y) with (Pos.compare x y) in *;
      destruct (Pos.compare_spec x y)
  | |- context [Pos.compare_cont Eq ?x ?y] =>
      change (Pos.compare_cont Eq x y) with (Pos.compare x y) in *;
      destruct (Pos.compare_spec x y)
  end; simpl in *; subst; try done; try lia.
Qed.

Lemma float_leb_trans (x y z : float) :
  (x <=? y)%float = true -> (y <=? z)%float = true -> (x <=? z)%float = true.
Proof.
rewrite !FloatAxioms.leb_spec. apply SFcompare_order.
Qed.

Lemma float_ltb_trans (x y z : float) :
  (x <? y)%float = true -> (y <? z)%float = true -> (x <? z)%float = true.
Proof.
rewrite !FloatAxioms.ltb_spec. apply SFcompare_order.
Qed.

Lemma float_ltb_irrefl (x : float) : (x <? x)%float = false.
Proof.
rewrite FloatAxioms.ltb_spec. apply (SFcompare_order _ (Prim2SF x) (Prim2SF x)).
Qed.

(** *** The best record *)

(** The reduction keeps a record of the list that no record of the list
    has a greater speed than. *)
Lemma fold_better_unbeaten (rest : list GameRecord) (first : GameRecord) :
  let best := fold_left better rest first in
  best ∈ first :: rest /\
  forall r, r ∈ first :: rest -> (rec_cpm best <? rec_cpm r)%float = false.
Proof.
induction rest as [|x rest [Hin Hbest]] using rev_ind; simpl.
- split; [by left|]. intros r ->%list_elem_of_singleton.
  apply float_ltb_irrefl.
- rewrite fold_left_app; simpl. unfold better at 1 3.
  set (best := fold_left better rest first) in *.
  assert (forall r, r ∈ first :: rest ++ [x] -> r ∈ first :: rest \/ r = x)
    as Hsplit.
  { intros r [->|[Hr|Hr%list_elem_of_singleton]%elem_of_app]%elem_of_cons.
    - left. by left.
    - left. by right.
    - by right. }
  assert (forall r, r ∈ first :: rest -> r ∈ first :: rest ++ [x]) as Hmono.
  { intros r [->|Hr]%elem_of_cons; [by left|].
    right. apply elem_of_app. by left. }
  destruct (rec_cpm best <? rec_cpm x)%float eqn:Hlt.
  + split; [apply elem_of_cons; right; apply elem_of_app; right; by left|].
    intros r Hr.
    assert (r ∈ first :: rest \/ r = x) as [Hold| ->] by by apply Hsplit.
    * destruct (rec_cpm x <? rec_cpm r)%float eqn:Hxr; [|done].
      rewrite <- (Hbest r Hold). symmetry.
      by eapply float_ltb_trans.
    * apply float_ltb_irrefl.
  + split; [by apply Hmono|].
    intros r Hr.
    assert (r ∈ first :: rest \/ r = x) as [Hold| ->] by by apply Hsplit.
    * by apply Hbest.
    * done.
Qed.

Lemma bestOf_filter (keep : GameRecord -> bool) (records : list GameRecord) :
  bestAmong (fun r => keep r = true) records (bestOf (List.filter keep records)).
Proof.
unfold bestOf, bestAmong.
destruct (List.filter keep records) as [|first rest] eqn:E.
- intros r Hr Hk.
  assert (In r (List.filter keep records)) as Hin.
  { apply filter_In. split; [by apply list_elem_of_In|done]. }
  by rewrite E in Hin.
- destruct (fold_better_unbeaten rest first) as [Hin Hbest].
  rewrite <- E in Hin, Hbest.
  apply list_elem_of_In, filter_In in Hin as [Hin Hk].
  split; [by apply list_elem_of_In|]. split; [done|].
  intros r Hr Hkr. apply Hbest.
  apply list_elem_of_In, filter_In. split; [by apply list_elem_of_In|done].
Qed.

Lemma bestAmong_iff (P Q : GameRecord -> Prop) (records : list GameRecord)
    (o : option GameRecord) :
  (forall r, P r <-> Q r) -> bestAmong P records o -> bestAmong Q records o.
Proof.
intros Hiff. destruct o as [best|]; simpl.
- intros (Hin & Hp & Hbest). split; [done|]. split; [by apply Hiff|].
  intros r Hr Hq. apply Hbest; [done|by apply Hiff].
- intros H r Hr Hq. by apply (H r Hr), Hiff.
Qed.

Lemma highScore_best (item : Item) (keep : GameRecord -> bool)
    (records : list GameRecord) :
  getAllRecords item = JArray records ->
  exists o,
    highScore item keep = Returned o /\
    bestAmong (fun r => keep r = true) records o.
Proof.
intros H. unfold highScore, filterRecords. rewrite H.
eexists. split; [done|]. apply bestOf_filter.
Qed.

Lemma highScore_thrown (item : Item) (keep : GameRecord -> bool) :
  getAllRecords item = JOther -> highScore item keep = Thrown.
Proof.
intros H. unfold highScore, filterRecords. by rewrite H.
Qed.

(** X19. The three high scores.  When the store holds a list, each of
    [getDailyHighScore], [getPracticeHighScore] and [getTodayDailyRecord]
    returns null exactly when no stored record is of its game mode and
    input mode (and, for the last, of today), and otherwise one such
    record that no such record has a greater speed than; today's best
    never has a greater speed than the daily high score.  When the store
    holds something that is no list, all three throw. *)
Theorem high_scores_are_unbeaten (item : Item) (mode : InputMode)
    (today : jsstring) :
  match getAllRecords item with
  | JOther =>
      getDailyHighScore item mode = Thrown /\
      getPracticeHighScore item mode = Thrown /\
      getTodayDailyRecord item today mode = Thrown
  | JArray records =>
      exists daily practice todays,
        getDailyHighScore item mode = Returned daily /\
        getPracticeHighScore item mode = Returned practice /\
        getTodayDailyRecord item today mode = Returned todays /\
        bestAmong (fun r => rec_gameMode r = Daily /\ rec_inputMode r = mode)
                  records daily /\
        bestAmong (fun r => rec_gameMode r = Practice /\ rec_inputMode r = mode)
                  records practice /\
        bestAmong (fun r => rec_gameMode r = Daily /\ rec_inputMode r = mode /\
                            today `prefix_of` rec_date r)
                  records todays /\
        (forall t, todays = Some t ->
           exists h, daily = Some h /\ (rec_cpm h <? rec_cpm t)%float = false)
  end.
Proof.
destruct (getAllRecords item) as [records|] eqn:E.
2:{ unfold getDailyHighScore, getPracticeHighScore, getTodayDailyRecord.
    by rewrite !highScore_thrown. }
unfold getDailyHighScore, getPracticeHighScore, getTodayDailyRecord.
destruct (highScore_best item (fun r =>
    bool_decide (rec_gameMode r = Daily) && bool_decide (rec_inputMode r = mode))
  records E) as (daily & -> & Hd).
destruct (highScore_best item (fun r =>
    bool_decide (rec_gameMode r = Practice) && bool_decide (rec_inputMode r = mode))
  records E) as (practice & -> & Hp).
destruct (highScore_best item (fun r =>
    bool_decide (rec_gameMode r = Daily) && bool_decide (rec_inputMode r = mode)
    && startsWith (rec_date r) today)
  records E) as (todays & -> & Ht).
exists daily, practice, todays.
split; [done|]. split; [done|]. split; [done|].
apply (bestAmong_iff _
  (fun r => rec_gameMode r = Daily /\ rec_inputMode r = mode)) in Hd.
2:{ intros r. rewrite andb_true_iff, !bool_decide_eq_true. done. }
apply (bestAmong_iff _
  (fun r => rec_gameMode r = Practice /\ rec_inputMode r = mode)) in Hp.
2:{ intros r. rewrite andb_true_iff, !bool_decide_eq_true. done. }
apply (bestAmong_iff _
  (fun r => rec_gameMode r = Daily /\ rec_inputMode r = mode /\
            today `prefix_of` rec_date r)) in Ht.
2:{ intros r. unfold startsWith.
    rewrite !andb_true_iff, !bool_decide_eq_true. tauto. }
split; [done|]. split; [done|]. split; [done|].
intros t ->. simpl in Ht. destruct Ht as (Hin & (Hg & Hm & _) & _).
destruct daily as [h|]; simpl in Hd.
- exists h. split; [done|]. destruct Hd as (_ & _ & Hbest). by apply Hbest.
- exfalso. by apply (Hd t Hin).
Qed.

(** X20. The recent scores.  When the store holds a list,
    [getRecentScores] returns the end of the stored records of the input
    mode, in the order they were stored: the last [count] of them, or all
    when there are fewer; for a count of 0 it returns all of them, not
    none.  When the store holds something that is no list, it throws. *)
Theorem recent_scores_are_the_newest (item : Item) (mode : InputMode)
    (count : nat) :
  match getAllRecords item with
  | JOther => getRecentScores item mode count = Thrown
  | JArray records =>
      exists older recent,
        getRecentScores item mode count = Returned recent /\
        List.filter (fun r => bool_decide (rec_inputMode r = mode)) records
          = older ++ recent /\
        (count = 0 -> older = []) /\
        (1 <= count ->
         length recent = count `min` (length older + length recent))
  end.
Proof.
unfold getRecentScores, filterRecords.
destruct (getAllRecords item) as [records|]; [|done].
set (l := List.filter _ records).
destruct count as [|k].
- exists [], l. split; [done|]. split; [done|]. split; [done|]. lia.
- exists (take (length l - S k) l), (JS.slice_last (S k) l).
  split; [done|]. unfold JS.slice_last.
  split; [by rewrite take_drop|]. split; [done|].
  intros _. rewrite length_take, length_drop. lia.
Qed.

Lemma saveAll_broken (item : Item) (saves : list (GameRecord * bool)) :
  getAllRecords item = JOther -> saveAll item saves = item.
Proof.
intros H. induction saves as [|[r w] saves IH] using rev_ind; [done|].
rewrite StorageFacts.saveAll_snoc, IH. unfold saveRecord. by rewrite H.
Qed.

(** X21. A store that holds no list is never repaired.  When the stored
    text parses to something that is no array, every save, whether the
    write would go through or not, leaves the item as it is, so after any
    run of saves the queries and the history screen still throw. *)
Theorem broken_store_is_never_repaired (item : Item)
    (saves : list (GameRecord * bool)) (mode : InputMode) (count : nat)
    (today : jsstring) :
  getAllRecords item = JOther ->
  let item' := saveAll item saves in
  item' = item /\
  getRecentScores item' mode count = Thrown /\
  getDailyHighScore item' mode = Thrown /\
  getPracticeHighScore item' mode = Thrown /\
  getTodayDailyRecord item' today mode = Thrown /\
  History.figures item' mode = Thrown.
Proof.
intros H item'. subst item'. rewrite (saveAll_broken item saves H).
split; [done|].
unfold getRecentScores, getDailyHighScore, getPracticeHighScore,
  getTodayDailyRecord, History.figures, highScore, filterRecords.
by rewrite H.
Qed.

Lemma elem_of_slice_last_snoc {A} (k : nat) (xs : list A) (x : A) :
  1 <= k -> exists earlier, JS.slice_last k (xs ++ [x]) = earlier ++ [x].
Proof.
intros Hk. unfold JS.slice_last. rewrite length_app; simpl.
exists (drop (length xs + 1 - k) xs).
rewrite drop_app_le by lia. done.
Qed.

Lemma filter_snoc_keep {A} (f : A -> bool) (xs : list A) (x : A) :
  f x = true -> List.filter f (xs ++ [x]) = List.filter f xs ++ [x].
Proof.
intros H. rewrite List.filter_app. simpl. by rewrite H.
Qed.

(** What reads back as written still does when the oldest records are
    dropped. *)
Lemma json_slice_last (k : nat) (l : list GameRecord) :
  Json.records l = Some l ->
  Json.records (JS.slice_last k l) = Some (JS.slice_last k l).
Proof.
unfold Json.records, JS.slice_last. intros H%mapM_Some_1.
apply mapM_Some_2. by apply Forall2_drop.
Qed.

(** X22. A saved result is read back.  Let the store hold a list (or
    nothing, or a text that does not parse), let the write go through, and
    let every number of the records written, the new one included, be
    finite and not negative zero, so that the text written reads back as
    the list written.  Then the record that the result screen saves for a
    result is afterwards the last of the recent scores of its input mode,
    for any count of at least 1, and the high score of its game mode and
    input mode exists and has no smaller speed than it. *)
Theorem saved_result_is_read_back (item : Item) (records : list GameRecord)
    (id date : jsstring) (result : GameResult) (count : nat) :
  getAllRecords item = JArray records ->
  1 <= count ->
  let record := Result.toRecord id date result in
  Json.records (records ++ [record]) = Some (records ++ [record]) ->
  let item' := saveRecord true item record in
  Json.records (stored item') = Some (stored item') /\
  (exists earlier,
     getRecentScores item' (res_inputMode result) count
       = Returned (earlier ++ [record])) /\
  (exists h,
     match res_gameMode result with
     | Daily => getDailyHighScore item' (res_inputMode result)
     | Practice => getPracticeHighScore item' (res_inputMode result)
     end = Returned (Some h) /\
     (rec_cpm h <? res_cpm result)%float = false).
Proof.
intros H Hc record Hjson item'.
assert (getAllRecords item' = JArray (JS.slice_last 100 (records ++ [record])))
  as H'.
{ subst item'. unfold saveRecord. by rewrite H. }
split.
{ unfold stored. rewrite H'. by apply json_slice_last. }
destruct (elem_of_slice_last_snoc 100 records record) as [earlier He]; [lia|].
rewrite He in H'. split.
- unfold getRecentScores, filterRecords. rewrite H'.
  rewrite filter_snoc_keep by (by apply bool_decide_eq_true).
  destruct count as [|k]; [lia|]. simpl.
  destruct (elem_of_slice_last_snoc (S k)
    (List.filter (fun r => bool_decide (rec_inputMode r = res_inputMode result))
                 earlier) record) as [e' ->]; [lia|].
  by exists e'.
- assert (record ∈ earlier ++ [record]) as Hin.
  { apply elem_of_app. right. by left. }
  destruct (res_gameMode result) eqn:Hg.
  + destruct (highScore_best item' (fun r =>
        bool_decide (rec_gameMode r = Daily)
        && bool_decide (rec_inputMode r = res_inputMode result)) _ H')
      as ([h|] & Hq & Hb); simpl in Hb.
    * exists h. split; [exact Hq|].
      destruct Hb as (_ & _ & Hbest).
      apply (Hbest record Hin).
      apply andb_true_iff. split; apply bool_decide_eq_true; done.
    * exfalso. apply (Hb record Hin).
      apply andb_true_iff. split; apply bool_decide_eq_true; done.
  + destruct (highScore_best item' (fun r =>
        bool_decide (rec_gameMode r = Practice)
        && bool_decide (rec_inputMode r = res_inputMode result)) _ H')
      as ([h|] & Hq & Hb); simpl in Hb.
    * exists h. split; [exact Hq|].
      destruct Hb as (_ & _ & Hbest).
      apply (Hbest record Hin).
      apply andb_true_iff. split; apply bool_decide_eq_true; done.
    * exfalso. apply (Hb record Hin).
      apply andb_true_iff. split; apply bool_decide_eq_true; done.
Qed.

(** *** The rank and the history screen *)

(** X23. The rank never gets worse with the speed.  Whatever the four
    thresholds of the configuration are, a speed that is at least another
    gets a rank that is at least as good; a speed that is at least a
    threshold gets the rank of that threshold or a better one; and a
    speed that is not a number gets rank D. *)
Theorem calculateRank_monotone (config : Config.t) (cpm1 cpm2 : float) :
  let ranking := Config.ranking config in
  ((cpm1 <=? cpm2)%float = true ->
   Result.place (Result.calculateRank cpm2 config)
   <= Result.place (Result.calculateRank cpm1 config)) /\
  ((Config.rank_S ranking <=? cpm1)%float = true ->
   Result.calculateRank cpm1 config = RankS) /\
  ((Config.rank_A ranking <=? cpm1)%float = true ->
   Result.place (Result.calculateRank cpm1 config) <= 1) /\
  ((Config.rank_B ranking <=? cpm1)%float = true ->
   Result.place (Result.calculateRank cpm1 config) <= 2) /\
  ((Config.rank_C ranking <=? cpm1)%float = true ->
   Result.place (Result.calculateRank cpm1 config) <= 3) /\
  (PrimFloat.is_nan cpm1 = true -> Result.calculateRank cpm1 config = RankD).
Proof.
intros ranking. unfold Result.calculateRank. fold ranking.
split; [|split; [|split; [|split; [|split]]]].
- intros Hle.
  destruct (Config.rank_S ranking <=? cpm1)%float eqn:HS1.
  { by rewrite (float_leb_trans _ _ _ HS1 Hle). }
  destruct (Config.rank_A ranking <=? cpm1)%float eqn:HA1.
  { rewrite (float_leb_trans _ _ _ HA1 Hle).
    destruct (Config.rank_S ranking <=? cpm2)%float; simpl; lia. }
  destruct (Config.rank_B ranking <=? cpm1)%float eqn:HB1.
  { rewrite (float_leb_trans _ _ _ HB1 Hle).
    destruct (Config.rank_S ranking <=? cpm2)%float,
             (Config.rank_A ranking <=? cpm2)%float; simpl; lia. }
  destruct (Config.rank_C ranking <=? cpm1)%float eqn:HC1.
  { rewrite (float_leb_trans _ _ _ HC1 Hle).
    destruct (Config.rank_S ranking <=? cpm2)%float,
             (Config.rank_A ranking <=? cpm2)%float,
             (Config.rank_B ranking <=? cpm2)%float; simpl; lia. }
  destruct (Config.rank_S ranking <=? cpm2)%float,
           (Config.rank_A ranking <=? cpm2)%float,
           (Config.rank_B ranking <=? cpm2)%float,
           (Config.rank_C ranking <=? cpm2)%float; simpl; lia.
- by intros ->.
- intros ->. destruct (Config.rank_S ranking <=? cpm1)%float; simpl; lia.
- intros ->.
  destruct (Config.rank_S ranking <=? cpm1)%float,
           (Config.rank_A ranking <=? cpm1)%float; simpl; lia.
- intros ->.
  destruct (Config.rank_S ranking <=? cpm1)%float,
           (Config.rank_A ranking <=? cpm1)%float,
           (Config.rank_B ranking <=? cpm1)%float; simpl; lia.
- intros Hnan.
  assert (forall x : float, (x <=? cpm1)%float = false) as Hno.
  { intros x. rewrite FloatAxioms.leb_spec.
    unfold PrimFloat.is_nan in Hnan. apply negb_true_iff in Hnan.
    rewrite FloatAxioms.eqb_spec in Hnan.
    unfold SpecFloat.SFleb, SpecFloat.SFeqb, SpecFloat.SFcompare in *.
    destruct (Prim2SF cpm1) as [[]|[]| |[] m e]; try done;
      try by destruct (Prim2SF x).
    all: rewrite Z.compare_refl in Hnan;
      change (Pos.compare_cont Eq m m) with (Pos.compare m m) in Hnan;
      rewrite Pos.compare_refl in Hnan; done. }
  by rewrite !Hno.
Qed.

Lemma length_filter_modes (records : list GameRecord) :
  length (List.filter (fun r => bool_decide (rec_gameMode r = Daily)) records)
  + length (List.filter (fun r => bool_decide (rec_gameMode r = Practice)) records)
  = length records.
Proof.
induction records as [|r records IH]; [done|]. simpl.
destruct (rec_gameMode r); simpl; lia.
Qed.

Lemma sublist_filter_list {A} (f : A -> bool) (l : list A) :
  List.filter f l `sublist_of` l.
Proof.
induction l as [|x l IH]; [done|]. simpl.
destruct (f x); by constructor.
Qed.

Lemma Forall_filter_list {A} (f : A -> bool) (l : list A) :
  Forall (fun x => f x = true) (List.filter f l).
Proof.
apply Forall_forall. intros x Hx%list_elem_of_In%filter_In. by destruct Hx.
Qed.

(** X24. The lists of the history screen.  When the store holds a list,
    the records shown are the stored records of the input mode.  The
    daily records and the practice records are picked from them in their
    order, each list of its own game mode only, and together they are as
    many as the records.  The chart data are the end of the records, the
    last 20 or all when there are fewer; the recent records are the end
    of the records read backwards, the last 10 or all when there are
    fewer, so the newest comes first.  When the store holds something
    that is no list, [render] throws. *)
Theorem history_figures_add_up (item : Item) (mode : InputMode) :
  match getAllRecords item with
  | JOther => History.figures item mode = Thrown
  | JArray all =>
      exists f,
        History.figures item mode = Returned f /\
        History.records f `sublist_of` all /\
        Forall (fun r => rec_inputMode r = mode) (History.records f) /\
        length (History.records f)
          = length (List.filter (fun r => bool_decide (rec_inputMode r = mode)) all) /\
        History.dailyRecords f `sublist_of` History.records f /\
        Forall (fun r => rec_gameMode r = Daily) (History.dailyRecords f) /\
        History.practiceRecords f `sublist_of` History.records f /\
        Forall (fun r => rec_gameMode r = Practice) (History.practiceRecords f) /\
        length (History.dailyRecords f) + length (History.practiceRecords f)
          = length (History.records f) /\
        (exists older, History.records f = older ++ History.chartData f) /\
        length (History.chartData f) = 20 `min` length (History.records f) /\
        (exists older,
           History.records f = older ++ reverse (History.recentRecords f)) /\
        length (History.recentRecords f) = 10 `min` length (History.records f) /\
        head (History.recentRecords f) = last (History.records f)
  end.
Proof.
unfold History.figures, filterRecords.
destruct (getAllRecords item) as [all|]; [|done].
set (l := List.filter _ all).
eexists. split; [done|]. simpl.
split; [apply sublist_filter_list|].
split.
{ eapply Forall_impl; [apply Forall_filter_list|].
  intros r Hr. simpl in Hr. by apply bool_decide_eq_true in Hr. }
split; [done|].
split; [apply sublist_filter_list|].
split.
{ eapply Forall_impl; [apply Forall_filter_list|].
  intros r Hr. simpl in Hr. by apply bool_decide_eq_true in Hr. }
split; [apply sublist_filter_list|].
split.
{ eapply Forall_impl; [apply Forall_filter_list|].
  intros r Hr. simpl in Hr. by apply bool_decide_eq_true in Hr. }
split; [apply length_filter_modes|].
split.
{ exists (take (length l - 20) l). unfold JS.slice_last. by rewrite take_drop. }
split; [by rewrite StorageFacts.length_slice_last|].
split.
{ exists (take (length l - 10) l). unfold JS.slice_last.
  by rewrite reverse_involutive, take_drop. }
split; [by rewrite length_reverse, StorageFacts.length_slice_last|].
assert (forall k, 1 <= k -> last (JS.slice_last k l) = last l) as Hlast.
{ intros k Hk. unfold JS.slice_last.
  destruct l as [|x l'] using rev_ind; [done|].
  rewrite length_app; simpl.
  rewrite drop_app_le by lia. by rewrite !last_snoc. }
rewrite <- (Hlast 10) by lia.
generalize (JS.slice_last 10 l). intros xs.
destruct xs as [|x xs] using rev_ind; [done|].
by rewrite reverse_snoc, last_snoc.
Qed.

End StorageMore.

(** ** The built-in configuration *)

Module DefaultFacts.
Import FlickKeyboard.

Section WithRandom.

Context {SeededRandom : Type}.
Variable newSeededRandom : float -> SeededRandom.

(** X25. With the built-in configuration every character of the text is
    typed with one flick.  Each character a new generator can pick, in
    either input mode, needs no diacritic, has a key on the keyboard of
    that mode, and is read back when that key is pressed and flicked in
    the direction the keyboard gives for it. *)
Theorem default_text_needs_one_flick (seed : float) (mode : InputMode)
    (c : jsstring) (p : Pointer) :
  c ∈ Generator.characters
        (Generator.new newSeededRandom seed DefaultConfig.getDefaultConfig mode) ->
  let kb := new DefaultConfig.getDefaultConfig mode in
  needsDakuten kb c = None /\
  (0 <= getKeyIndexForChar kb c)%Z /\
  is_Some (getLayout kb !! Z.to_nat (getKeyIndexForChar kb c)) /\
  getDirectionForChar kb c
    ≫= getCharacterForDirection
         (handleTouchStart kb p (Z.to_nat (getKeyIndexForChar kb c)))
  = Some c.
Proof.
intros Hc kb. subst kb. apply list_elem_of_In in Hc.
destruct mode; simpl in Hc;
  repeat (destruct Hc as [<-|Hc];
    [split; [vm_compute; reflexivity|];
     split; [vm_compute; discriminate|];
     split; [vm_compute; eexists; reflexivity|];
     vm_compute; reflexivity|]);
  exact (False_ind _ Hc).
Qed.

End WithRandom.
End DefaultFacts.

(** ** More sample runs *)

(** A played list of inputs is a run of the handler. *)
Lemma play_reachableFrom (inputs : list (jsstring * FlickDirection)) :
  forall (s0 s s' : GameScreen.t (SeededRandom := N)) (now : float),
  Session.reachableFrom Sample.pick s0 s ->
  Sample.play s now inputs = Some s' ->
  Session.reachableFrom Sample.pick s0 s'.
Proof.
induction inputs as [|[c d] inputs IH]; intros s0 s s' now Hs H; simpl in H.
- by injection H as <-.
- destruct (GameScreen.handleFlickInput Sample.pick 200 s now c d) as [s1|] eqn:E;
    [|done].
  eapply IH; [|exact H]. by eapply Session.reached_step.
Qed.

Lemma play_reachable (inputs : list (jsstring * FlickDirection)) :
  forall (s s' : GameScreen.t (SeededRandom := N)) (now : float),
  GameScreen.reachable Sample.pick s ->
  Sample.play s now inputs = Some s' ->
  GameScreen.reachable Sample.pick s'.
Proof.
induction inputs as [|[c d] inputs IH]; intros s s' now Hs H; simpl in H.
- by injection H as <-.
- destruct (GameScreen.handleFlickInput Sample.pick 200 s now c d) as [s1|] eqn:E;
    [|done].
  eapply IH; [|exact H]. by eapply GameScreen.reachable_step.
Qed.

Lemma sample_screen_fresh (chars : jsstring) :
  GameScreen.fresh (Sample.screen chars 0).
Proof.
repeat (split; [reflexivity|]). by exists Sample.keyboard.
Qed.

(** The sample picker returns an item of a list that is not empty. *)
Lemma samplePick_item (r : N) (items : list jsstring) (ws : list float) :
  items <> [] -> (Sample.pick r items ws).1 ∈ items.
Proof.
intros Hne. unfold Sample.pick; simpl.
assert (N.to_nat (r mod N.of_nat (length items)) < length items) as Hlt.
{ assert (N.of_nat (length items) <> 0%N) as Hpos by (destruct items; [done|simpl; lia]).
  pose proof (N.mod_lt r _ Hpos). lia. }
destruct (lookup_lt_is_Some_2 items _ Hlt) as [x Hx].
rewrite Hx. simpl. by eapply list_elem_of_lookup_2.
Qed.

Lemma sample_picks_units (mode : InputMode) :
  Picks.picks_units Sample.pick (Sample.generator mode).
Proof.
split.
- intros r. apply samplePick_item. by destruct mode.
- destruct mode; vm_compute; repeat constructor.
Qed.

Lemma generate_exact_length_witness :
  Picks.picks_units Sample.pick (Sample.generator Hiragana) /\
  exists out g',
    (forall fuel, 4 <= fuel ->
       Generator.generate Sample.pick fuel (Sample.generator Hiragana) 4
       = Some (out, g')) /\
    length out = 4 /\
    (forall i u, out !! i = Some u ->
       [u] ∈ Generator.characters (Sample.generator Hiragana)).
Proof.
split; [exact (sample_picks_units Hiragana)|].
destruct (GeneratorMore.generate_exact_length Sample.pick
            (Sample.generator Hiragana) 4 (sample_picks_units Hiragana))
  as (out & g' & Ha & Hb & Hc & _).
exists out, g'. split; [exact Ha|]. split; [exact Hb|exact Hc].
Defined.

Lemma generate_twice_witness :
  Picks.picks_units Sample.pick (Sample.generator Hiragana) /\
  exists out1 g1 out2 g2,
    Generator.generate Sample.pick 2 (Sample.generator Hiragana) 2
      = Some (out1, g1) /\
    Generator.generate Sample.pick 3 g1 3 = Some (out2, g2) /\
    Generator.generate Sample.pick (2 + 3) (Sample.generator Hiragana) (2 + 3)
      = Some (out1 ++ out2, g2).
Proof.
split; [exact (sample_picks_units Hiragana)|].
exact (GeneratorMore.generate_twice Sample.pick (Sample.generator Hiragana) 2 3
         (sample_picks_units Hiragana)).
Defined.

Lemma stream_is_generate_witness :
  Picks.picks_units Sample.pick (Sample.generator Alphabet) /\
  Generator.generate Sample.pick 3 (Sample.generator Alphabet) 3
    = Some (concat (Generator.stream_take Sample.pick 3 (Sample.generator Alphabet)).1,
            (Generator.stream_take Sample.pick 3 (Sample.generator Alphabet)).2) /\
  length (Generator.stream_take Sample.pick 3 (Sample.generator Alphabet)).1 = 3.
Proof.
split; [exact (sample_picks_units Alphabet)|].
exact (GeneratorMore.stream_is_generate Sample.pick (Sample.generator Alphabet) 3
         (sample_picks_units Alphabet)).
Defined.

(** In the built-in hiragana layout, [ha] is on the sixth key only, [pa]
    is on no key of either layout, and [ha] is its only base. *)
Lemma ha_on_one_key (j : nat) (key : FlickKey.t) :
  FlickKeyboard.layoutOf DefaultConfig.getDefaultConfig Hiragana !! j = Some key ->
  FlickKeyboard.holds key Kana.k_ha -> j = 5.
Proof.
intros Hj [d Hd].
do 12 (destruct j as [|j];
  [injection Hj as <-; destruct d; vm_compute in Hd; congruence|]).
discriminate Hj.
Qed.

Lemma pa_on_no_key (mode : InputMode) :
  Forall (fun k => ~ FlickKeyboard.holds k Kana.k_pa)
    (FlickKeyboard.layoutOf DefaultConfig.getDefaultConfig mode).
Proof.
destruct mode; apply Forall_forall; intros key Hkey [d Hd];
  apply list_elem_of_In in Hkey; simpl in Hkey;
  repeat (destruct Hkey as [<-|Hkey];
          [destruct d; vm_compute in Hd; congruence|]);
  exact Hkey.
Qed.

Lemma pa_has_one_base (b : jsstring) :
  (b, Kana.k_pa) ∈ Config.dakutenMap DefaultConfig.getDefaultConfig
                   ++ Config.handakutenMap DefaultConfig.getDefaultConfig ->
  b = Kana.k_ha.
Proof.
intros Hin. apply list_elem_of_In in Hin. simpl in Hin.
repeat (destruct Hin as [Hin|Hin];
  [apply pair_equal_spec in Hin as [Hb Hm];
   first [exact (eq_sym Hb) | (vm_compute in Hm; discriminate Hm)]|]).
exact (False_ind _ Hin).
Qed.

Lemma marked_char_on_base_key_witness :
  FlickKeyboard.layoutOf DefaultConfig.getDefaultConfig Hiragana !! 5
    = Some (DefaultConfig.key5 Kana.k_ha Kana.k_hi Kana.k_hu Kana.k_he Kana.k_ho) /\
  (let kb := FlickKeyboard.new DefaultConfig.getDefaultConfig Hiragana in
   FlickKeyboard.getKeyForChar kb Kana.k_pa
     = Some (DefaultConfig.key5 Kana.k_ha Kana.k_hi Kana.k_hu Kana.k_he Kana.k_ho) /\
   FlickKeyboard.getKeyIndexForChar kb Kana.k_pa = 5%Z /\
   FlickKeyboard.getDirectionForChar kb Kana.k_pa = None) /\
  FlickKeyboard.getKeyForChar
    (FlickKeyboard.new DefaultConfig.getDefaultConfig Alphabet) Kana.k_pa = None.
Proof.
assert (FlickKeyboard.holds
          (DefaultConfig.key5 Kana.k_ha Kana.k_hi Kana.k_hu Kana.k_he Kana.k_ho)
          Kana.k_ha) as Hh by (exists Center; reflexivity).
assert ((Kana.k_ha, Kana.k_pa)
          ∈ Config.dakutenMap DefaultConfig.getDefaultConfig
            ++ Config.handakutenMap DefaultConfig.getDefaultConfig) as Hin.
{ apply list_elem_of_In. vm_compute. tauto. }
destruct (KeyboardMore.marked_char_on_base_key DefaultConfig.getDefaultConfig
            Kana.k_ha Kana.k_pa 5 _
            ltac:(discriminate) ltac:(discriminate)
            (pa_on_no_key Hiragana) (pa_on_no_key Alphabet)
            Hin pa_has_one_base eq_refl Hh ha_on_one_key)
  as (Ha & Hb & Hc & Hd & _).
split; [reflexivity|]. split; [|exact Hd].
split; [exact Ha|]. split; [exact Hb|exact Hc].
Defined.


Lemma track_shows_the_log_witness :
  let s0 := Sample.screen Kana.k_a 0 in
  let s := Sample.typed Kana.k_a [(Kana.k_a, Center)] in
  GameScreen.fresh s0 /\ Session.textReady s0 /\
  Session.reachableFrom Sample.pick s0 s /\
  length (GameScreen.strokes s) = 1 /\
  (forall i st, GameScreen.strokes s !! i = Some st ->
     i < GameScreen.currentIndex s /\
     expected st = JS.charAt (GameScreen.characters s) i /\
     GameView.strokeFor s i = Some st) /\
  (forall i, GameScreen.currentIndex s <= i -> GameView.strokeFor s i = None) /\
  Session.textReady s.
Proof.
intros s0 s.
assert (Session.textReady s0) as Ht by (intros _; simpl; lia).
assert (Session.reachableFrom Sample.pick s0 s) as Hr.
{ apply (play_reachableFrom [(Kana.k_a, Center)] _ s0 s 2000).
  - apply Session.reached_start.
  - vm_compute. reflexivity. }
split; [exact (sample_screen_fresh Kana.k_a)|]. split; [exact Ht|].
split; [exact Hr|]. split; [vm_compute; reflexivity|].
exact (GameMore.track_shows_the_log Sample.pick s0 s
         (sample_screen_fresh Kana.k_a) Ht Hr).
Defined.

Lemma input_appends_at_most_one_witness :
  let s := Sample.screen Kana.k_a 0 in
  let s' := Sample.typed Kana.k_a [(Kana.k_i, Left)] in
  GameScreen.handleFlickInput Sample.pick 200 s 2000 Kana.k_i Left = Some s' /\
  length (GameScreen.strokes s') = 1 /\
  Session.framed s s' /\
  (Session.kept s s' \/ Session.appendedOne s 2000 Left s').
Proof.
intros s s'.
assert (GameScreen.handleFlickInput Sample.pick 200 s 2000 Kana.k_i Left = Some s')
  as H by (vm_compute; reflexivity).
destruct (GameMore.input_appends_at_most_one Sample.pick 200 s s' 2000
            Kana.k_i Left H) as (Ha & Hb & _).
split; [exact H|]. split; [vm_compute; reflexivity|].
split; [exact Ha|exact Hb].
Defined.

Lemma own_key_completes_correctly_witness :
  let s := Sample.typed Kana.k_ga [(Kana.k_ka, Center)] in
  GameScreen.reachable Sample.pick s /\ GameScreen.running s /\
  NoDup (JS.keys (Session.tableOf Dakuten (GameScreen.config s))) /\
  GameScreen.pendingBaseChar s = Some Kana.k_ka /\
  GameScreen.pendingDakutenType s = Some Dakuten /\
  Generator.picks_nonempty Sample.pick (GameScreen.generator s) /\
  GameScreen.fuelFor s 200 /\
  exists s' e,
    GameScreen.expectedOf s = Some e /\
    GameScreen.handleFlickInput Sample.pick 200 s 3000
      (Session.markKey Dakuten) Center = Some s' /\
    GameScreen.strokes s' = GameScreen.strokes s ++
      [{| input := e; expected := Some e; correct := true;
          timestamp := (3000 - GameScreen.startTime s)%float;
          flickDirection := Center |}] /\
    GameScreen.currentIndex s' = S (GameScreen.currentIndex s).
Proof.
intros s.
assert (GameScreen.reachable Sample.pick s) as H1.
{ apply (play_reachable [(Kana.k_ka, Center)] (Sample.screen Kana.k_ga 0) s 2000).
  - apply GameScreen.reachable_fresh, sample_screen_fresh.
  - vm_compute. reflexivity. }
assert (GameScreen.running s) as H2 by (split; vm_compute; reflexivity).
assert (NoDup (JS.keys (Session.tableOf Dakuten (GameScreen.config s)))) as H3.
{ apply (bool_decide_unpack _). vm_compute. reflexivity. }
assert (GameScreen.pendingBaseChar s = Some Kana.k_ka) as H4
  by (vm_compute; reflexivity).
assert (GameScreen.pendingDakutenType s = Some Dakuten) as H5
  by (vm_compute; reflexivity).
assert (Generator.picks_nonempty Sample.pick (GameScreen.generator s)) as H6.
{ intros r. apply samplePick_nonempty.
  vm_compute; repeat constructor; discriminate. }
assert (GameScreen.fuelFor s 200) as H7.
{ unfold GameScreen.fuelFor. vm_compute. lia. }
destruct (GameMore.own_key_completes_correctly Sample.pick 200 s 3000 Center
            Kana.k_ka Dakuten H1 H2 H3 H4 ltac:(discriminate) H5 H6 H7)
  as (s' & e & Ha & Hb & Hc & Hd & _).
split; [exact H1|]. split; [exact H2|]. split; [exact H3|]. split; [exact H4|].
split; [exact H5|]. split; [exact H6|]. split; [exact H7|].
exists s', e. split; [exact Ha|]. split; [exact Hb|]. split; [exact Hc|exact Hd].
Defined.

Lemma sample_keyboard_wellBuilt : KeyboardState.wellBuilt Sample.keyboard.
Proof.
exact (KeyboardMore.inStep_buildCharToKeyMap DefaultConfig.getDefaultConfig Hiragana).
Qed.

Lemma highlight_points_at_first_press_witness :
  let s := Sample.screen Kana.k_pa 0 in
  let h := {| hl_keyIndex := 5; hl_direction := Center;
              hl_dakutenPending := false |} in
  GameScreen.flickKeyboard s = Some Sample.keyboard /\
  KeyboardState.wellBuilt Sample.keyboard /\
  GameView.highlightNextKey true true s = Marked h /\
  exists key,
    FlickKeyboard.getLayout Sample.keyboard !! Z.to_nat (hl_keyIndex h) = Some key /\
    exists e keyT,
      GameScreen.expectedOf s = Some e /\
      FlickKeyboard.getKeyForChar Sample.keyboard e = Some key /\
      FlickKeyboard.getKeyForChar Sample.keyboard
        (GameView.firstPress Sample.keyboard e) = Some keyT /\
      FlickKey.slot keyT (hl_direction h)
        = Some (GameView.firstPress Sample.keyboard e).
Proof.
intros s h.
assert (GameView.highlightNextKey true true s = Marked h) as H
  by (vm_compute; reflexivity).
destruct (GameMore.highlight_points_at_first_press true true s Sample.keyboard h
            eq_refl sample_keyboard_wellBuilt H)
  as (_ & _ & _ & key & Hk & e & keyT & Ha & Hb & Hc & Hd & _).
split; [reflexivity|]. split; [exact sample_keyboard_wellBuilt|].
split; [exact H|].
exists key. split; [exact Hk|].
exists e, keyT. split; [exact Ha|]. split; [exact Hb|]. split; [exact Hc|exact Hd].
Defined.

Lemma broken_store_is_never_repaired_witness :
  let item := Storage.Text (Some Storage.JOther) in
  let item' := Storage.saveAll item [(Sample.record, true); (Sample.record, false)] in
  Storage.getAllRecords item = Storage.JOther /\
  item' = item /\
  Queries.getRecentScores item' Hiragana 10 = Thrown /\
  Queries.getDailyHighScore item' Hiragana = Thrown /\
  Queries.getPracticeHighScore item' Hiragana = Thrown /\
  Queries.getTodayDailyRecord item' Kana.k_u Hiragana = Thrown /\
  History.figures item' Hiragana = Thrown.
Proof.
intros item item'.
split; [reflexivity|].
exact (StorageMore.broken_store_is_never_repaired item
         [(Sample.record, true); (Sample.record, false)] Hiragana 10 Kana.k_u
         eq_refl).
Defined.

Lemma saved_result_is_read_back_witness :
  let item' := Storage.saveRecord true Storage.NoItem Sample.record in
  Storage.getAllRecords Storage.NoItem = Storage.JArray [] /\
  Json.records ([] ++ [Sample.record]) = Some ([] ++ [Sample.record]) /\
  res_gameMode Sample.result = Daily /\
  (exists earlier,
     Queries.getRecentScores item' (res_inputMode Sample.result) 10
       = Returned (earlier ++ [Sample.record])) /\
  (exists h,
     match res_gameMode Sample.result with
     | Daily => Queries.getDailyHighScore item' (res_inputMode Sample.result)
     | Practice => Queries.getPracticeHighScore item' (res_inputMode Sample.result)
     end = Returned (Some h) /\
     (rec_cpm h <? res_cpm Sample.result)%float = false).
Proof.
intros item'.
assert (Json.records ([] ++ [Sample.record]) = Some ([] ++ [Sample.record]))
  as Hjson by (vm_compute; reflexivity).
destruct (StorageMore.saved_result_is_read_back Storage.NoItem [] Kana.k_i
            Kana.k_u Sample.result 10 eq_refl ltac:(lia) Hjson) as (_ & Ha & Hb).
split; [reflexivity|]. split; [exact Hjson|].
split; [vm_compute; reflexivity|]. split; [exact Ha|exact Hb].
Defined.

Lemma default_text_needs_one_flick_witness :
  let kb := FlickKeyboard.new DefaultConfig.getDefaultConfig Hiragana in
  Kana.k_nu ∈ Generator.characters (Sample.generator Hiragana) /\
  FlickKeyboard.needsDakuten kb Kana.k_nu = None /\
  (0 <= FlickKeyboard.getKeyIndexForChar kb Kana.k_nu)%Z /\
  FlickKeyboard.getDirectionForChar kb Kana.k_nu
    ≫= FlickKeyboard.getCharacterForDirection
         (FlickKeyboard.handleTouchStart kb {| clientX := 10; clientY := 20 |}
            (Z.to_nat (FlickKeyboard.getKeyIndexForChar kb Kana.k_nu)))
  = Some Kana.k_nu.
Proof.
intros kb.
assert (Kana.k_nu ∈ Generator.characters (Sample.generator Hiragana)) as H.
{ apply list_elem_of_In. vm_compute. tauto. }
destruct (DefaultFacts.default_text_needs_one_flick Sample.newCounter 20260101
            Hiragana Kana.k_nu {| clientX := 10; clientY := 20 |} H)
  as (Ha & Hb & _ & Hd).
split; [exact H|]. split; [exact Ha|]. split; [exact Hb|exact Hd].
Defined.

Lemma sample_fuelForRender (s : GameScreen.t (SeededRandom := N)) :
  GameScreen.config s = DefaultConfig.getDefaultConfig ->
  GameStart.fuelForRender s 200.
Proof.
intros H. unfold GameStart.fuelForRender. rewrite H. simpl. lia.
Qed.

Lemma render_resets_all_but_the_composition_witness :
  let prev := Sample.screen Kana.k_a 0 in
  let data := {| gameMode := Practice; inputMode := Hiragana; seed := 20260101 |} in
  GameStart.fuelForRender prev 200 /\
  exists s,
    GameStart.render Sample.newCounter Sample.pick 200 prev data = Some s /\
    GameScreen.strokes s = [] /\ GameScreen.currentIndex s = 0 /\
    100 <= length (GameScreen.characters s) /\
    GameScreen.isCountdown s = true /\
    GameScreen.fresh s.
Proof.
intros prev data.
assert (GameStart.fuelForRender prev 200) as Hf
  by exact (sample_fuelForRender prev eq_refl).
destruct (StartFacts.render_resets_all_but_the_composition Sample.newCounter
            Sample.pick 200 prev data (sample_picks_nonempty Hiragana) Hf)
  as (s & Ha & Hb & Hc & Hd & _ & _ & _ & _ & He & _ & _ & _ & _ & Hfresh).
split; [exact Hf|].
exists s. split; [exact Ha|]. split; [exact Hb|]. split; [exact Hc|].
split; [exact Hd|]. split; [exact He|].
apply Hfresh. split; [reflexivity|]. split; reflexivity.
Defined.

Lemma stale_composition_counts_in_next_game_witness :
  let prev := Sample.pendingScreen Kana.k_ga 0 Kana.k_ka Dakuten 0 in
  let data := {| gameMode := Practice; inputMode := Hiragana; seed := 20260101 |} in
  GameScreen.pendingBaseChar prev = Some Kana.k_ka /\
  GameScreen.pendingDakutenType prev = Some Dakuten /\
  GameStart.fuelForRender prev 200 /\
  exists s s' st,
    GameStart.render Sample.newCounter Sample.pick 200
      (GameScreen.endGame prev).2 data = Some s /\
    GameScreen.running (GameStart.startGame s 5000) /\
    GameScreen.pendingBaseChar (GameStart.startGame s 5000) = Some Kana.k_ka /\
    GameScreen.handleFlickInput Sample.pick 200 (GameStart.startGame s 5000) 6000
      (Session.markKey Dakuten) Center = Some s' /\
    GameScreen.strokes s' = [st] /\ GameScreen.currentIndex s' = 1.
Proof.
intros prev data.
assert (GameStart.fuelForRender prev 200) as Hf
  by exact (sample_fuelForRender prev eq_refl).
destruct (StartFacts.stale_composition_counts_in_next_game Sample.newCounter
            Sample.pick 200 prev data 5000 6000 Center Kana.k_ka Dakuten
            eq_refl ltac:(discriminate) eq_refl (sample_picks_nonempty Hiragana) Hf)
  as (s & s' & st & Ha & Hb & _ & Hc & Hd & He & Hg & _).
split; [reflexivity|]. split; [reflexivity|]. split; [exact Hf|].
exists s, s', st. split; [exact Ha|]. split; [exact Hb|]. split; [exact Hc|].
split; [exact Hd|]. split; [exact He|exact Hg].
Defined.

